(** * Secure print: authorization, quota and watermarking pipeline

    A shallow embedding of the [secure-print] edge function (the [serve]
    handler that validates a session, decrements the print counter, fetches
    and normalizes the document, optionally enhances it, stamps every page
    and delivers it) and of the page-size policy of the SVG-to-PDF service
    ([getPageSizeFromViewBox]).

    The handler talks to a database, a storage bucket, two HTTP delegates
    and the pdf-lib library.  The database tables are explicit state; what
    the other collaborators answer during one request is collected in a
    record [World], so that the handler is a function and every theorem
    quantifies over all possible answers. *)

From Stdlib Require Import ZArith QArith Ascii String DecimalString.
From stdpp Require Import base option list strings gmap fin_maps.

Open Scope Z_scope.

(** ** Platform values *)

(** An [ArrayBuffer] / [Uint8Array]. *)
Abbreviation bytes := (list Byte.byte).

(** [Blob.text()]: the bytes read as a string, one character for every
    byte, as UTF-8 reads the bytes below 128. *)
Definition text (b : bytes) : string := string_of_list_byte b.

(** [a || b] on a value that is a string, [null] or [undefined]: the empty
    string is falsy. *)
Definition or_else (a : option string) (b : string) : string :=
  match a with
  | Some (String c s) => String c s
  | _ => b
  end.

(** [a ?? b]: only [null] and [undefined] give way. *)
Definition nullish (a : option string) (b : string) : string :=
  match a with
  | Some s => s
  | None => b
  end.

(** [!s] for a string or [undefined]. *)
Definition falsy (a : option string) : bool :=
  match a with
  | Some (String _ _) => false
  | _ => true
  end.

(** [n.toString()] and template interpolation of an integer. *)
Definition toString (n : Z) : string := NilZero.string_of_int (Z.to_int n).

(** [String.prototype.toLowerCase] on the ASCII letters. *)
Definition lower_ascii (c : ascii) : ascii :=
  let n := N_of_ascii c in
  if ((65 <=? n) && (n <=? 90))%N then ascii_of_N (n + 32) else c.

Fixpoint toLowerCase (s : string) : string :=
  match s with
  | EmptyString => EmptyString
  | String c s' => String (lower_ascii c) (toLowerCase s')
  end.

(** [s.endsWith(suffix)]. *)
Definition endsWith (s suffix : string) : bool :=
  let n := String.length s in
  let m := String.length suffix in
  ((m <=? n)%nat && String.eqb (substring (n - m) m s) suffix)%bool.

(** The objects handed to [JSON.stringify] by the handler: flat, with
    string and integer members. *)
Inductive JsonValue :=
| JString (s : string)
| JNumber (n : Z).

Abbreviation Json := (list (string * JsonValue)).

(** ** HTTP *)

Inductive Body :=
| BodyNull
| BodyJson (j : Json)
| BodyBytes (b : bytes).

Record Response := {
  status : Z;
  headers : gmap string string;
  body : Body
}.

Record Request := {
  method : string;
  (** [await req.json()] destructured: [None] when it throws, [Some None]
      when the object has no [session_token], [Some (Some s)] when it is
      the string [s]. *)
  json_session_token : option (option string);
  hdr_user_agent : option string;
  hdr_x_forwarded_for : option string;
  hdr_cf_connecting_ip : option string
}.

(** What [fetch] gives back: it rejects, or it resolves to a response whose
    [arrayBuffer()] may itself reject. *)
Inductive FetchResult :=
| FetchThrows
| FetchResponse (st : Z) (arrayBuffer : option bytes).

Definition ok (st : Z) : bool := (200 <=? st) && (st <=? 299).

Definition corsHeaders : gmap string string :=
  <["Access-Control-Allow-Origin" := "*"]>
  (<["Access-Control-Allow-Headers" :=
      "authorization, x-client-info, apikey, content-type"]> ∅).

(** [new Response(JSON.stringify(j), { status, headers: { ...corsHeaders,
    'Content-Type': 'application/json' } })]. *)
Definition json_response (st : Z) (j : Json) : Response :=
  {| status := st;
     headers := <["Content-Type" := "application/json"]> corsHeaders;
     body := BodyJson j |}.

Definition error_response (st : Z) (msg : string) : Response :=
  json_response st [("error", JString msg)].

(** ** Database tables *)

Record DocumentRow := {
  doc_id : string;
  storage_path : string
}.

(** A row of [document_access] together with the [documents] row that
    the select embeds.  The primary key [id] is the key of the table. *)
Record AccessRow := {
  session_token : string;
  expires_at : Z;
  remaining_prints : Z;
  user_id : string;
  watermark_text : option string;
  documents : option DocumentRow
}.

Record PrintLog := {
  log_document_id : string;
  log_user_id : string;
  log_session_token : string;
  log_ip_address : string;
  log_user_agent : string
}.

Record Database := {
  document_access : gmap string AccessRow;
  print_logs : list PrintLog
}.

Definition set_remaining_prints (n : Z) (r : AccessRow) : AccessRow :=
  {| session_token := session_token r;
     expires_at := expires_at r;
     remaining_prints := n;
     user_id := user_id r;
     watermark_text := watermark_text r;
     documents := documents r |}.

(** [.eq('session_token', token).gt('expires_at', now)] *)
Definition select_access (db : Database) (token : string) (now : Z)
  : list (string * AccessRow) :=
  filter (fun p => session_token p.2 = token /\ now < expires_at p.2)
         (map_to_list (document_access db)).

(** [.maybeSingle()]: no row is [null], one row is the row, several rows
    are an error. *)
Inductive QueryResult (A : Type) :=
| QueryError
| QueryData (data : option A).
Arguments QueryError {A}.
Arguments QueryData {A} data.

Definition maybeSingle {A} (rows : list A) : QueryResult A :=
  match rows with
  | [] => QueryData None
  | [r] => QueryData (Some r)
  | _ => QueryError
  end.

(** [.update({ remaining_prints: n }).eq('id', id)] *)
Definition update_remaining_prints (id : string) (n : Z) (db : Database) : Database :=
  {| document_access := alter (set_remaining_prints n) id (document_access db);
     print_logs := print_logs db |}.

(** [.from('print_logs').insert(entry)] *)
Definition insert_print_log (entry : PrintLog) (db : Database) : Database :=
  {| document_access := document_access db;
     print_logs := print_logs db ++ [entry] |}.

(** ** Numbers

    A number of JavaScript is an IEEE 754 double; the finite ones are
    rationals.  [double q] is the double nearest to the rational [q], ties
    to the even mantissa, with the subnormal numbers; it is what a decimal
    literal denotes and what an arithmetic operation gives from the exact
    result.  Rationals of absolute value 2^1024 - 2^970 and more, which
    overflow, are not met: the handler multiplies a page size by a factor
    below 1. *)
Definition double (q : Q) : Q :=
  let n := Qnum q in
  let d := Z.pos (Qden q) in
  if n =? 0 then 0%Q
  else
    let a := Z.abs n in
    (* 2^k <= a/d < 2^(k+1) *)
    let k0 := Z.log2 a - Z.log2 d in
    let k := if (if 0 <=? k0 then d * 2 ^ k0 <=? a else d <=? a * 2 ^ (- k0))
             then k0 else k0 - 1 in
    (* the unit of the mantissa: 53 bits, or the least subnormal *)
    let e := Z.max (k - 52) (-1074) in
    let num := if 0 <=? e then a else a * 2 ^ (- e) in
    let den := if 0 <=? e then d * 2 ^ e else d in
    let m0 := num / den in
    let r := num mod den in
    let m := if 2 * r <? den then m0
             else if den <? 2 * r then m0 + 1
             else if Z.even m0 then m0 else m0 + 1 in
    Qred (if 0 <=? e then inject_Z (Z.sgn n * m * 2 ^ e)
          else Qmake (Z.sgn n * m) (Z.to_pos (2 ^ (- e)))).

(** [a * b] *)
Definition times (a b : Q) : Q := double (a * b).

(** ** Paged documents (pdf-lib) *)

Record TextOptions := {
  opt_x : Q;
  opt_y : Q;
  opt_size : Q;
  opt_rotate : Q;       (* degrees *)
  opt_opacity : Q;
  opt_color : Q * Q * Q
}.

Inductive PageOp :=
| OpContent (raw : bytes)                       (* what the page already held *)
| OpText (txt : string) (opts : TextOptions).   (* a [drawText] *)

Record Page := {
  width : Q;
  height : Q;
  ops : list PageOp
}.

Abbreviation PDFDocument := (list Page).

Definition getSize (p : Page) : Q * Q := (width p, height p).

(** [addPage()] without a size: an empty page of [PageSizes.A4]. *)
Definition default_page : Page :=
  {| width := double 595.28; height := double 841.89; ops := [] |}.

(** The pages that [save()] writes: with the default [addDefaultPage], a
    document without pages gets one before it is written. *)
Definition saved_pages (pdfDoc : PDFDocument) : PDFDocument :=
  match pdfDoc with
  | [] => [default_page]
  | _ => pdfDoc
  end.

(** ** The clock

    [new Date().toISOString()] on an instant given in milliseconds since
    the epoch: [YYYY-MM-DDTHH:mm:ss.sssZ] for the years 0000 to 9999, and
    a sign and six year digits for the other years of a [Date] (from
    -271821 to 275760). *)

Definition digit (n : Z) : ascii := ascii_of_N (48 + Z.to_N (n mod 10)).

Definition is_digit (c : ascii) : bool :=
  let n := N_of_ascii c in ((48 <=? n) && (n <=? 57))%N.

Definition pad2 (n : Z) : string := String (digit (n / 10)) (String (digit n) "").
Definition pad3 (n : Z) : string := String (digit (n / 100)) (pad2 n).
Definition pad4 (n : Z) : string := String (digit (n / 1000)) (pad3 n).
Definition pad6 (n : Z) : string :=
  String (digit (n / 100000)) (String (digit (n / 10000)) (pad4 n)).

Definition iso_year (yr : Z) : string :=
  if (0 <=? yr) && (yr <=? 9999) then pad4 yr
  else String (if yr <? 0 then "-"%char else "+"%char) (pad6 (Z.abs yr)).

(** Year, month and day of a day number counted from 1970-01-01, in the
    proleptic Gregorian calendar. *)
Definition civil_from_days (days : Z) : Z * Z * Z :=
  let z := days + 719468 in
  let era := z / 146097 in
  let doe := z mod 146097 in
  let yoe := (doe - doe / 1460 + doe / 36524 - doe / 146096) / 365 in
  let doy := doe - (365 * yoe + yoe / 4 - yoe / 100) in
  let mp := (5 * doy + 2) / 153 in
  let d := doy - (153 * mp + 2) / 5 + 1 in
  let m := if mp <? 10 then mp + 3 else mp - 9 in
  let yr := yoe + era * 400 + (if m <=? 2 then 1 else 0) in
  (yr, m, d).

Definition toISOString (ms : Z) : string :=
  let '(yr, m, d) := civil_from_days (ms / 86400000) in
  let t := ms mod 86400000 in
  iso_year yr ++ "-" ++ pad2 m ++ "-" ++ pad2 d ++ "T" ++
  pad2 (t / 3600000) ++ ":" ++ pad2 (t / 60000 mod 60) ++ ":" ++
  pad2 (t / 1000 mod 60) ++ "." ++ pad3 (t mod 1000) ++ "Z".

(** ** The collaborators during one request *)

Record World := {
  (** [new Date()] when the session is looked up *)
  clock_validate : Z;
  (** the select comes back with an error *)
  select_error : bool;
  (** [storage.from('documents').download(path)]: [None] when it reports
      an error or no data *)
  download : string -> option bytes;
  (** the update comes back with an error, nothing written *)
  update_error : bool;
  (** the insert comes back with an error, nothing written *)
  insert_error : bool;
  (** [Deno.env.get] *)
  SVG_TO_PDF_URL : option string;
  PDF_ENHANCE_URL : option string;
  PDF_ENHANCE_API_KEY : option string;
  PDF_ENHANCE_AUTH_HEADER_NAME : option string;
  (** the conversion delegate, from the URL and the posted SVG text *)
  svg_fetch : string -> string -> FetchResult;
  (** the enhancement delegate, from the URL, the headers and the body *)
  enhance_fetch : string -> gmap string string -> bytes -> FetchResult;
  (** [PDFDocument.load]: [None] when it throws *)
  pdf_load : bytes -> option PDFDocument;
  (** whether the default font of [drawText] encodes the text; it throws
      when it does not *)
  pdf_encodes : string -> bool;
  (** the bytes that [pdfDoc.save()] writes for a document of these
      pages *)
  pdf_save : PDFDocument -> bytes;
  (** [new Date()] when the watermark text is built *)
  clock_watermark : Z
}.

(** The calls that leave the process, in the order they are made. *)
Inductive Event :=
| EvSelect (token : string) (now : Z)
| EvDownload (path : string)
| EvUpdate (id : string) (n : Z)
| EvInsert (entry : PrintLog)
| EvConvert (url : string) (svgText : string)
| EvEnhance (url : string) (hdrs : gmap string string) (payload : bytes)
| EvLoad (buffer : bytes)
| EvWatermark (watermarkText footer : string)
| EvDeliver (st : Z).

(** ** The handler of [secure-print]

    The handler awaits the database three times (select, update, insert).
    Between two awaits other requests may run, so the handler is cut at
    these points: a request in flight is a [Thread], and [step] runs it to
    its next await.  [secure_print] runs one request from start to end. *)

Definition internal_error : Response :=
  error_response 500 "Internal server error".

Definition preflight_response : Response :=
  {| status := 200; headers := corsHeaders; body := BodyNull |}.

(** The locals of the handler that are live after validation. *)
Record Locals := {
  l_session_token : string;
  l_userAgent : string;
  l_ipAddress : string;
  l_access_id : string;
  l_access : AccessRow;
  l_document : DocumentRow
}.

Inductive Thread :=
| Received (req : Request)
| Validated (l : Locals)
| Fetched (l : Locals) (fileData : bytes)
| Consumed (l : Locals) (fileData : bytes) (newRemainingPrints : Z)
| Logged (l : Locals) (fileData : bytes) (newRemainingPrints : Z)
| Responded (r : Response).

(** Lines 19-77: preflight, body, session lookup, print limit, document. *)
Definition validate (w : World) (req : Request) (db : Database) : Thread * list Event :=
  if String.eqb (method req) "OPTIONS" then (Responded preflight_response, [])
  else
    match json_session_token req with
    | None => (Responded internal_error, [])
    | Some tok =>
        let userAgent := or_else (hdr_user_agent req) "unknown" in
        let ipAddress :=
          or_else (hdr_x_forwarded_for req)
                  (or_else (hdr_cf_connecting_ip req) "unknown") in
        if falsy tok then (Responded (error_response 400 "Session token required"), [])
        else
          let token := nullish tok "" in
          let now := clock_validate w in
          let result :=
            if select_error w then QueryError
            else maybeSingle (select_access db token now) in
          match result with
          | QueryData (Some (id, access)) =>
              if remaining_prints access <=? 0 then
                (Responded (json_response 403
                   [("error", JString "Print limit exceeded");
                    ("remaining_prints", JNumber 0)]),
                 [EvSelect token now])
              else
                match documents access with
                | None =>
                    (Responded (error_response 404 "Document not found"),
                     [EvSelect token now])
                | Some document =>
                    (Validated {| l_session_token := token;
                                  l_userAgent := userAgent;
                                  l_ipAddress := ipAddress;
                                  l_access_id := id;
                                  l_access := access;
                                  l_document := document |},
                     [EvSelect token now])
                end
          | _ =>
              (Responded (error_response 403 "Invalid or expired session"),
               [EvSelect token now])
          end
    end.

(** Lines 79-90: the original file from private storage. *)
Definition fetch_source (w : World) (l : Locals) : Thread * list Event :=
  let path := storage_path (l_document l) in
  match download w path with
  | None => (Responded (error_response 500 "Failed to retrieve document"), [EvDownload path])
  | Some fileData => (Fetched l fileData, [EvDownload path])
  end.

(** Lines 92-105: the print count is written back, one lower than it was
    read by the select. *)
Definition decrement (w : World) (l : Locals) (fileData : bytes) (db : Database)
  : Thread * Database * list Event :=
  let newRemainingPrints := remaining_prints (l_access l) - 1 in
  if update_error w then
    (Responded (error_response 500 "Failed to process print request"), db,
     [EvUpdate (l_access_id l) newRemainingPrints])
  else
    (Consumed l fileData newRemainingPrints,
     update_remaining_prints (l_access_id l) newRemainingPrints db,
     [EvUpdate (l_access_id l) newRemainingPrints]).

(** Lines 107-121: the print is logged; a failure does not fail the request. *)
Definition print_log_entry (l : Locals) : PrintLog :=
  {| log_document_id := doc_id (l_document l);
     log_user_id := user_id (l_access l);
     log_session_token := l_session_token l;
     log_ip_address := l_ipAddress l;
     log_user_agent := l_userAgent l |}.

Definition log_print (w : World) (l : Locals) (db : Database) : Database * list Event :=
  let entry := print_log_entry l in
  (if insert_error w then db else insert_print_log entry db, [EvInsert entry]).

(** Lines 125-161: an SVG original is converted by the delegate; a PDF
    original is taken as it is.  [inl] is an early return. *)
Definition default_svg_to_pdf_url : string :=
  "https://srveddfqmiwqetltbpln.supabase.co/functions/v1/svg-to-pdf".

Definition isSvg (document : DocumentRow) : bool :=
  endsWith (toLowerCase (storage_path document)) ".svg".

Definition normalize (w : World) (document : DocumentRow) (fileData : bytes)
  : (Response + bytes) * list Event :=
  if isSvg document then
    let svgToPdfUrl := nullish (SVG_TO_PDF_URL w) default_svg_to_pdf_url in
    let svgText := text fileData in
    (match svg_fetch w svgToPdfUrl svgText with
     | FetchThrows => inl internal_error
     | FetchResponse st arrayBuffer =>
         if negb (ok st) then
           inl (error_response 500 "Failed to convert SVG document for printing")
         else
           match arrayBuffer with
           | None => inl internal_error
           | Some converted => inr converted
           end
     end, [EvConvert svgToPdfUrl svgText])
  else (inr fileData, []).

(** Lines 163-200: the optional enhancement, inside its own try/catch. *)
Definition enhance_headers (w : World) : gmap string string :=
  let enhanceAuthHeaderName := or_else (PDF_ENHANCE_AUTH_HEADER_NAME w) "Authorization" in
  let headers : gmap string string := {[ "Content-Type" := "application/pdf" ]} in
  if falsy (PDF_ENHANCE_API_KEY w) then headers
  else <[enhanceAuthHeaderName := nullish (PDF_ENHANCE_API_KEY w) ""]> headers.

Definition enhance (w : World) (originalPdfBuffer : bytes) : bytes * list Event :=
  if falsy (PDF_ENHANCE_URL w) then (originalPdfBuffer, [])
  else
    let enhanceUrl := nullish (PDF_ENHANCE_URL w) "" in
    let headers := enhance_headers w in
    (match enhance_fetch w enhanceUrl headers originalPdfBuffer with
     | FetchThrows => originalPdfBuffer
     | FetchResponse st arrayBuffer =>
         if ok st then
           match arrayBuffer with
           | None => originalPdfBuffer
           | Some enhancedBuffer =>
               if (0 <? length enhancedBuffer)%nat then enhancedBuffer
               else originalPdfBuffer
           end
         else originalPdfBuffer
     end, [EvEnhance enhanceUrl headers originalPdfBuffer]).

(** Lines 205-231: the two lines of vector text on every page. *)
Definition drawText (w : World) (txt : string) (opts : TextOptions) (page : Page)
  : option Page :=
  if pdf_encodes w txt then
    Some {| width := width page; height := height page;
            ops := ops page ++ [OpText txt opts] |}
  else None.

Definition watermarkText_of (w : World) (l : Locals) : string :=
  let baseWatermarkText := or_else (watermark_text (l_access l)) "Licensed Print" in
  baseWatermarkText ++ " - " ++ toISOString (clock_watermark w) ++ " - ID: "
    ++ l_session_token l.

Definition footerText_of (l : Locals) (newRemainingPrints : Z) : string :=
  "Secure Print | Session: " ++ l_session_token l ++ " | Remaining: "
    ++ toString newRemainingPrints.

Definition diagonal_options (page : Page) : TextOptions :=
  let '(width, height) := getSize page in
  {| opt_x := times width (double 0.15);
     opt_y := times height 0.5;
     opt_size := 18;
     opt_rotate := -30;
     opt_opacity := 0.25;
     opt_color := (0.5, 0.5, 0.5) |}%Q.

Definition footer_options (page : Page) : TextOptions :=
  let '(width, height) := getSize page in
  {| opt_x := times width (double 0.1);
     opt_y := 24;
     opt_size := 10;
     opt_rotate := 0;
     opt_opacity := double 0.7;
     opt_color := (double 0.4, double 0.4, double 0.4) |}%Q.

Definition watermark_page (w : World) (watermarkText footer : string) (page : Page)
  : option Page :=
  page' ← drawText w watermarkText (diagonal_options page) page;
  drawText w footer (footer_options page) page'.

Definition watermark (w : World) (watermarkText footer : string) (pdfDoc : PDFDocument)
  : option PDFDocument :=
  mapM (watermark_page w watermarkText footer) pdfDoc.

(** Lines 236-248. *)
Definition pdf_response (watermarkedPdfBytes : bytes) (newRemainingPrints : Z) : Response :=
  {| status := 200;
     headers :=
       <["X-Remaining-Prints" := toString newRemainingPrints]>
       (<["X-Content-Type-Options" := "nosniff"]>
       (<["X-Download-Options" := "noopen"]>
       (<["Expires" := "0"]>
       (<["Pragma" := "no-cache"]>
       (<["Cache-Control" := "no-store, no-cache, must-revalidate, private"]>
       (<["Content-Disposition" := "inline"]>
       (<["Content-Type" := "application/pdf"]> corsHeaders)))))));
     body := BodyBytes watermarkedPdfBytes |}.

(** Lines 202-248: load, stamp, save, deliver.  A throw of pdf-lib lands in
    the outer catch.  The pages that go out are [saved_pages] of the
    stamped document. *)
Definition stamp_and_deliver (w : World) (l : Locals) (newRemainingPrints : Z)
    (originalPdfBuffer : bytes) : Response * list Event :=
  match pdf_load w originalPdfBuffer with
  | None => (internal_error, [EvLoad originalPdfBuffer])
  | Some pdfDoc =>
      let watermarkText := watermarkText_of w l in
      let footer := footerText_of l newRemainingPrints in
      match watermark w watermarkText footer pdfDoc with
      | None =>
          (internal_error,
           [EvLoad originalPdfBuffer; EvWatermark watermarkText footer])
      | Some stamped =>
          (pdf_response (pdf_save w (saved_pages stamped)) newRemainingPrints,
           [EvLoad originalPdfBuffer; EvWatermark watermarkText footer;
            EvDeliver 200])
      end
  end.

(** Lines 125-248. *)
Definition render (w : World) (l : Locals) (fileData : bytes) (newRemainingPrints : Z)
  : Response * list Event :=
  let '(normalized, ev1) := normalize w (l_document l) fileData in
  match normalized with
  | inl r => (r, ev1)
  | inr originalPdfBuffer =>
      let '(enhanced, ev2) := enhance w originalPdfBuffer in
      let '(r, ev3) := stamp_and_deliver w l newRemainingPrints enhanced in
      (r, ev1 ++ ev2 ++ ev3)
  end.

(** One request up to its next await. *)
Definition step (w : World) (t : Thread) (db : Database)
  : Thread * Database * list Event :=
  match t with
  | Received req => let '(t', ev) := validate w req db in (t', db, ev)
  | Validated l => let '(t', ev) := fetch_source w l in (t', db, ev)
  | Fetched l fileData => decrement w l fileData db
  | Consumed l fileData n =>
      let '(db', ev) := log_print w l db in (Logged l fileData n, db', ev)
  | Logged l fileData n =>
      let '(r, ev) := render w l fileData n in (Responded r, db, ev)
  | Responded r => (Responded r, db, [])
  end.

Fixpoint run (fuel : nat) (w : World) (t : Thread) (db : Database)
  : Thread * Database * list Event :=
  match fuel with
  | O => (t, db, [])
  | S fuel' =>
      let '(t', db', ev) := step w t db in
      let '(t'', db'', ev') := run fuel' w t' db' in
      (t'', db'', ev ++ ev')
  end.

(** The handler on one request, alone on the database: five steps take
    every request to its response. *)
Definition secure_print (w : World) (req : Request) (db : Database)
  : Thread * Database * list Event :=
  run 5 w (Received req) db.

(** ** The handler of [secure-render]

    The endpoint of the viewer: the same preflight, body and session
    lookup as [secure-print]; no print limit, no write to the database; the
    stored file goes out as it is. *)

(** Lines 333-344: the secure headers, without [X-Remaining-Prints]. *)
Definition view_response (pdfBuffer : bytes) : Response :=
  {| status := 200;
     headers :=
       <["X-Content-Type-Options" := "nosniff"]>
       (<["X-Download-Options" := "noopen"]>
       (<["Expires" := "0"]>
       (<["Pragma" := "no-cache"]>
       (<["Cache-Control" := "no-store, no-cache, must-revalidate, private"]>
       (<["Content-Disposition" := "inline"]>
       (<["Content-Type" := "application/pdf"]> corsHeaders))))));
     body := BodyBytes pdfBuffer |}.

(** Lines 266-353. *)
Definition secure_render (w : World) (req : Request) (db : Database)
  : Response * list Event :=
  if String.eqb (method req) "OPTIONS" then (preflight_response, [])
  else
    match json_session_token req with
    | None => (internal_error, [])
    | Some tok =>
        if falsy tok then (error_response 400 "Session token required", [])
        else
          let token := nullish tok "" in
          let now := clock_validate w in
          let result :=
            if select_error w then QueryError
            else maybeSingle (select_access db token now) in
          match result with
          | QueryData (Some (id, access)) =>
              match documents access with
              | None =>
                  (error_response 404 "Document not found", [EvSelect token now])
              | Some document =>
                  let path := storage_path document in
                  match download w path with
                  | None =>
                      (error_response 500 "Failed to retrieve document",
                       [EvSelect token now; EvDownload path])
                  | Some fileData =>
                      (view_response fileData,
                       [EvSelect token now; EvDownload path; EvDeliver 200])
                  end
              end
          | _ =>
              (error_response 403 "Invalid or expired session",
               [EvSelect token now])
          end
    end.

(** ** Requests in flight together

    Several requests share the database.  A schedule names, step by step,
    the request that runs to its next await. *)

Definition response_of (t : Thread) : option Response :=
  match t with
  | Responded r => Some r
  | _ => None
  end.

Definition advance (i : nat) (pool : list (World * Thread)) (db : Database)
  : list (World * Thread) * Database :=
  match pool !! i with
  | Some (w, t) =>
      let '(t', db', _) := step w t db in (<[i := (w, t')]> pool, db')
  | None => (pool, db)
  end.

Fixpoint interleave (schedule : list nat) (pool : list (World * Thread))
    (db : Database) : list (World * Thread) * Database :=
  match schedule with
  | [] => (pool, db)
  | i :: schedule' =>
      let '(pool', db') := advance i pool db in interleave schedule' pool' db'
  end.

(** Every request in turn runs to its next await, five times over. *)
Definition lockstep (n : nat) : list nat :=
  seq 0 n ++ seq 0 n ++ seq 0 n ++ seq 0 n ++ seq 0 n.

(** The responses of the requests that have ended. *)
Definition responses (pool : list (World * Thread)) : list (option Response) :=
  (fun p => response_of p.2) <$> pool.

Definition is_delivery (r : option Response) : bool :=
  match r with
  | Some {| status := 200; body := BodyBytes _ |} => true
  | _ => false
  end.

Definition remaining_of (db : Database) (id : string) : option Z :=
  remaining_prints <$> document_access db !! id.

(** * The SVG-to-PDF service

    Strings are sequences of code units below 256. *)

Definition dquote : ascii := "034"%char.

(** [\s], and the characters removed by [trim()]. *)
Definition is_space (c : ascii) : bool :=
  let n := N_of_ascii c in
  ((n =? 9) || (n =? 10) || (n =? 11) || (n =? 12) || (n =? 13) || (n =? 32)
   || (n =? 160))%N.

Fixpoint skip_spaces (s : string) : string :=
  match s with
  | String c s' => if is_space c then skip_spaces s' else s
  | EmptyString => EmptyString
  end.

(** A literal under the [i] flag, at the start of [s]: what follows it. *)
Fixpoint literal_ci (lit s : string) : option string :=
  match lit, s with
  | EmptyString, _ => Some s
  | String a lit', String b s' =>
      if Ascii.eqb (lower_ascii a) (lower_ascii b) then literal_ci lit' s' else None
  | String _ _, EmptyString => None
  end.

(** The characters up to the next double quote, and what follows it. *)
Fixpoint until_quote (s : string) : option (string * string) :=
  match s with
  | EmptyString => None
  | String c s' =>
      if Ascii.eqb c dquote then Some (EmptyString, s')
      else
        match until_quote s' with
        | Some (run, rest) => Some (String c run, rest)
        | None => None
        end
  end.

(** The pattern of [svgText.match]: [viewBox] in any case, spaces, [=],
    spaces, a double quote, one or more characters other than a double
    quote (the group), a double quote.  Here anchored at the start of [s]. *)
Definition match_viewBox_here (s : string) : option string :=
  match literal_ci "viewBox" s with
  | None => None
  | Some s1 =>
      match skip_spaces s1 with
      | String "="%char s2 =>
          match skip_spaces s2 with
          | String c s3 =>
              if Ascii.eqb c dquote then
                match until_quote s3 with
                | Some (String c' run, _) => Some (String c' run)
                | _ => None
                end
              else None
          | EmptyString => None
          end
      | _ => None
      end
  end.

(** The group of the leftmost match. *)
Fixpoint match_viewBox (s : string) : option string :=
  match match_viewBox_here s with
  | Some group => Some group
  | None =>
      match s with
      | EmptyString => None
      | String _ s' => match_viewBox s'
      end
  end.

Definition string_rev (s : string) : string :=
  string_of_list_ascii (rev (list_ascii_of_string s)).

(** [s.trim()] *)
Definition trim (s : string) : string :=
  string_rev (skip_spaces (string_rev (skip_spaces s))).

(** [s.split(/\s+/)]; [in_separator] is set while a run of spaces is being
    passed. *)
Fixpoint split_spaces (in_separator : bool) (s : string) : list string :=
  match s with
  | EmptyString => [EmptyString]
  | String c s' =>
      if is_space c then
        if in_separator then split_spaces true s'
        else EmptyString :: split_spaces true s'
      else
        match split_spaces false s' with
        | piece :: pieces => String c piece :: pieces
        | [] => [String c EmptyString]
        end
  end.

Inductive PageSize (number : Type) :=
| A4
| Custom (width height : number).
Arguments A4 {number}.
Arguments Custom {number} width height.

Section PageSizePolicy.

(** JavaScript numbers, as far as the function looks at them. *)
Variable number : Type.
(** [Number(v)] *)
Variable Number : string -> number.
(** [Number.isFinite(v)] *)
Variable isFinite : number -> bool.
(** [v <= 0] *)
Variable nonpositive : number -> bool.

Definition getPageSizeFromViewBox (svgText : string) : option (number * number) :=
  match match_viewBox svgText with
  | None => None
  | Some group =>
      let parts := Number <$> split_spaces false (trim group) in
      if negb (length parts =? 4)%nat || existsb (fun v => negb (isFinite v)) parts
      then None
      else
        match parts with
        | [_; _; width; height] =>
            if nonpositive width || nonpositive height then None
            else Some (width, height)
        | _ => None
        end
  end.

(** [getPageSizeFromViewBox(svgText) || 'A4'], handed to [addPage]. *)
Definition pageSize (svgText : string) : PageSize number :=
  match getPageSizeFromViewBox svgText with
  | Some (width, height) => Custom width height
  | None => A4
  end.

(** The policy in the words of the specification: the declared width
    and height when the viewport is declared and both dimensions are
    positive finite numbers, otherwise the default. *)
Definition declared_size_policy (svgText : string) : PageSize number :=
  match match_viewBox svgText with
  | Some group =>
      match split_spaces false (trim group) with
      | [_; _; w; h] =>
          let width := Number w in
          let height := Number h in
          if isFinite width && isFinite height
             && negb (nonpositive width) && negb (nonpositive height)
          then Custom width height
          else A4
      | _ => A4
      end
  | None => A4
  end.

(** The same policy with the condition on all four values of the
    viewBox. *)
Definition four_values_policy (svgText : string) : PageSize number :=
  match match_viewBox svgText with
  | Some group =>
      match split_spaces false (trim group) with
      | [x; y; w; h] =>
          let width := Number w in
          let height := Number h in
          if isFinite (Number x) && isFinite (Number y)
             && isFinite width && isFinite height
             && negb (nonpositive width) && negb (nonpositive height)
          then Custom width height
          else A4
      | _ => A4
      end
  | None => A4
  end.

End PageSizePolicy.

Arguments getPageSizeFromViewBox {number}.
Arguments pageSize {number}.
Arguments declared_size_policy {number}.
Arguments four_values_policy {number}.

(** [Number] on the literals of the examples: decimal integers (as far as
    JavaScript holds them exactly), with or without sign, [Infinity] and
    the empty string; every other string is read as [NaN] here.  The
    theorems do not depend on this instance. *)
Inductive IntegerOrNot :=
| NaN
| Infinite (negative : bool)
| Finite (n : Z).

Fixpoint digits_value (acc : Z) (s : string) : option Z :=
  match s with
  | EmptyString => Some acc
  | String c s' =>
      if is_digit c then digits_value (10 * acc + Z.of_N (N_of_ascii c - 48)) s'
      else None
  end.

Definition unsigned_literal (s : string) : IntegerOrNot :=
  if String.eqb s "Infinity" then Infinite false
  else
    match s with
    | EmptyString => NaN
    | _ => match digits_value 0 s with Some n => Finite n | None => NaN end
    end.

Definition integer_Number (s : string) : IntegerOrNot :=
  match s with
  | EmptyString => Finite 0
  | String "-"%char s' =>
      match unsigned_literal s' with
      | Finite n => Finite (- n)
      | Infinite _ => Infinite true
      | NaN => NaN
      end
  | String "+"%char s' => unsigned_literal s'
  | _ => unsigned_literal s
  end.

Definition integer_isFinite (v : IntegerOrNot) : bool :=
  match v with Finite _ => true | _ => false end.

Definition integer_nonpositive (v : IntegerOrNot) : bool :=
  match v with
  | Finite n => n <=? 0
  | Infinite negative => negative
  | NaN => false
  end.

(** ** The text around the attribute *)

Fixpoint all_chars (P : ascii -> bool) (s : string) : bool :=
  match s with
  | EmptyString => true
  | String c s' => P c && all_chars P s'
  end.

(** A run of spaces, possibly empty. *)
Definition is_spaces (s : string) : bool := all_chars is_space s.

(** A value as it is written in the attribute: at least one character,
    none of them a space or a double quote. *)
Definition is_token (s : string) : bool :=
  negb (String.eqb s "")
  && all_chars (fun c => negb (is_space c) && negb (Ascii.eqb c dquote)) s.

(** A run of spaces that is not empty. *)
Definition is_separator (s : string) : bool :=
  is_spaces s && negb (String.eqb s "").

(** The attribute as it stands in the text: [viewBox], spaces, [=],
    spaces, and the value between double quotes. *)
Definition viewBox_attribute (sp_a sp_b value : string) : string :=
  "viewBox" ++ sp_a ++ "=" ++ sp_b ++ String dquote (value ++ String dquote "").

(** The literal occurs somewhere in [s], in any case. *)
Fixpoint occurs_ci (lit s : string) : bool :=
  match literal_ci lit s with
  | Some _ => true
  | None =>
      match s with
      | EmptyString => false
      | String _ s' => occurs_ci lit s'
      end
  end.

Definition starts_nonspace (s : string) : bool :=
  match s with
  | String c _ => negb (is_space c)
  | EmptyString => false
  end.

(** The attribute with its name as the text writes it, in any letter
    case. *)
Definition named_attribute (name sp_a sp_b value : string) : string :=
  name ++ sp_a ++ "=" ++ sp_b ++ String dquote (value ++ String dquote "").

(** A value that [split] hands to [Number]: not empty and without white
    space. *)
Definition is_value (s : string) : bool :=
  negb (String.eqb s "") && all_chars (fun c => negb (is_space c)) s.

(** ** The endpoint [/svg-to-pdf]

    What the endpoint sends: a text with a status, or the document that
    PDFKit was given, one entry for every [addPage] with the size of the
    page and the SVG text drawn on it. *)

Inductive ServiceResponse (number : Type) :=
| Sent (status : Z) (message : string)
| SentPdf (pages : list (PageSize number * string)).
Arguments Sent {number} status message.
Arguments SentPdf {number} pages.

Section ConversionService.

Variable number : Type.
Variable Number : string -> number.
Variable isFinite : number -> bool.
Variable nonpositive : number -> bool.
(** [SVGtoPDF] throws on the text *)
Variable SVGtoPDF_throws : string -> bool.

(** Lines 29-62; [file] is [req.file.buffer], [None] without an upload. *)
Definition svg_to_pdf (file : option bytes) : ServiceResponse number :=
  match file with
  | None => Sent 400 "Missing SVG file"
  | Some buffer =>
      let svgText := text buffer in
      let pageSize := pageSize Number isFinite nonpositive svgText in
      if SVGtoPDF_throws svgText then Sent 500 "Conversion failed"
      else SentPdf [(pageSize, svgText)]
  end.

End ConversionService.

(** * Vocabulary of the properties *)

(** A delivery: status 200 with the document bytes as body. *)
Definition delivers (r : Response) (b : bytes) : Prop :=
  status r = 200 /\ body r = BodyBytes b.

(** The request is a POST-like call that carries the token. *)
Definition carries (req : Request) (token : string) : Prop :=
  String.eqb (method req) "OPTIONS" = false /\
  json_session_token req = Some (Some token) /\
  token <> "".

Definition invalid_session : Response :=
  error_response 403 "Invalid or expired session".

Definition print_limit_exceeded : Response :=
  json_response 403
    [("error", JString "Print limit exceeded"); ("remaining_prints", JNumber 0)].

(** No other row of the table carries the token. *)
Definition token_unique (db : Database) (token id : string) : Prop :=
  map_Forall (fun id' a' => session_token a' = token -> id' = id) (document_access db).

#[global] Instance token_unique_dec db token id : Decision (token_unique db token id).
Proof. unfold token_unique. apply _. Defined.

(** The delegate call failed: it threw, answered with a status outside
    200-299, its body could not be read, or its body was empty. *)
Definition enhancement_failed (res : FetchResult) : Prop :=
  match res with
  | FetchThrows => True
  | FetchResponse st arrayBuffer =>
      ok st = false \/ arrayBuffer = None \/ arrayBuffer = Some []
  end.

Definition enhancement_fails (w : World) : Prop :=
  forall url hdrs payload, enhancement_failed (enhance_fetch w url hdrs payload).

(** The same collaborators with [PDF_ENHANCE_URL] unset. *)
Definition without_enhancement (w : World) : World :=
  {| clock_validate := clock_validate w;
     select_error := select_error w;
     download := download w;
     update_error := update_error w;
     insert_error := insert_error w;
     SVG_TO_PDF_URL := SVG_TO_PDF_URL w;
     PDF_ENHANCE_URL := None;
     PDF_ENHANCE_API_KEY := PDF_ENHANCE_API_KEY w;
     PDF_ENHANCE_AUTH_HEADER_NAME := PDF_ENHANCE_AUTH_HEADER_NAME w;
     svg_fetch := svg_fetch w;
     enhance_fetch := enhance_fetch w;
     pdf_load := pdf_load w;
     pdf_encodes := pdf_encodes w;
     pdf_save := pdf_save w;
     clock_watermark := clock_watermark w |}.

Inductive Stage :=
| AccessValidation
| QuotaDecrement
| SourceFetch
| Normalization
| Enhancement
| Watermarking
| AuditLogging
| Delivery.

Definition stage_of (e : Event) : Stage :=
  match e with
  | EvSelect _ _ => AccessValidation
  | EvDownload _ => SourceFetch
  | EvUpdate _ _ => QuotaDecrement
  | EvInsert _ => AuditLogging
  | EvConvert _ _ => Normalization
  | EvEnhance _ _ _ => Enhancement
  | EvLoad _ => Watermarking
  | EvWatermark _ _ => Watermarking
  | EvDeliver _ => Delivery
  end.

(** The order in which the handler goes through the stages. *)
Definition handler_position (s : Stage) : nat :=
  match s with
  | AccessValidation => 0
  | SourceFetch => 1
  | QuotaDecrement => 2
  | AuditLogging => 3
  | Normalization => 4
  | Enhancement => 5
  | Watermarking => 6
  | Delivery => 7
  end.

(** The order validation, decrement, fetch, normalization, enhancement,
    watermarking, audit logging, delivery. *)
Definition decrement_first_position (s : Stage) : nat :=
  match s with
  | AccessValidation => 0
  | QuotaDecrement => 1
  | SourceFetch => 2
  | Normalization => 3
  | Enhancement => 4
  | Watermarking => 5
  | AuditLogging => 6
  | Delivery => 7
  end.

Fixpoint nondecreasing (l : list nat) : bool :=
  match l with
  | a :: (b :: _) as rest => (a <=? b)%nat && nondecreasing rest
  | _ => true
  end.

(** The calls of a trace go through the stages in the order [position]. *)
Definition in_order (position : Stage -> nat) (tr : list Event) : Prop :=
  nondecreasing ((fun e => position (stage_of e)) <$> tr) = true.

(** The shape [dddd-dd-ddTdd:dd:dd.dddZ]: 24 characters, digits and
    separators at fixed places. *)
Definition iso_format (s : string) : bool :=
  match list_ascii_of_string s with
  | [y1; y2; y3; y4; sep1; m1; m2; sep2; d1; d2; sep3; h1; h2; sep4; n1; n2;
     sep5; s1; s2; sep6; f1; f2; f3; sep7] =>
      forallb is_digit [y1; y2; y3; y4; m1; m2; d1; d2; h1; h2; n1; n2; s1; s2;
                        f1; f2; f3]
      && String.eqb (string_of_list_ascii [sep1; sep2; sep3; sep4; sep5; sep6; sep7])
                    "--T::.Z"
  | _ => false
  end.

(** The four ways in which [secure_print] ends: rejected by validation,
    source not retrieved, update failed, or counted, logged and rendered. *)
Inductive Outcome (w : World) (req : Request) (db : Database)
  : Thread * Database * list Event -> Prop :=
| Rejected r ev :
    validate w req db = (Responded r, ev) ->
    Outcome w req db (Responded r, db, ev)
| Unavailable l ev :
    validate w req db = (Validated l, ev) ->
    download w (storage_path (l_document l)) = None ->
    Outcome w req db
      (Responded (error_response 500 "Failed to retrieve document"), db,
       ev ++ [EvDownload (storage_path (l_document l))])
| UpdateFailed l ev fileData :
    validate w req db = (Validated l, ev) ->
    download w (storage_path (l_document l)) = Some fileData ->
    update_error w = true ->
    Outcome w req db
      (Responded (error_response 500 "Failed to process print request"), db,
       ev ++ [EvDownload (storage_path (l_document l));
              EvUpdate (l_access_id l) (remaining_prints (l_access l) - 1)])
| Rendered l ev fileData r ev' :
    validate w req db = (Validated l, ev) ->
    download w (storage_path (l_document l)) = Some fileData ->
    update_error w = false ->
    render w l fileData (remaining_prints (l_access l) - 1) = (r, ev') ->
    Outcome w req db
      (Responded r,
       (log_print w l
          (update_remaining_prints (l_access_id l)
             (remaining_prints (l_access l) - 1) db)).1,
       ev ++ [EvDownload (storage_path (l_document l));
              EvUpdate (l_access_id l) (remaining_prints (l_access l) - 1);
              EvInsert (print_log_entry l)] ++ ev').

(** ** Vocabulary of the other paths of the handlers *)

(** What every response of the two handlers has: the CORS headers, one of
    five statuses, and a body that goes with the status. *)
Definition well_formed (req : Request) (r : Response) : Prop :=
  corsHeaders ⊆ headers r /\
  (status r = 200 \/ status r = 400 \/ status r = 403 \/ status r = 404 \/
   status r = 500) /\
  match body r with
  | BodyNull => status r = 200 /\ method req = "OPTIONS"
  | BodyJson j =>
      status r <> 200 /\
      headers r !! "Content-Type" = Some "application/json" /\
      exists msg, j !! 0%nat = Some ("error", JString msg)
  | BodyBytes _ =>
      status r = 200 /\ headers r !! "Content-Type" = Some "application/pdf"
  end.

(** The select of the request comes back without error and finds the
    grant [id], which carries the token and has not expired; no other row
    carries the token. *)
Definition grants (w : World) (db : Database) (token id : string) (a : AccessRow)
  : Prop :=
  select_error w = false /\
  document_access db !! id = Some a /\
  session_token a = token /\
  clock_validate w < expires_at a /\
  token_unique db token id.

(** The same collaborators with the answer of the insert into
    [print_logs] set. *)
Definition with_insert_error (b : bool) (w : World) : World :=
  {| clock_validate := clock_validate w;
     select_error := select_error w;
     download := download w;
     update_error := update_error w;
     insert_error := b;
     SVG_TO_PDF_URL := SVG_TO_PDF_URL w;
     PDF_ENHANCE_URL := PDF_ENHANCE_URL w;
     PDF_ENHANCE_API_KEY := PDF_ENHANCE_API_KEY w;
     PDF_ENHANCE_AUTH_HEADER_NAME := PDF_ENHANCE_AUTH_HEADER_NAME w;
     svg_fetch := svg_fetch w;
     enhance_fetch := enhance_fetch w;
     pdf_load := pdf_load w;
     pdf_encodes := pdf_encodes w;
     pdf_save := pdf_save w;
     clock_watermark := clock_watermark w |}.

(** Requests served one after the other, each to its response before the
    next one starts. *)
Fixpoint in_sequence (calls : list (World * Request)) (db : Database)
  : list (Thread * list Event) * Database :=
  match calls with
  | [] => ([], db)
  | (w, req) :: calls' =>
      let '(t, db', tr) := secure_print w req db in
      let '(rest, db'') := in_sequence calls' db' in
      ((t, tr) :: rest, db'')
  end.

(** The schedule that runs every request of a pool to its response before
    the next one starts. *)
Definition one_by_one (n : nat) : list nat := flat_map (replicate 5) (seq 0 n).

(** The trace holds an update of the grant [id]. *)
Definition updates (id : string) (tr : list Event) : bool :=
  existsb (fun e => match e with
                    | EvUpdate i _ => String.eqb i id
                    | _ => false
                    end) tr.

(** The number of documents delivered on the grant [id]. *)
Definition prints_of (id : string) (results : list (Thread * list Event)) : nat :=
  sum_list_with
    (fun res => if is_delivery (response_of res.1) && updates id res.2
                then 1%nat else 0%nat)
    results.

(** The table [document_access] with every count forgotten: two databases
    with the same erasure hold the same grants and differ at most in their
    [remaining_prints]. *)
Definition erase_counts (db : Database) : gmap string AccessRow :=
  set_remaining_prints 0 <$> document_access db.

(** ** Order of dates and of their strings *)

(** Lexicographic order on year, month, day. *)
Definition date_lt (a b : Z * Z * Z) : Prop :=
  let '(y1, m1, d1) := a in
  let '(y2, m2, d2) := b in
  y1 < y2 \/ (y1 = y2 /\ (m1 < m2 \/ (m1 = m2 /\ d1 < d2))).

Definition date_ltb (a b : Z * Z * Z) : bool :=
  let '(y1, m1, d1) := a in
  let '(y2, m2, d2) := b in
  (y1 <? y2) || ((y1 =? y2) && ((m1 <? m2) || ((m1 =? m2) && (d1 <? d2)))).

(** The date inside a 400-year era, from the day of the era. *)
Definition civil_from_doe (doe : Z) : Z * Z * Z :=
  let yoe := (doe - doe / 1460 + doe / 36524 - doe / 146096) / 365 in
  let doy := doe - (365 * yoe + yoe / 4 - yoe / 100) in
  let mp := (5 * doy + 2) / 153 in
  let d := doy - (153 * mp + 2) / 5 + 1 in
  let m := if mp <? 10 then mp + 3 else mp - 9 in
  (yoe + (if m <=? 2 then 1 else 0), m, d).

Definition date_in_era (a : Z * Z * Z) : bool :=
  let '(y, m, d) := a in
  negb (date_ltb a (0, 3, 1)) && negb (date_ltb (400, 2, 29) a)
  && (1 <=? m) && (m <=? 12) && (1 <=? d) && (d <=? 31).

(** Day by day from [i] on: each date is after the one before and lies in
    the era. *)
Fixpoint era_ok (prev : Z * Z * Z) (i : Z) (n : nat) : bool :=
  match n with
  | O => true
  | S k =>
      let cur := civil_from_doe i in
      date_ltb prev cur && date_in_era cur && era_ok cur (i + 1) k
  end.

(** 0000-01-01T00:00:00.000Z and 9999-12-31T23:59:59.999Z. *)
Definition iso_first : Z := -62167219200000.

Definition iso_last : Z := 253402300799999.

(** ** A concrete scenario *)

Module Scenario.

Definition pdf_bytes : bytes := list_byte_of_string "%PDF-1.7 original".
Definition stamped_bytes : bytes := list_byte_of_string "%PDF-1.7 stamped".

Definition page0 : Page :=
  {| width := 595; height := 842; ops := [OpContent pdf_bytes] |}%Q.

Definition doc0 : DocumentRow :=
  {| doc_id := "doc-1"; storage_path := "uploads/ticket.pdf" |}.

Definition grant (n : Z) : AccessRow :=
  {| session_token := "tok-abc";
     expires_at := 2000;
     remaining_prints := n;
     user_id := "user-7";
     watermark_text := Some "ACME";
     documents := Some doc0 |}.

Definition db (n : Z) : Database :=
  {| document_access := {[ "grant-1" := grant n ]}; print_logs := [] |}.

Definition world : World :=
  {| clock_validate := 1000;
     select_error := false;
     download := fun path =>
       if String.eqb path "uploads/ticket.pdf" then Some pdf_bytes else None;
     update_error := false;
     insert_error := false;
     SVG_TO_PDF_URL := None;
     PDF_ENHANCE_URL := None;
     PDF_ENHANCE_API_KEY := None;
     PDF_ENHANCE_AUTH_HEADER_NAME := None;
     svg_fetch := fun _ _ => FetchThrows;
     enhance_fetch := fun _ _ _ => FetchThrows;
     pdf_load := fun b => Some [page0];
     pdf_encodes := fun _ => true;
     pdf_save := fun _ => stamped_bytes;
     clock_watermark := 1500 |}.

(** The same collaborators, at the instant the grant expires. *)
Definition world_late : World :=
  {| clock_validate := 2000;
     select_error := false;
     download := download world;
     update_error := false;
     insert_error := false;
     SVG_TO_PDF_URL := None;
     PDF_ENHANCE_URL := None;
     PDF_ENHANCE_API_KEY := None;
     PDF_ENHANCE_AUTH_HEADER_NAME := None;
     svg_fetch := svg_fetch world;
     enhance_fetch := enhance_fetch world;
     pdf_load := pdf_load world;
     pdf_encodes := pdf_encodes world;
     pdf_save := pdf_save world;
     clock_watermark := 2500 |}.

(** The enhancement endpoint is configured and answers 503. *)
Definition world_enhance_down : World :=
  {| clock_validate := 1000;
     select_error := false;
     download := download world;
     update_error := false;
     insert_error := false;
     SVG_TO_PDF_URL := None;
     PDF_ENHANCE_URL := Some "https://enhance.example/v1";
     PDF_ENHANCE_API_KEY := Some "Bearer s3cr3t";
     PDF_ENHANCE_AUTH_HEADER_NAME := None;
     svg_fetch := svg_fetch world;
     enhance_fetch := fun _ _ _ => FetchResponse 503 (Some pdf_bytes);
     pdf_load := pdf_load world;
     pdf_encodes := pdf_encodes world;
     pdf_save := pdf_save world;
     clock_watermark := 1500 |}.

Definition request (token : string) : Request :=
  {| method := "POST";
     json_session_token := Some (Some token);
     hdr_user_agent := Some "Mozilla/5.0";
     hdr_x_forwarded_for := None;
     hdr_cf_connecting_ip := Some "203.0.113.9" |}.

(** A grant on an SVG original, and a conversion delegate that answers 502. *)
Definition db_svg (n : Z) : Database :=
  {| document_access :=
       {[ "grant-2" :=
            {| session_token := "tok-svg";
               expires_at := 2000;
               remaining_prints := n;
               user_id := "user-7";
               watermark_text := None;
               documents :=
                 Some {| doc_id := "doc-2"; storage_path := "uploads/Poster.SVG" |} |} ]};
     print_logs := [] |}.

Definition world_convert_down : World :=
  {| clock_validate := 1000;
     select_error := false;
     download := fun _ => Some (list_byte_of_string "<svg></svg>");
     update_error := false;
     insert_error := false;
     SVG_TO_PDF_URL := Some "https://convert.example/svg-to-pdf";
     PDF_ENHANCE_URL := None;
     PDF_ENHANCE_API_KEY := None;
     PDF_ENHANCE_AUTH_HEADER_NAME := None;
     svg_fetch := fun _ _ => FetchResponse 502 None;
     enhance_fetch := fun _ _ _ => FetchThrows;
     pdf_load := pdf_load world;
     pdf_encodes := pdf_encodes world;
     pdf_save := pdf_save world;
     clock_watermark := 1500 |}.

(** An attribute [name=<q>value<q>]. *)
Definition attr (name value : string) : string :=
  name ++ "=" ++ String dquote (value ++ String dquote "").

Definition svg (attrs : string) : string := "<svg " ++ attrs ++ "></svg>".

End Scenario.

(** ** Collaborators that fail, and collaborators that answer *)

Module Cases.

(** The bucket does not give the file. *)
Definition world_storage_down : World :=
  {| clock_validate := 1000;
     select_error := false;
     download := fun _ => None;
     update_error := false;
     insert_error := false;
     SVG_TO_PDF_URL := None;
     PDF_ENHANCE_URL := None;
     PDF_ENHANCE_API_KEY := None;
     PDF_ENHANCE_AUTH_HEADER_NAME := None;
     svg_fetch := svg_fetch Scenario.world;
     enhance_fetch := enhance_fetch Scenario.world;
     pdf_load := pdf_load Scenario.world;
     pdf_encodes := pdf_encodes Scenario.world;
     pdf_save := pdf_save Scenario.world;
     clock_watermark := 1500 |}.

(** The update of [remaining_prints] comes back with an error. *)
Definition world_update_down : World :=
  {| clock_validate := 1000;
     select_error := false;
     download := download Scenario.world;
     update_error := true;
     insert_error := false;
     SVG_TO_PDF_URL := None;
     PDF_ENHANCE_URL := None;
     PDF_ENHANCE_API_KEY := None;
     PDF_ENHANCE_AUTH_HEADER_NAME := None;
     svg_fetch := svg_fetch Scenario.world;
     enhance_fetch := enhance_fetch Scenario.world;
     pdf_load := pdf_load Scenario.world;
     pdf_encodes := pdf_encodes Scenario.world;
     pdf_save := pdf_save Scenario.world;
     clock_watermark := 1500 |}.

(** pdf-lib cannot parse the stored file. *)
Definition world_load_fails : World :=
  {| clock_validate := 1000;
     select_error := false;
     download := download Scenario.world;
     update_error := false;
     insert_error := false;
     SVG_TO_PDF_URL := None;
     PDF_ENHANCE_URL := None;
     PDF_ENHANCE_API_KEY := None;
     PDF_ENHANCE_AUTH_HEADER_NAME := None;
     svg_fetch := svg_fetch Scenario.world;
     enhance_fetch := enhance_fetch Scenario.world;
     pdf_load := fun _ => None;
     pdf_encodes := pdf_encodes Scenario.world;
     pdf_save := pdf_save Scenario.world;
     clock_watermark := 1500 |}.

Definition svg_bytes : bytes := list_byte_of_string "<svg></svg>".
Definition converted_bytes : bytes := list_byte_of_string "%PDF-1.7 converted".
Definition enhanced_bytes : bytes := list_byte_of_string "%PDF-1.7 enhanced".

(** The conversion delegate answers 200 with a PDF. *)
Definition world_convert_up : World :=
  {| clock_validate := 1000;
     select_error := false;
     download := fun _ => Some svg_bytes;
     update_error := false;
     insert_error := false;
     SVG_TO_PDF_URL := Some "https://convert.example/svg-to-pdf";
     PDF_ENHANCE_URL := None;
     PDF_ENHANCE_API_KEY := None;
     PDF_ENHANCE_AUTH_HEADER_NAME := None;
     svg_fetch := fun _ _ => FetchResponse 200 (Some converted_bytes);
     enhance_fetch := enhance_fetch Scenario.world;
     pdf_load := pdf_load Scenario.world;
     pdf_encodes := pdf_encodes Scenario.world;
     pdf_save := pdf_save Scenario.world;
     clock_watermark := 1500 |}.

(** The enhancement delegate answers 200 with a PDF. *)
Definition world_enhance_up : World :=
  {| clock_validate := 1000;
     select_error := false;
     download := download Scenario.world;
     update_error := false;
     insert_error := false;
     SVG_TO_PDF_URL := None;
     PDF_ENHANCE_URL := Some "https://enhance.example/v1";
     PDF_ENHANCE_API_KEY := Some "s3cr3t";
     PDF_ENHANCE_AUTH_HEADER_NAME := Some "x-api-key";
     svg_fetch := svg_fetch Scenario.world;
     enhance_fetch := fun _ _ _ => FetchResponse 200 (Some enhanced_bytes);
     pdf_load := pdf_load Scenario.world;
     pdf_encodes := pdf_encodes Scenario.world;
     pdf_save := pdf_save Scenario.world;
     clock_watermark := 1500 |}.

(** The stored file is a document without pages; the bytes written for a
    document tell its number of pages, one byte for every page. *)
Definition world_no_pages : World :=
  {| clock_validate := 1000;
     select_error := false;
     download := download Scenario.world;
     update_error := false;
     insert_error := false;
     SVG_TO_PDF_URL := None;
     PDF_ENHANCE_URL := None;
     PDF_ENHANCE_API_KEY := None;
     PDF_ENHANCE_AUTH_HEADER_NAME := None;
     svg_fetch := svg_fetch Scenario.world;
     enhance_fetch := enhance_fetch Scenario.world;
     pdf_load := fun _ => Some [];
     pdf_encodes := pdf_encodes Scenario.world;
     pdf_save := fun pdfDoc => replicate (length pdfDoc) Byte.x70;
     clock_watermark := 1500 |}.

(** A grant whose row embeds no document. *)
Definition grant_no_document (n : Z) : AccessRow :=
  {| session_token := "tok-gone";
     expires_at := 2000;
     remaining_prints := n;
     user_id := "user-7";
     watermark_text := None;
     documents := None |}.

Definition db_no_document (n : Z) : Database :=
  {| document_access := {[ "grant-3" := grant_no_document n ]}; print_logs := [] |}.

(** Two grants that have not expired carry the same token. *)
Definition db_twice : Database :=
  {| document_access :=
       {[ "grant-1" := Scenario.grant 3; "grant-9" := Scenario.grant 5 ]};
     print_logs := [] |}.

End Cases.

(** * Properties of the handler *)

(** ** Strings *)

Lemma append_cons c (a b : string) : (String c a ++ b)%string = String c (a ++ b).
Proof. reflexivity. Qed.

Lemma append_nil_l (b : string) : ("" ++ b)%string = b.
Proof. reflexivity. Qed.

Lemma append_assoc (a b c : string) : ((a ++ b) ++ c = a ++ (b ++ c))%string.
Proof.
  induction a as [|x a IH]; [done|]. by rewrite !append_cons, IH.
Qed.

Lemma append_nil_r (a : string) : (a ++ "")%string = a.
Proof. induction a as [|x a IH]; [done|]. by rewrite append_cons, IH. Qed.

Lemma append_length (a b : string) :
  String.length (a ++ b) = (String.length a + String.length b)%nat.
Proof.
  induction a as [|x a IH]; [done|]. rewrite append_cons. simpl. by rewrite IH.
Qed.

(** ** How a request ends *)

Lemma validate_thread w req db :
  (exists r, (validate w req db).1 = Responded r) \/
  (exists l, (validate w req db).1 = Validated l).
Proof.
  unfold validate. repeat case_match; simpl; eauto.
Qed.

Lemma secure_print_outcome w req db : Outcome w req db (secure_print w req db).
Proof.
  unfold secure_print.
  destruct (validate w req db) as [t ev] eqn:Hv.
  destruct (validate_thread w req db) as [[r Hr]|[l Hl]];
    rewrite Hv in *; simpl in *; subst t; cbn [run step]; rewrite Hv; cbn [run step].
  - cbn. rewrite List.app_nil_r. by apply Rejected.
  - unfold fetch_source; cbv zeta.
    destruct (download w (storage_path (l_document l))) as [fileData|] eqn:Hd;
      cbn [run step].
    + unfold decrement; cbv zeta. destruct (update_error w) eqn:Hu; cbn [run step].
      * cbn. by eapply UpdateFailed.
      * destruct (render w l fileData (remaining_prints (l_access l) - 1))
          as [r ev'] eqn:Hr.
        cbn [log_print run step]. rewrite Hr. cbn [app]. rewrite List.app_nil_r.
        by eapply Rendered.
    + cbn. by eapply Unavailable.
Qed.

(** Five steps are enough: every request ends with a response. *)
Lemma secure_print_responds w req db :
  exists r, (secure_print w req db).1.1 = Responded r.
Proof.
  destruct (secure_print_outcome w req db); simpl; eauto.
Qed.

(** ** The session lookup *)

Lemma select_access_spec db token now id r :
  (id, r) ∈ select_access db token now <->
  document_access db !! id = Some r /\ session_token r = token /\ now < expires_at r.
Proof.
  unfold select_access.
  rewrite list_elem_of_filter, elem_of_map_to_list. simpl. tauto.
Qed.

Lemma select_access_NoDup db token now : NoDup (select_access db token now).
Proof. apply NoDup_filter, NoDup_map_to_list. Qed.

(** No grant carries the token and is still valid: the select is empty. *)
Lemma select_access_none db token now :
  (forall id r, document_access db !! id = Some r ->
                session_token r = token -> expires_at r <= now) ->
  select_access db token now = [].
Proof.
  intros H. destruct (select_access db token now) as [|[id r] rest] eqn:E; [done|].
  assert (Hin : (id, r) ∈ select_access db token now) by (rewrite E; left).
  apply select_access_spec in Hin as (Hl & Ht & Hn).
  specialize (H id r Hl Ht). lia.
Qed.

(** One valid grant carries the token: the select is that row. *)
Lemma select_access_single db token now id r :
  document_access db !! id = Some r ->
  session_token r = token ->
  now < expires_at r ->
  (forall id' r', document_access db !! id' = Some r' ->
                  session_token r' = token -> id' = id) ->
  select_access db token now = [(id, r)].
Proof.
  intros Hl Ht Hn Hu.
  assert (Hin : (id, r) ∈ select_access db token now)
    by (apply select_access_spec; auto).
  assert (Hall : forall p, p ∈ select_access db token now -> p = (id, r)).
  { intros [id' r'] Hp. apply select_access_spec in Hp as (Hl' & Ht' & _).
    assert (id' = id) by eauto. subst. congruence. }
  pose proof (select_access_NoDup db token now) as Hnd.
  destruct (select_access db token now) as [|p [|q rest]].
  - inversion Hin.
  - f_equal. apply Hall. left.
  - assert (p = (id, r)) by (apply Hall; left).
    assert (q = (id, r)) by (apply Hall; right; left).
    subst. inversion Hnd as [|? ? Hnot _]. exfalso. apply Hnot. left.
Qed.

Lemma falsy_false tok : falsy tok = false -> exists s, tok = Some s /\ s <> "".
Proof. destruct tok as [[|c s]|]; simpl; try done. intros _. eauto. Qed.

Lemma validate_Validated w req db l ev :
  validate w req db = (Validated l, ev) ->
  carries req (l_session_token l) /\
  select_error w = false /\
  select_access db (l_session_token l) (clock_validate w)
    = [(l_access_id l, l_access l)] /\
  0 < remaining_prints (l_access l) /\
  documents (l_access l) = Some (l_document l) /\
  l_userAgent l = or_else (hdr_user_agent req) "unknown" /\
  l_ipAddress l =
    or_else (hdr_x_forwarded_for req) (or_else (hdr_cf_connecting_ip req) "unknown") /\
  ev = [EvSelect (l_session_token l) (clock_validate w)].
Proof.
  unfold validate, carries.
  destruct (String.eqb (method req) "OPTIONS") eqn:Hm; [done|].
  destruct (json_session_token req) as [tok|] eqn:Hj; [|done].
  destruct (falsy tok) eqn:Hf; [done|].
  apply falsy_false in Hf as (s & -> & Hs). simpl.
  destruct (select_error w) eqn:He; [done|].
  destruct (select_access db s (clock_validate w)) as [|[id access] [|? ?]] eqn:Hsel;
    simpl; try done.
  destruct (remaining_prints access <=? 0) eqn:Hr; [done|].
  destruct (documents access) as [document|] eqn:Hd; [|done].
  intros [= <- <-]. simpl. repeat split; auto. lia.
Qed.

Lemma validate_Responded w req db r ev b :
  validate w req db = (Responded r, ev) -> body r <> BodyBytes b.
Proof.
  unfold validate. repeat case_match; intros [= <- <-]; done.
Qed.

Lemma validate_lookup w req db l ev :
  validate w req db = (Validated l, ev) ->
  document_access db !! l_access_id l = Some (l_access l) /\
  session_token (l_access l) = l_session_token l /\
  clock_validate w < expires_at (l_access l).
Proof.
  intros H. apply validate_Validated in H as (_ & _ & Hsel & _).
  apply select_access_spec. rewrite Hsel. left.
Qed.

Lemma validate_carries w req db token :
  carries req token ->
  validate w req db =
    let now := clock_validate w in
    match (if select_error w then QueryError
           else maybeSingle (select_access db token now)) with
    | QueryData (Some (id, access)) =>
        if remaining_prints access <=? 0 then
          (Responded print_limit_exceeded, [EvSelect token now])
        else
          match documents access with
          | None => (Responded (error_response 404 "Document not found"),
                     [EvSelect token now])
          | Some document =>
              (Validated {| l_session_token := token;
                            l_userAgent := or_else (hdr_user_agent req) "unknown";
                            l_ipAddress :=
                              or_else (hdr_x_forwarded_for req)
                                (or_else (hdr_cf_connecting_ip req) "unknown");
                            l_access_id := id;
                            l_access := access;
                            l_document := document |},
               [EvSelect token now])
          end
    | _ => (Responded invalid_session, [EvSelect token now])
    end.
Proof.
  intros (Hm & Hj & Ht). unfold validate. rewrite Hm, Hj.
  destruct token as [|c s]; [done|]. reflexivity.
Qed.

Lemma validate_trace w req db :
  (validate w req db).2 = [] \/ exists t n, (validate w req db).2 = [EvSelect t n].
Proof. unfold validate. repeat case_match; simpl; eauto. Qed.

Lemma log_print_document_access w l db :
  document_access (log_print w l db).1 = document_access db.
Proof. unfold log_print. simpl. by destruct (insert_error w). Qed.

Lemma error_response_not_delivery st msg b : ~ delivers (error_response st msg) b.
Proof. by intros [_ ?]. Qed.

Lemma secure_print_rejected w req db r ev :
  validate w req db = (Responded r, ev) ->
  secure_print w req db = (Responded r, db, ev).
Proof.
  intros Hv. pose proof (secure_print_outcome w req db) as Ho.
  inversion Ho as [r' ev' Hv' E|l ev' Hv' Hd E|l ev' fileData Hv' Hd Hu E
                  |l ev' fileData r' ev'' Hv' Hd Hu Hr E];
    rewrite Hv in Hv'; by simplify_eq.
Qed.

(** No grant that is still valid carries the token, whether because no row
    has it or because the rows that have it are expired. *)
Lemma no_valid_grant_rejected w req db token :
  carries req token ->
  (forall id a, document_access db !! id = Some a ->
                session_token a = token -> expires_at a <= clock_validate w) ->
  secure_print w req db =
    (Responded invalid_session, db, [EvSelect token (clock_validate w)]).
Proof.
  intros Hc Hnone. apply secure_print_rejected.
  rewrite (validate_carries _ _ _ _ Hc). simpl.
  rewrite (select_access_none _ _ _ Hnone).
  by destruct (select_error w).
Qed.

(** ** Watermarking and delivery *)

Lemma drawText_Some w txt opts page page' :
  drawText w txt opts page = Some page' ->
  width page' = width page /\ height page' = height page /\
  ops page' = ops page ++ [OpText txt opts].
Proof. unfold drawText. destruct (pdf_encodes w txt); [|done]. by intros [= <-]. Qed.

Lemma watermark_page_Some w watermarkText footer page page' :
  watermark_page w watermarkText footer page = Some page' ->
  getSize page' = getSize page /\
  ops page' = ops page ++ [OpText watermarkText (diagonal_options page);
                           OpText footer (footer_options page)].
Proof.
  unfold watermark_page. intros H.
  destruct (drawText w watermarkText (diagonal_options page) page) as [p1|] eqn:E1;
    [|done].
  simpl in H.
  apply drawText_Some in E1 as (Hw1 & Hh1 & Ho1).
  apply drawText_Some in H as (Hw2 & Hh2 & Ho2).
  unfold getSize. rewrite Hw2, Hh2, Hw1, Hh1, Ho2, Ho1, <- app_assoc. done.
Qed.

Lemma watermark_Some w watermarkText footer pdfDoc stamped :
  watermark w watermarkText footer pdfDoc = Some stamped ->
  Forall2 (fun page page' =>
     getSize page' = getSize page /\
     ops page' = ops page ++ [OpText watermarkText (diagonal_options page);
                              OpText footer (footer_options page)])
    pdfDoc stamped.
Proof.
  unfold watermark. intros H. apply mapM_Some_1 in H.
  induction H as [|page page' ? ? Hp _ IH]; constructor; [|done].
  by apply (watermark_page_Some w).
Qed.

Lemma watermark_sizes w watermarkText footer pdfDoc stamped :
  watermark w watermarkText footer pdfDoc = Some stamped ->
  length stamped = length pdfDoc /\ getSize <$> stamped = getSize <$> pdfDoc.
Proof.
  intros H. apply watermark_Some in H.
  induction H as [|page page' ? ? [Hs _] _ [IHl IHs]]; [done|].
  split; [simpl; by rewrite IHl|]. rewrite !fmap_cons. by rewrite IHs, Hs.
Qed.

(** What a delivery went through. *)
Lemma stamp_and_deliver_delivery w l n buf r ev b :
  stamp_and_deliver w l n buf = (r, ev) ->
  delivers r b ->
  exists pdfDoc stamped,
    pdf_load w buf = Some pdfDoc /\
    watermark w (watermarkText_of w l) (footerText_of l n) pdfDoc = Some stamped /\
    r = pdf_response (pdf_save w (saved_pages stamped)) n /\
    b = pdf_save w (saved_pages stamped) /\
    ev = [EvLoad buf; EvWatermark (watermarkText_of w l) (footerText_of l n);
          EvDeliver 200].
Proof.
  unfold stamp_and_deliver. intros H [_ Hb].
  destruct (pdf_load w buf) as [pdfDoc|] eqn:Hl; [|by simplify_eq].
  destruct (watermark _ _ _ _) as [stamped|] eqn:Hw; [|by simplify_eq].
  injection H as <- <-. simpl in Hb. injection Hb as <-.
  by exists pdfDoc, stamped.
Qed.

Lemma render_delivery w l fileData n r ev b :
  render w l fileData n = (r, ev) ->
  delivers r b ->
  exists buf ev1 pdfDoc stamped,
    normalize w (l_document l) fileData = (inr buf, ev1) /\
    pdf_load w (enhance w buf).1 = Some pdfDoc /\
    watermark w (watermarkText_of w l) (footerText_of l n) pdfDoc = Some stamped /\
    r = pdf_response (pdf_save w (saved_pages stamped)) n /\
    b = pdf_save w (saved_pages stamped) /\
    ev = ev1 ++ (enhance w buf).2 ++
         [EvLoad (enhance w buf).1;
          EvWatermark (watermarkText_of w l) (footerText_of l n); EvDeliver 200].
Proof.
  unfold render. intros H Hdel.
  destruct (normalize w (l_document l) fileData) as [[r0|buf] ev1] eqn:Hn.
  - injection H as <- <-. exfalso. destruct Hdel as [_ Hb]. revert Hn Hb.
    unfold normalize. repeat case_match; intros; by simplify_eq.
  - destruct (enhance w buf) as [enhanced ev2] eqn:He.
    destruct (stamp_and_deliver w l n enhanced) as [r1 ev3] eqn:Hs.
    injection H as <- <-.
    destruct (stamp_and_deliver_delivery _ _ _ _ _ _ _ Hs Hdel)
      as (pdfDoc & stamped & Hload & Hw & Hr & Hb & Hev).
    exists buf, ev1, pdfDoc, stamped. rewrite He. simpl. by subst ev3.
Qed.

Lemma render_trace w l fileData n :
  exists convert enhance stamp,
    (render w l fileData n).2 = convert ++ enhance ++ stamp /\
    (convert = [] \/ exists u s, convert = [EvConvert u s]) /\
    (enhance = [] \/ exists u h p, enhance = [EvEnhance u h p]) /\
    (stamp = [] \/ (exists b, stamp = [EvLoad b]) \/
     (exists b t f, stamp = [EvLoad b; EvWatermark t f]) \/
     (exists b t f, stamp = [EvLoad b; EvWatermark t f; EvDeliver 200])).
Proof.
  unfold render.
  destruct (normalize w (l_document l) fileData) as [[r|buf] ev1] eqn:Hn.
  - exists ev1, [], []. simpl. rewrite List.app_nil_r. split; [done|].
    split; [|by auto].
    revert Hn. unfold normalize. repeat case_match; intros; simplify_eq; eauto.
  - destruct (enhance w buf) as [enhanced ev2] eqn:He.
    destruct (stamp_and_deliver w l n enhanced) as [r ev3] eqn:Hs.
    exists ev1, ev2, ev3. simpl. split; [done|]. split; [|split].
    + revert Hn. unfold normalize. repeat case_match; intros; simplify_eq; eauto.
    + revert He. unfold enhance. repeat case_match; intros; simplify_eq; eauto 6.
    + revert Hs. unfold stamp_and_deliver.
      repeat case_match; intros; simplify_eq; eauto 10.
Qed.

Lemma secure_print_delivery w req db r db' tr b :
  secure_print w req db = (Responded r, db', tr) ->
  delivers r b ->
  exists l fileData ev ev',
    validate w req db = (Validated l, ev) /\
    download w (storage_path (l_document l)) = Some fileData /\
    update_error w = false /\
    render w l fileData (remaining_prints (l_access l) - 1) = (r, ev') /\
    document_access db' =
      alter (set_remaining_prints (remaining_prints (l_access l) - 1))
            (l_access_id l) (document_access db) /\
    print_logs db' =
      print_logs db ++ (if insert_error w then [] else [print_log_entry l]) /\
    tr = ev ++ [EvDownload (storage_path (l_document l));
                EvUpdate (l_access_id l) (remaining_prints (l_access l) - 1);
                EvInsert (print_log_entry l)] ++ ev'.
Proof.
  intros H Hdel. pose proof (secure_print_outcome w req db) as Ho.
  rewrite H in Ho. clear H.
  inversion Ho as [r0 ev Hv|l ev Hv Hd|l ev fileData Hv Hd Hu
                  |l ev fileData r0 ev' Hv Hd Hu Hr]; subst; clear Ho.
  - destruct Hdel as [_ Hb]. by eapply validate_Responded in Hv.
  - by apply error_response_not_delivery in Hdel.
  - by apply error_response_not_delivery in Hdel.
  - exists l, fileData, ev, ev'. repeat split; try done.
    + by destruct (insert_error w).
    + destruct (insert_error w); simpl; by rewrite ?List.app_nil_r.
Qed.


Lemma is_digit_digit n : is_digit (digit n) = true.
Proof.
  unfold digit. pose proof (Z.mod_pos_bound n 10 ltac:(lia)) as Hb.
  assert (H : n mod 10 = 0 \/ n mod 10 = 1 \/ n mod 10 = 2 \/ n mod 10 = 3 \/
              n mod 10 = 4 \/ n mod 10 = 5 \/ n mod 10 = 6 \/ n mod 10 = 7 \/
              n mod 10 = 8 \/ n mod 10 = 9) by lia.
  repeat destruct H as [H|H]; rewrite H; reflexivity.
Qed.

(** ** The timestamp sorts like the instant *)

Lemma date_ltb_lt a b : date_ltb a b = true <-> date_lt a b.
Proof.
  destruct a as [[y1 m1] d1], b as [[y2 m2] d2]. unfold date_ltb, date_lt.
  rewrite !orb_true_iff, !andb_true_iff, !orb_true_iff, !andb_true_iff.
  rewrite !Z.ltb_lt, !Z.eqb_eq. tauto.
Qed.

Lemma date_lt_trans a b c : date_lt a b -> date_lt b c -> date_lt a c.
Proof.
  destruct a as [[y1 m1] d1], b as [[y2 m2] d2], c as [[y3 m3] d3].
  unfold date_lt. lia.
Qed.

Lemma civil_from_days_era days :
  civil_from_days days =
  let z := days + 719468 in
  let '(y, m, d) := civil_from_doe (z mod 146097) in
  (y + z / 146097 * 400, m, d).
Proof.
  unfold civil_from_days, civil_from_doe. cbv zeta.
  set (doe := (days + 719468) mod 146097).
  set (yoe := (doe - doe / 1460 + doe / 36524 - doe / 146096) / 365).
  f_equal. f_equal. lia.
Qed.

Lemma era_ok_spec i n :
  era_ok (civil_from_doe (i - 1)) i n = true ->
  forall j, i <= j < i + Z.of_nat n ->
    date_lt (civil_from_doe (j - 1)) (civil_from_doe j) /\
    date_in_era (civil_from_doe j) = true.
Proof.
  revert i. induction n as [|k IH]; intros i H j Hj; [lia|].
  cbn [era_ok] in H. apply andb_true_iff in H as [[Hlt Hin]%andb_true_iff Hrest].
  destruct (decide (j = i)) as [->|].
  - split; [by apply date_ltb_lt|done].
  - apply (IH (i + 1)); [|lia]. by replace (i + 1 - 1) with i by lia.
Qed.

Lemma era_checked : era_ok (civil_from_doe 0) 1 (Z.to_nat 146096) = true.
Proof. vm_compute. reflexivity. Qed.

Lemma civil_from_doe_next doe :
  0 <= doe < 146096 -> date_lt (civil_from_doe doe) (civil_from_doe (doe + 1)).
Proof.
  intros H. pose proof (era_ok_spec 1 (Z.to_nat 146096) era_checked (doe + 1)) as [Hs _].
  { lia. }
  by replace (doe + 1 - 1) with doe in Hs by lia.
Qed.

Lemma civil_from_doe_in_era doe :
  0 <= doe < 146097 -> date_in_era (civil_from_doe doe) = true.
Proof.
  intros H. destruct (decide (doe = 0)) as [->|]; [by vm_compute|].
  apply (era_ok_spec 1 (Z.to_nat 146096) era_checked doe). lia.
Qed.

Lemma civil_from_doe_mono a b :
  0 <= a -> a < b -> b < 146097 -> date_lt (civil_from_doe a) (civil_from_doe b).
Proof.
  intros Ha Hab Hb.
  assert (H : forall n : nat, forall a, 0 <= a -> a + 1 + Z.of_nat n < 146097 ->
            date_lt (civil_from_doe a) (civil_from_doe (a + 1 + Z.of_nat n))).
  { clear. induction n as [|n IH]; intros a Ha Hn.
    - replace (a + 1 + Z.of_nat 0) with (a + 1) by lia.
      apply civil_from_doe_next. lia.
    - eapply date_lt_trans; [apply (IH a); lia|].
      replace (a + 1 + Z.of_nat (S n)) with (a + 1 + Z.of_nat n + 1) by lia.
      apply civil_from_doe_next. lia. }
  specialize (H (Z.to_nat (b - a - 1)) a Ha).
  replace (a + 1 + Z.of_nat (Z.to_nat (b - a - 1))) with b in H by lia.
  apply H. lia.
Qed.

Lemma civil_from_days_mono d1 d2 :
  d1 < d2 -> date_lt (civil_from_days d1) (civil_from_days d2).
Proof.
  intros H. rewrite !civil_from_days_era. cbv zeta.
  set (z1 := d1 + 719468). set (z2 := d2 + 719468).
  assert (Hz : z1 < z2) by (unfold z1, z2; lia).
  pose proof (Z.mod_pos_bound z1 146097 ltac:(lia)) as Hm1.
  pose proof (Z.mod_pos_bound z2 146097 ltac:(lia)) as Hm2.
  pose proof (Z.div_mod z1 146097 ltac:(lia)) as E1.
  pose proof (Z.div_mod z2 146097 ltac:(lia)) as E2.
  pose proof (civil_from_doe_in_era _ Hm1) as R1.
  pose proof (civil_from_doe_in_era _ Hm2) as R2.
  destruct (decide (z1 / 146097 = z2 / 146097)) as [He|He].
  - assert (Hlt : z1 mod 146097 < z2 mod 146097) by lia.
    pose proof (civil_from_doe_mono _ _ (proj1 Hm1) Hlt (proj2 Hm2)) as Hd.
    destruct (civil_from_doe (z1 mod 146097)) as [[y1 m1] dd1].
    destruct (civil_from_doe (z2 mod 146097)) as [[y2 m2] dd2].
    unfold date_lt in *. rewrite He. lia.
  - assert (Hlt : z1 / 146097 < z2 / 146097).
    { assert (z1 / 146097 <= z2 / 146097) by (apply Z.div_le_mono; lia). lia. }
    destruct (civil_from_doe (z1 mod 146097)) as [[y1 m1] dd1].
    destruct (civil_from_doe (z2 mod 146097)) as [[y2 m2] dd2].
    unfold date_in_era, date_ltb in R1, R2.
    repeat (apply andb_true_iff in R1 as [R1 ?]).
    repeat (apply andb_true_iff in R2 as [R2 ?]).
    apply negb_true_iff in R1, R2.
    repeat match goal with
           | H : negb _ = true |- _ => apply negb_true_iff in H
           end.
    rewrite ?orb_false_iff, ?andb_false_iff, ?orb_false_iff, ?andb_false_iff in *.
    unfold date_lt. lia.
Qed.

Lemma digit_compare a b :
  Ascii.compare (digit a) (digit b) = (a mod 10 ?= b mod 10).
Proof.
  unfold Ascii.compare, digit.
  pose proof (Z.mod_pos_bound a 10 ltac:(lia)) as Ha.
  pose proof (Z.mod_pos_bound b 10 ltac:(lia)) as Hb.
  rewrite !N_ascii_embedding by lia.
  rewrite <- N2Z.inj_compare, !N2Z.inj_add, !Z2N.id by lia.
  apply Z.add_compare_mono_l.
Qed.

Lemma compare_digit_cons a b r1 r2 :
  String.compare (String (digit a) r1) (String (digit b) r2) =
  match a mod 10 ?= b mod 10 with
  | Eq => String.compare r1 r2
  | c => c
  end.
Proof. cbn [String.compare]. by rewrite digit_compare. Qed.

Lemma compare_same_cons c r1 r2 :
  String.compare (String c r1) (String c r2) = String.compare r1 r2.
Proof.
  cbn [String.compare]. assert (Ascii.compare c c = Eq) as ->; [|done].
  unfold Ascii.compare. apply N.compare_refl.
Qed.

(** Case analysis on the comparisons of a goal, closed by linear
    arithmetic over quotients and remainders. *)
Ltac compare_cases :=
  repeat match goal with
         | |- context [?a ?= ?b] => destruct (Z.compare_spec a b)
         end;
  try reflexivity; exfalso; Z.div_mod_to_equations; lia.

Lemma compare_pad2 a b r1 r2 :
  0 <= a < 100 -> 0 <= b < 100 ->
  String.compare (pad2 a ++ r1) (pad2 b ++ r2) =
  match a ?= b with
  | Eq => String.compare r1 r2
  | c => c
  end.
Proof.
  intros Ha Hb. unfold pad2. rewrite !append_cons, !append_nil_l.
  rewrite !compare_digit_cons. compare_cases.
Qed.

Lemma compare_pad3 a b r1 r2 :
  0 <= a < 1000 -> 0 <= b < 1000 ->
  String.compare (pad3 a ++ r1) (pad3 b ++ r2) =
  match a ?= b with
  | Eq => String.compare r1 r2
  | c => c
  end.
Proof.
  intros Ha Hb. unfold pad3, pad2. rewrite !append_cons, !append_nil_l.
  rewrite !compare_digit_cons. compare_cases.
Qed.

Lemma compare_pad4 a b r1 r2 :
  0 <= a < 10000 -> 0 <= b < 10000 ->
  String.compare (pad4 a ++ r1) (pad4 b ++ r2) =
  match a ?= b with
  | Eq => String.compare r1 r2
  | c => c
  end.
Proof.
  intros Ha Hb. unfold pad4, pad3, pad2. rewrite !append_cons, !append_nil_l.
  rewrite !compare_digit_cons. compare_cases.
Qed.

Lemma compare_separator c r1 r2 :
  String.compare (String c "" ++ r1) (String c "" ++ r2) = String.compare r1 r2.
Proof. rewrite !append_cons, !append_nil_l. apply compare_same_cons. Qed.

Lemma string_compare_refl s : String.compare s s = Eq.
Proof. induction s as [|c s IH]; [done|]. by rewrite compare_same_cons. Qed.

Lemma civil_from_days_month_day days y m d :
  civil_from_days days = (y, m, d) -> 1 <= m <= 12 /\ 1 <= d <= 31.
Proof.
  rewrite civil_from_days_era. cbv zeta.
  pose proof (Z.mod_pos_bound (days + 719468) 146097 ltac:(lia)) as Hm.
  pose proof (civil_from_doe_in_era _ Hm) as R.
  destruct (civil_from_doe ((days + 719468) mod 146097)) as [[y0 m0] d0].
  intros [= <- <- <-]. unfold date_in_era in R.
  repeat (apply andb_true_iff in R as [R ?]). lia.
Qed.

Lemma civil_from_days_year days y m d :
  -719528 <= days <= 2932896 ->
  civil_from_days days = (y, m, d) -> 0 <= y <= 9999.
Proof.
  intros Hd E. split.
  - destruct (decide (days = -719528)) as [->|].
    + vm_compute in E. by injection E as <- _ _.
    + pose proof (civil_from_days_mono (-719528) days ltac:(lia)) as H.
      rewrite E in H.
      change (civil_from_days (-719528)) with (0, 1, 1) in H.
      unfold date_lt in H. lia.
  - destruct (decide (days = 2932896)) as [->|].
    + vm_compute in E. by injection E as <- _ _.
    + pose proof (civil_from_days_mono days 2932896 ltac:(lia)) as H.
      rewrite E in H.
      change (civil_from_days 2932896) with (9999, 12, 31) in H.
      unfold date_lt in H. lia.
Qed.

Lemma iso_year_four yr : 0 <= yr <= 9999 -> iso_year yr = pad4 yr.
Proof.
  intros H. unfold iso_year.
  by rewrite (proj2 (Z.leb_le 0 yr)), (proj2 (Z.leb_le yr 9999)) by lia.
Qed.

Lemma toISOString_format ms :
  iso_first <= ms <= iso_last -> iso_format (toISOString ms) = true.
Proof.
  unfold iso_first, iso_last. intros H. unfold toISOString.
  assert (Hr : -719528 <= ms / 86400000 <= 2932896)
    by (Z.div_mod_to_equations; lia).
  destruct (civil_from_days (ms / 86400000)) as [[yr m] d] eqn:E.
  rewrite (iso_year_four yr) by (by eapply civil_from_days_year).
  unfold iso_format, pad4, pad3, pad2. simpl.
  rewrite !is_digit_digit. reflexivity.
Qed.

Lemma toISOString_earlier t1 t2 :
  iso_first <= t1 -> t1 < t2 -> t2 <= iso_last ->
  String.compare (toISOString t1) (toISOString t2) = Lt.
Proof.
  unfold iso_first, iso_last. intros H1 H12 H2. unfold toISOString.
  assert (Hdays : t1 / 86400000 <= t2 / 86400000) by (apply Z.div_le_mono; lia).
  assert (Hr1 : -719528 <= t1 / 86400000 <= 2932896)
    by (Z.div_mod_to_equations; lia).
  assert (Hr2 : -719528 <= t2 / 86400000 <= 2932896)
    by (Z.div_mod_to_equations; lia).
  pose proof (Z.mod_pos_bound t1 86400000 ltac:(lia)) as Ht1.
  pose proof (Z.mod_pos_bound t2 86400000 ltac:(lia)) as Ht2.
  assert (Hdate : t1 / 86400000 < t2 / 86400000 ->
            date_lt (civil_from_days (t1 / 86400000)) (civil_from_days (t2 / 86400000)))
    by apply civil_from_days_mono.
  assert (Hsame : t1 / 86400000 = t2 / 86400000 ->
            civil_from_days (t1 / 86400000) = civil_from_days (t2 / 86400000) /\
            t1 mod 86400000 < t2 mod 86400000).
  { intros E. split; [by rewrite E|]. Z.div_mod_to_equations. lia. }
  destruct (civil_from_days (t1 / 86400000)) as [[y1 m1] d1] eqn:E1.
  destruct (civil_from_days (t2 / 86400000)) as [[y2 m2] d2] eqn:E2.
  pose proof (civil_from_days_month_day _ _ _ _ E1) as [Hm1 Hd1].
  pose proof (civil_from_days_month_day _ _ _ _ E2) as [Hm2 Hd2].
  pose proof (civil_from_days_year _ _ _ _ Hr1 E1) as Hy1.
  pose proof (civil_from_days_year _ _ _ _ Hr2 E2) as Hy2.
  set (T1 := t1 mod 86400000) in *. set (T2 := t2 mod 86400000) in *.
  rewrite !iso_year_four by done.
  rewrite compare_pad4, compare_separator, compare_pad2, compare_separator,
    compare_pad2, compare_separator by lia.
  destruct (decide (t1 / 86400000 = t2 / 86400000)) as [Heq|Hne].
  - destruct (Hsame Heq) as [[= -> -> ->] HT]. rewrite !Z.compare_refl.
    rewrite compare_pad2, compare_separator, compare_pad2, compare_separator,
      compare_pad2, compare_separator, compare_pad3
      by (Z.div_mod_to_equations; lia).
    compare_cases.
  - assert (Hlt : date_lt (y1, m1, d1) (y2, m2, d2)) by (apply Hdate; lia).
    unfold date_lt in Hlt.
    destruct (Z.compare_spec y1 y2); [|done|lia].
    destruct (Z.compare_spec m1 m2); [|done|lia].
    destruct (Z.compare_spec d1 d2); [lia|done|lia].
Qed.

(** The order of the strings is the order of the instants. *)
Lemma toISOString_sortable t1 t2 :
  iso_first <= t1 <= iso_last ->
  iso_first <= t2 <= iso_last ->
  String.compare (toISOString t1) (toISOString t2) = (t1 ?= t2).
Proof.
  intros H1 H2. destruct (Z.compare_spec t1 t2) as [->|Hlt|Hgt].
  - apply string_compare_refl.
  - apply toISOString_earlier; lia.
  - rewrite String.compare_antisym, toISOString_earlier by lia. reflexivity.
Qed.

(** ** Quota accounting *)

(** A request that is served alone, with no other request between its
    select and its update, takes at most one print: the stored
    [remaining_prints] of every grant stays the same or goes down by
    exactly one; and a response with status 200 and the document bytes is
    produced only when the update came back without error, with the
    counter of the grant stored one lower than before. *)
Theorem request_alone_takes_at_most_one_print w req db t db' tr :
  secure_print w req db = (t, db', tr) ->
  (forall id a, document_access db !! id = Some a ->
     exists a', document_access db' !! id = Some a' /\
       remaining_prints a - 1 <= remaining_prints a' <= remaining_prints a) /\
  (forall r b, t = Responded r -> delivers r b ->
     update_error w = false /\
     exists id a,
       document_access db !! id = Some a /\
       document_access db' !! id =
         Some (set_remaining_prints (remaining_prints a - 1) a) /\
       EvUpdate id (remaining_prints a - 1) ∈ tr).
Proof.
  intros H. pose proof (secure_print_outcome w req db) as Ho.
  rewrite H in Ho. clear H.
  inversion Ho as [r ev Hv|l ev Hv Hd|l ev fileData Hv Hd Hu
                  |l ev fileData r ev' Hv Hd Hu Hr]; subst; clear Ho.
  - split.
    + intros id a Ha. exists a. split; [done|lia].
    + intros r' b [= <-] [_ Hb]. by eapply validate_Responded in Hv.
  - split.
    + intros id a Ha. exists a. split; [done|lia].
    + intros r' b [= <-] Hdel. by apply error_response_not_delivery in Hdel.
  - split.
    + intros id a Ha. exists a. split; [done|lia].
    + intros r' b [= <-] Hdel. by apply error_response_not_delivery in Hdel.
  - apply validate_lookup in Hv as (Hl & _).
    split.
    + intros id a Ha.
      replace (document_access _) with
        (alter (set_remaining_prints (remaining_prints (l_access l) - 1))
               (l_access_id l) (document_access db))
        by (by destruct (insert_error w)).
      rewrite lookup_alter. destruct (decide (l_access_id l = id)) as [<-|Hne].
      * rewrite Ha. simpl. eexists. split; [done|]. simpl.
        assert (a = l_access l) by congruence. subst. lia.
      * exists a. split; [done|lia].
    + intros r' b [= <-] _. split; [done|].
      exists (l_access_id l), (l_access l). split; [done|]. split.
      * replace (document_access _) with
          (alter (set_remaining_prints (remaining_prints (l_access l) - 1))
                 (l_access_id l) (document_access db))
          by (by destruct (insert_error w)).
        rewrite lookup_alter. rewrite decide_True by done. by rewrite Hl.
      * set_solver.
Qed.

Lemma request_alone_witness :
  let res := secure_print Scenario.world (Scenario.request "tok-abc") (Scenario.db 3) in
  (forall id a, document_access (Scenario.db 3) !! id = Some a ->
     exists a', document_access res.1.2 !! id = Some a' /\
       remaining_prints a - 1 <= remaining_prints a' <= remaining_prints a) /\
  (forall r b, res.1.1 = Responded r -> delivers r b ->
     update_error Scenario.world = false /\
     exists id a,
       document_access (Scenario.db 3) !! id = Some a /\
       document_access res.1.2 !! id =
         Some (set_remaining_prints (remaining_prints a - 1) a) /\
       EvUpdate id (remaining_prints a - 1) ∈ res.2).
Proof.
  intros res.
  apply (request_alone_takes_at_most_one_print
           Scenario.world (Scenario.request "tok-abc") (Scenario.db 3)
           res.1.1 res.1.2 res.2).
  vm_compute. reflexivity.
Defined.

(** C1.  The handler does not keep the stored count from going up.  The
    update of a request writes the count that its own select read, minus
    one, whatever the row holds by then.  Three requests on a grant with
    three prints: the first reads 3 and fetches its file, the other two
    then run from start to end and leave the count at 1; the update of the
    first, the next step of its execution, stores 2 where 1 was stored;
    all three requests are answered with status 200 and the document. *)
Theorem C1_update_in_flight_can_raise_the_count :
  (forall w l fileData db a,
     update_error w = false ->
     document_access db !! l_access_id l = Some a ->
     document_access (step w (Fetched l fileData) db).1.2 !! l_access_id l =
       Some (set_remaining_prints (remaining_prints (l_access l) - 1) a)) /\
  (let pool := [(Scenario.world, Received (Scenario.request "tok-abc"));
                (Scenario.world, Received (Scenario.request "tok-abc"));
                (Scenario.world, Received (Scenario.request "tok-abc"))] in
   let before := interleave [0; 0; 1; 1; 1; 1; 1; 2; 2; 2; 2; 2]%nat pool
                   (Scenario.db 3) in
   let after := advance 0 before.1 before.2 in
   let res := interleave [0; 0]%nat after.1 after.2 in
   remaining_of before.2 "grant-1" = Some 1 /\
   remaining_of after.2 "grant-1" = Some 2 /\
   is_delivery <$> responses res.1 = [true; true; true]).
Proof.
  split.
  - intros w l fileData db a Hu Ha. cbn [step]. unfold decrement. rewrite Hu.
    cbn [fst snd update_remaining_prints document_access].
    by rewrite lookup_alter, decide_True, Ha.
  - by vm_compute.
Qed.

(** ** Requests in flight together *)

(** A request alone in the pool is [secure_print]. *)
Lemma interleave_alone fuel w t db :
  interleave (replicate fuel 0%nat) [(w, t)] db =
  ([(w, (run fuel w t db).1.1)], (run fuel w t db).1.2).
Proof.
  revert t db. induction fuel as [|fuel IH]; intros t db; [done|].
  cbn [replicate interleave run]. unfold advance. cbn [lookup list_lookup].
  destruct (step w t db) as [[t' db'] ev]. cbn [insert list_insert].
  rewrite IH. by destruct (run fuel w t' db') as [[? ?] ?].
Qed.

(** A step leaves the table of grants as it is, unless it is the update
    of a request that has fetched its file; the update stores the count
    that request read, minus one. *)
Lemma step_writes_count_read w t db :
  document_access (step w t db).1.2 = document_access db \/
  exists l fileData,
    t = Fetched l fileData /\ update_error w = false /\
    document_access (step w t db).1.2 =
      alter (set_remaining_prints (remaining_prints (l_access l) - 1))
            (l_access_id l) (document_access db).
Proof.
  destruct t as [req|l|l fileData|l fileData n|l fileData n|r]; cbn [step].
  - left. by destruct (validate w req db).
  - left. by destruct (fetch_source w l).
  - unfold decrement. destruct (update_error w) eqn:Hu; [by left|].
    right. by exists l, fileData.
  - left. unfold log_print. simpl. by destruct (insert_error w).
  - left. by destruct (render w l fileData n).
  - by left.
Qed.

Lemma interleave_app s1 s2 pool db :
  interleave (s1 ++ s2) pool db =
  interleave s2 (interleave s1 pool db).1 (interleave s1 pool db).2.
Proof.
  revert pool db. induction s1 as [|i s1 IH]; intros pool db; [done|].
  cbn [app interleave]. destruct (advance i pool db) as [pool' db']. apply IH.
Qed.

(** Past validation, the next state of a request does not depend on the
    database. *)
Lemma step_thread_independent w t db1 db2 :
  (forall req, t <> Received req) ->
  (step w t db1).1.1 = (step w t db2).1.1.
Proof.
  intros Ht. destruct t as [req|l|l fileData|l fileData n|l fileData n|r];
    cbn [step].
  - exfalso. by apply (Ht req).
  - by destruct (fetch_source w l).
  - unfold decrement. by destruct (update_error w).
  - by destruct (log_print w l db1), (log_print w l db2).
  - by destruct (render w l fileData n).
  - done.
Qed.

Lemma step_Received_database w req db : (step w (Received req) db).1.2 = db.
Proof. cbn [step]. by destruct (validate w req db). Qed.

(** One round: the requests of the pool are all in state [t], and each
    takes one step.  [Q] holds of the databases met on the way. *)
Lemma interleave_round (Q : Database -> Prop) w t t' n :
  (forall db, Q db -> (step w t db).1.1 = t' /\ Q (step w t db).1.2) ->
  forall k db, Q db ->
    (interleave (seq k n) (replicate k (w, t') ++ replicate n (w, t)) db).1
      = replicate (k + n) (w, t') /\
    Q (interleave (seq k n) (replicate k (w, t') ++ replicate n (w, t)) db).2.
Proof.
  intros Hstep. induction n as [|n IH]; intros k db HQ.
  - cbn [seq interleave replicate]. rewrite List.app_nil_r, Nat.add_0_r. done.
  - cbn [seq interleave]. unfold advance.
    rewrite lookup_app_r by (by rewrite length_replicate).
    rewrite length_replicate, Nat.sub_diag. cbn [replicate lookup list_lookup].
    destruct (Hstep db HQ) as [Ht' HQ'].
    destruct (step w t db) as [[t1 db1] ev]. simpl in Ht', HQ'. subst t1.
    rewrite insert_app_r_alt by (by rewrite length_replicate).
    rewrite length_replicate, Nat.sub_diag. cbn [insert list_insert].
    replace (replicate k (w, t') ++ (w, t') :: replicate n (w, t))
      with (replicate (S k) (w, t') ++ replicate n (w, t))
      by (by rewrite replicate_S_end, <- app_assoc).
    destruct (IH (S k) db1 HQ') as [Hp Hq].
    rewrite Hp, Hq || idtac. split; [|done].
    rewrite Hp. f_equal. lia.
Qed.

Lemma step_not_Received w t db req' : (step w t db).1.1 <> Received req'.
Proof.
  destruct t as [req|l|l fileData|l fileData n|l fileData n|r]; cbn [step].
  - destruct (validate_thread w req db) as [[r Hr]|[l Hl]];
      destruct (validate w req db); simpl in *; by subst.
  - unfold fetch_source. by destruct (download w _).
  - unfold decrement. by destruct (update_error w).
  - by destruct (log_print w l db).
  - by destruct (render w l fileData n).
  - done.
Qed.

(** The state of a request alone after [fuel] steps, past validation: the
    databases it meets do not matter. *)
Lemma run_thread_independent fuel w t db db0 :
  (forall req, t <> Received req) ->
  (run fuel w t db).1.1 = Nat.iter fuel (fun t => (step w t db0).1.1) t.
Proof.
  revert t db. induction fuel as [|fuel IH]; intros t db Ht; [done|].
  rewrite Nat.iter_succ_r. cbn [run].
  pose proof (step_thread_independent w t db db0 Ht) as E.
  pose proof (step_not_Received w t db) as Hn.
  destruct (step w t db) as [[t1 db1] ev]. simpl in E, Hn.
  specialize (IH t1 db1 Hn).
  destruct (run fuel w t1 db1) as [[t2 db2] ev2]. simpl in *. by rewrite IH, E.
Qed.

Lemma run_S_thread fuel w t db :
  (run (S fuel) w t db).1.1 =
  (run fuel w (step w t db).1.1 (step w t db).1.2).1.1.
Proof.
  cbn [run]. destruct (step w t db) as [[t1 db1] ev1]. simpl.
  by destruct (run fuel w t1 db1) as [[? ?] ?].
Qed.

(** However many requests with the same body are in flight, in lockstep
    each of them gets the response it would get alone: no request sees
    what the others have consumed. *)
Lemma lockstep_serves_all_alike w req db n :
  responses (interleave (lockstep n) (replicate n (w, Received req)) db).1
  = replicate n (response_of (secure_print w req db).1.1).
Proof.
  set (next := fun t => (step w t db).1.1).
  assert (Hround : forall t pool d,
            (forall r, t <> Received r) -> pool = replicate n (w, t) ->
            (interleave (seq 0 n) pool d).1 = replicate n (w, next t)).
  { intros t pool d Ht ->.
    apply (interleave_round (fun _ => True) w t (next t) n
             (fun d' _ => conj (step_thread_independent w t d' db Ht) I) 0%nat d I). }
  assert (Hnext : forall t r, next t <> Received r)
    by (intros t r; apply step_not_Received).
  unfold lockstep. rewrite !interleave_app.
  destruct (interleave_round (fun d => d = db) w (Received req) (next (Received req)) n
              (fun d (E : d = db) =>
                 conj (f_equal (fun d => (step w (Received req) d).1.1) E)
                      (eq_trans (step_Received_database w req d) E))
              0%nat db eq_refl) as [H1 _].
  cbn [replicate app Nat.add] in H1.
  set (p1 := (interleave (seq 0 n) (replicate n (w, Received req)) db).1) in *.
  set (d1 := (interleave (seq 0 n) (replicate n (w, Received req)) db).2).
  pose proof (Hround _ p1 d1 (Hnext _) H1) as H2.
  set (p2 := (interleave (seq 0 n) p1 d1).1) in *.
  set (d2 := (interleave (seq 0 n) p1 d1).2).
  pose proof (Hround _ p2 d2 (Hnext _) H2) as H3.
  set (p3 := (interleave (seq 0 n) p2 d2).1) in *.
  set (d3 := (interleave (seq 0 n) p2 d2).2).
  pose proof (Hround _ p3 d3 (Hnext _) H3) as H4.
  set (p4 := (interleave (seq 0 n) p3 d3).1) in *.
  set (d4 := (interleave (seq 0 n) p3 d3).2).
  pose proof (Hround _ p4 d4 (Hnext _) H4) as H5.
  rewrite H5. unfold responses. rewrite fmap_replicate. f_equal. cbn [snd].
  f_equal. unfold secure_print.
  rewrite run_S_thread.
  rewrite (run_thread_independent 4 w (step w (Received req) db).1.1 _ db
             (step_not_Received w _ db)).
  reflexivity.
Qed.

(** One print left and [n] requests in lockstep: every one of them is
    delivered. *)
Lemma one_print_left_all_served n :
  is_delivery <$>
    responses (interleave (lockstep n)
                 (replicate n (Scenario.world, Received (Scenario.request "tok-abc")))
                 (Scenario.db 1)).1
  = replicate n true.
Proof.
  rewrite lockstep_serves_all_alike, fmap_replicate. f_equal.
Qed.

(** Two requests with the token of a grant that has one print left, served
    one after the other: the first is delivered, the second is refused. *)
Lemma two_requests_in_sequence :
  let pool := [(Scenario.world, Received (Scenario.request "tok-abc"));
               (Scenario.world, Received (Scenario.request "tok-abc"))] in
  let res := interleave [0; 0; 0; 0; 0; 1; 1; 1; 1; 1]%nat pool (Scenario.db 1) in
  is_delivery <$> responses res.1 = [true; false] /\
  status <$> (responses res.1 !! 1%nat ≫= id) = Some 403 /\
  remaining_of res.2 "grant-1" = Some 0.
Proof. by vm_compute. Qed.

(** Three requests on a grant with three prints left.  The first reads
    the count and fetches the file; the other two then run from start to
    end and leave the count at 1; the first then writes the count it had
    read minus one, and the stored count goes back up to 2, with three
    documents delivered. *)
Lemma stale_write_raises_the_count :
  let pool := [(Scenario.world, Received (Scenario.request "tok-abc"));
               (Scenario.world, Received (Scenario.request "tok-abc"));
               (Scenario.world, Received (Scenario.request "tok-abc"))] in
  let mid := interleave [0; 0; 1; 1; 1; 1; 1; 2; 2; 2; 2; 2]%nat pool (Scenario.db 3) in
  let res := interleave [0; 0; 0]%nat mid.1 mid.2 in
  remaining_of mid.2 "grant-1" = Some 1 /\
  remaining_of res.2 "grant-1" = Some 2 /\
  is_delivery <$> responses res.1 = [true; true; true].
Proof. by vm_compute. Qed.

(** C2.  One print is left and the requests for it are in flight together.
    The handler reads the count with the select and writes the count it
    read minus one with a later, unconditional update, so with the awaits
    interleaved every request passes the limit check: for every number of
    requests in lockstep all of them are answered with status 200 and the
    document; with two requests both selects read 1, both updates write 0,
    both responses announce 0 prints remaining, and two log entries are
    written for the one print that was left. *)
Theorem C2_one_remaining_print_delivered_to_all :
  (forall n,
     is_delivery <$>
       responses (interleave (lockstep n)
                    (replicate n (Scenario.world, Received (Scenario.request "tok-abc")))
                    (Scenario.db 1)).1
     = replicate n true) /\
  (let pool := [(Scenario.world, Received (Scenario.request "tok-abc"));
                (Scenario.world, Received (Scenario.request "tok-abc"))] in
   let res := interleave [0; 1; 0; 1; 0; 1; 0; 1; 0; 1]%nat pool (Scenario.db 1) in
   is_delivery <$> responses res.1 = [true; true] /\
   (fun r => r ≫= fun r => headers r !! "X-Remaining-Prints") <$> responses res.1
     = [Some "0"; Some "0"] /\
   remaining_of (Scenario.db 1) "grant-1" = Some 1 /\
   remaining_of res.2 "grant-1" = Some 0 /\
   length (print_logs res.2) = 2%nat).
Proof. split; [apply one_print_left_all_served|by vm_compute]. Qed.

(** ** Order of the stages *)

(** C3, as the handler has it.  The calls of every request go through the
    stages in the order access validation, source fetch, quota decrement,
    audit logging, normalization, enhancement, watermarking, delivery: the
    source is fetched before the count is written, and the audit entry is
    inserted right after the write, before the document is converted,
    enhanced and stamped. *)
Theorem C3_stages_in_handler_order w req db :
  in_order handler_position (secure_print w req db).2.
Proof.
  pose proof (secure_print_outcome w req db) as Ho.
  inversion Ho as [r ev Hv E|l ev Hv Hd E|l ev fileData Hv Hd Hu E
                  |l ev fileData r ev' Hv Hd Hu Hr E]; clear Ho E; simpl.
  - destruct (validate_trace w req db) as [E|(a & b & E)];
      rewrite Hv in E; simpl in E; subst; reflexivity.
  - apply validate_Validated in Hv as (_ & _ & _ & _ & _ & _ & _ & ->). reflexivity.
  - apply validate_Validated in Hv as (_ & _ & _ & _ & _ & _ & _ & ->). reflexivity.
  - apply validate_Validated in Hv as (_ & _ & _ & _ & _ & _ & _ & ->).
    destruct (render_trace w l fileData (remaining_prints (l_access l) - 1))
      as (c & e & s & Htr & Hc & He & Hs).
    rewrite Hr in Htr. simpl in Htr. subst ev'.
    destruct Hc as [->|(? & ? & ->)]; destruct He as [->|(? & ? & ? & ->)];
      destruct Hs as [->|[(? & ->)|[(? & ? & ? & ->)|(? & ? & ? & ->)]]];
      reflexivity.
Qed.

(** A delivered print on the scenario: the storage download comes before
    the update of the count, and the insert into [print_logs] comes before
    the document is loaded and stamped, so the calls are not in the order
    validation, decrement, fetch, ..., watermarking, audit logging. *)
Lemma C3_decrement_is_not_before_fetch :
  let tr := (secure_print Scenario.world (Scenario.request "tok-abc") (Scenario.db 3)).2 in
  stage_of <$> tr =
    [AccessValidation; SourceFetch; QuotaDecrement; AuditLogging;
     Watermarking; Watermarking; Delivery] /\
  ~ in_order decrement_first_position tr.
Proof.
  split; [by vm_compute|]. unfold in_order. vm_compute. discriminate.
Qed.

(** A conversion that fails comes after the update and the insert: the
    request is answered with status 500, the count is one lower and the
    print is logged. *)
Example conversion_failure_after_decrement :
  let res := secure_print Scenario.world_convert_down (Scenario.request "tok-svg")
               (Scenario.db_svg 3) in
  res.1.1 =
    Responded (error_response 500 "Failed to convert SVG document for printing") /\
  remaining_of res.1.2 "grant-2" = Some 2 /\
  length (print_logs res.1.2) = 1%nat /\
  stage_of <$> res.2 =
    [AccessValidation; SourceFetch; QuotaDecrement; AuditLogging; Normalization].
Proof. by vm_compute. Qed.

(** ** Where the new count goes *)



(** Two prints that differ only in the stored count, 3 and 5: the headers
    say 2 and 4, the entries inserted into [print_logs] are the same. *)
Lemma audit_entry_same_for_different_counts :
  let res3 := secure_print Scenario.world (Scenario.request "tok-abc") (Scenario.db 3) in
  let res5 := secure_print Scenario.world (Scenario.request "tok-abc") (Scenario.db 5) in
  (response_of res3.1.1 ≫= fun r => headers r !! "X-Remaining-Prints") = Some "2" /\
  (response_of res5.1.1 ≫= fun r => headers r !! "X-Remaining-Prints") = Some "4" /\
  print_logs res3.1.2 = print_logs res5.1.2 /\
  print_logs res3.1.2 =
    [{| log_document_id := "doc-1"; log_user_id := "user-7";
        log_session_token := "tok-abc"; log_ip_address := "203.0.113.9";
        log_user_agent := "Mozilla/5.0" |}].
Proof. vm_compute. done. Qed.


(** ** Rejections *)

(** C5. A request that carries the token of a grant that has not expired
    and whose [remaining_prints] is 0 is answered with status 403 and the
    body [{ error: 'Print limit exceeded', remaining_prints: 0 }], and the
    database is left as it was. *)
Theorem C5_exhausted_grant_rejected_ledger_unchanged w req db token id a :
  carries req token ->
  select_error w = false ->
  document_access db !! id = Some a ->
  session_token a = token ->
  clock_validate w < expires_at a ->
  token_unique db token id ->
  remaining_prints a = 0 ->
  secure_print w req db =
    (Responded
       {| status := 403;
          headers := <["Content-Type" := "application/json"]> corsHeaders;
          body := BodyJson [("error", JString "Print limit exceeded");
                            ("remaining_prints", JNumber 0)] |},
     db, [EvSelect token (clock_validate w)]).
Proof.
  intros Hc He Hl Ht Hn Hu Hr.
  apply secure_print_rejected. rewrite (validate_carries _ _ _ _ Hc). simpl.
  rewrite He, (select_access_single db token _ id a); auto.
  simpl. rewrite Hr. reflexivity.
Qed.

Lemma C5_witness :
  secure_print Scenario.world (Scenario.request "tok-abc") (Scenario.db 0) =
    (Responded
       {| status := 403;
          headers := <["Content-Type" := "application/json"]> corsHeaders;
          body := BodyJson [("error", JString "Print limit exceeded");
                            ("remaining_prints", JNumber 0)] |},
     Scenario.db 0, [EvSelect "tok-abc" 1000]).
Proof.
  apply (C5_exhausted_grant_rejected_ledger_unchanged
           Scenario.world (Scenario.request "tok-abc") (Scenario.db 0)
           "tok-abc" "grant-1" (Scenario.grant 0)).
  - split; [reflexivity|split; [reflexivity|discriminate]].
  - reflexivity.
  - vm_compute. reflexivity.
  - reflexivity.
  - reflexivity.
  - refine (bool_decide_unpack _ _). vm_compute. exact I.
  - reflexivity.
Defined.

(** C6. A request with a token that no grant carries and a request with
    the token of a grant whose [expires_at] is not after the clock get the
    same response, status 403 with body [{ error: 'Invalid or expired
    session' }], whatever the [remaining_prints] of the expired grant; both
    leave the database as it was and neither issues an update. *)
Theorem C6_unknown_and_expired_sessions_indistinguishable
    w1 req1 db1 token1 w2 req2 db2 token2 id2 a2 :
  carries req1 token1 ->
  map_Forall (fun _ a => session_token a <> token1) (document_access db1) ->
  carries req2 token2 ->
  document_access db2 !! id2 = Some a2 ->
  session_token a2 = token2 ->
  expires_at a2 <= clock_validate w2 ->
  token_unique db2 token2 id2 ->
  let rejection :=
    {| status := 403;
       headers := <["Content-Type" := "application/json"]> corsHeaders;
       body := BodyJson [("error", JString "Invalid or expired session")] |} in
  secure_print w1 req1 db1 =
    (Responded rejection, db1, [EvSelect token1 (clock_validate w1)]) /\
  secure_print w2 req2 db2 =
    (Responded rejection, db2, [EvSelect token2 (clock_validate w2)]).
Proof.
  intros Hc1 Hunknown Hc2 Hl2 Ht2 Hexp Huniq rejection. split.
  - apply no_valid_grant_rejected; [done|].
    intros id a Hl Ht. by apply Hunknown in Hl.
  - apply no_valid_grant_rejected; [done|].
    intros id a Hl Ht. pose proof (Huniq _ _ Hl Ht) as ->.
    assert (a = a2) by congruence. by subst.
Qed.

Lemma C6_witness :
  let rejection :=
    {| status := 403;
       headers := <["Content-Type" := "application/json"]> corsHeaders;
       body := BodyJson [("error", JString "Invalid or expired session")] |} in
  secure_print Scenario.world (Scenario.request "tok-nobody") (Scenario.db 3) =
    (Responded rejection, Scenario.db 3, [EvSelect "tok-nobody" 1000]) /\
  secure_print Scenario.world_late (Scenario.request "tok-abc") (Scenario.db 3) =
    (Responded rejection, Scenario.db 3, [EvSelect "tok-abc" 2000]).
Proof.
  apply (C6_unknown_and_expired_sessions_indistinguishable
           Scenario.world (Scenario.request "tok-nobody") (Scenario.db 3) "tok-nobody"
           Scenario.world_late (Scenario.request "tok-abc") (Scenario.db 3) "tok-abc"
           "grant-1" (Scenario.grant 3)).
  - split; [reflexivity|split; [reflexivity|discriminate]].
  - refine (bool_decide_unpack _ _). vm_compute. exact I.
  - split; [reflexivity|split; [reflexivity|discriminate]].
  - vm_compute. reflexivity.
  - reflexivity.
  - vm_compute. discriminate.
  - refine (bool_decide_unpack _ _). vm_compute. exact I.
Defined.

(** ** Enhancement *)

Lemma enhance_failed_inert w buf :
  enhancement_fails w -> (enhance w buf).1 = buf.
Proof.
  intros Hf. unfold enhance.
  destruct (falsy (PDF_ENHANCE_URL w)); [done|]. simpl.
  specialize (Hf (nullish (PDF_ENHANCE_URL w) "") (enhance_headers w) buf).
  destruct (enhance_fetch _ _ _ _) as [|st [enhanced|]]; simpl in *; try done.
  - destruct (ok st); [|done].
    destruct Hf as [?|[?|Hempty]]; try done. by injection Hempty as ->.
  - by destruct (ok st).
Qed.

Lemma enhance_disabled w buf : enhance (without_enhancement w) buf = (buf, []).
Proof. reflexivity. Qed.

Lemma render_enhancement w l fileData n :
  (render w l fileData n).1 =
  match (normalize w (l_document l) fileData).1 with
  | inl r => r
  | inr buf => (stamp_and_deliver w l n (enhance w buf).1).1
  end.
Proof.
  unfold render. destruct (normalize _ _ _) as [[r|buf] ev1]; [done|]. simpl.
  destruct (enhance w buf) as [enhanced ev2]. simpl.
  by destruct (stamp_and_deliver _ _ _ _).
Qed.

Lemma render_without_enhancement w l fileData n :
  enhancement_fails w ->
  (render (without_enhancement w) l fileData n).1 = (render w l fileData n).1.
Proof.
  intros Hf. rewrite !render_enhancement.
  change (normalize (without_enhancement w)) with (normalize w).
  destruct (normalize w (l_document l) fileData).1 as [r|buf]; [done|].
  rewrite enhance_disabled, enhance_failed_inert by done. reflexivity.
Qed.

Lemma step_without_enhancement w t db :
  enhancement_fails w ->
  (step (without_enhancement w) t db).1 = (step w t db).1.
Proof.
  intros Hf. destruct t as [req|l|l fileData|l fileData n|l fileData n|r];
    try reflexivity.
  pose proof (render_without_enhancement w l fileData n Hf) as H.
  cbn [step].
  destruct (render w l fileData n) as [r1 e1].
  destruct (render (without_enhancement w) l fileData n) as [r2 e2].
  simpl in *. by subst.
Qed.

Lemma run_without_enhancement fuel w t db :
  enhancement_fails w ->
  (run fuel (without_enhancement w) t db).1 = (run fuel w t db).1.
Proof.
  intros Hf. revert t db. induction fuel as [|fuel IH]; intros t db; [done|].
  simpl. pose proof (step_without_enhancement w t db Hf) as Hs.
  destruct (step (without_enhancement w) t db) as [[t1 db1] e1].
  destruct (step w t db) as [[t2 db2] e2]. simpl in Hs. injection Hs as -> ->.
  specialize (IH t2 db2).
  destruct (run fuel (without_enhancement w) t2 db2) as [[? ?] ?].
  destruct (run fuel w t2 db2) as [[? ?] ?]. simpl in *. done.
Qed.

(** C7. When the enhancement call fails (it throws, answers with a
    non-success status, or with an unreadable or empty body), the buffer
    that goes on to watermarking is the buffer that went into the stage,
    the stage returns no response of its own, and the response and the
    database at the end of the request are those of the same request with
    [PDF_ENHANCE_URL] unset. *)
Theorem C7_failed_enhancement_is_inert w :
  enhancement_fails w ->
  (forall buf, (enhance w buf).1 = buf) /\
  (forall l fileData n buf ev,
     normalize w (l_document l) fileData = (inr buf, ev) ->
     (render w l fileData n).1 = (stamp_and_deliver w l n buf).1) /\
  (forall req db,
     (secure_print w req db).1 = (secure_print (without_enhancement w) req db).1).
Proof.
  intros Hf. split; [|split].
  - intros buf. by apply enhance_failed_inert.
  - intros l fileData n buf ev Hn. rewrite render_enhancement, Hn. simpl.
    by rewrite enhance_failed_inert.
  - intros req db. unfold secure_print. by rewrite run_without_enhancement.
Qed.

Lemma C7_witness :
  (forall buf, (enhance Scenario.world_enhance_down buf).1 = buf) /\
  (forall l fileData n buf ev,
     normalize Scenario.world_enhance_down (l_document l) fileData = (inr buf, ev) ->
     (render Scenario.world_enhance_down l fileData n).1 =
     (stamp_and_deliver Scenario.world_enhance_down l n buf).1) /\
  (forall req db,
     (secure_print Scenario.world_enhance_down req db).1 =
     (secure_print (without_enhancement Scenario.world_enhance_down) req db).1).
Proof.
  apply (C7_failed_enhancement_is_inert Scenario.world_enhance_down).
  intros url hdrs payload. simpl. left. reflexivity.
Defined.

(** ** Stamped pages *)

(** C9, as the handler has it.  On a delivery, every page of the loaded
    document gets, after what it held, the tracking line (the grant's
    [watermark_text] or 'Licensed Print', ' - ', [toISOString] of the
    clock, ' - ID: ', the session token) at [width * 0.15] and
    [height * 0.5], the products of doubles, rotated by -30 degrees, size
    18, opacity 0.25, and the footer line ('Secure Print | Session: ', the
    session token of the request, ' | Remaining: ', the count stored by
    the decrement) at [width * 0.1] and 24, size 10, opacity 0.7, which is
    above that of the tracking line.  The pages that go out are these
    pages; for a document without pages, one empty page of size A4 goes
    out, with neither line.  For a clock in the years 0000 to 9999 the
    timestamp has the fixed shape of [iso_format], and such timestamps
    compare as strings the way their instants compare. *)
Theorem C9_tracking_and_footer_on_every_loaded_page w req db r db' tr b token :
  secure_print w req db = (Responded r, db', tr) ->
  delivers r b ->
  json_session_token req = Some (Some token) ->
  exists id a input pdfDoc stamped,
    document_access db !! id = Some a /\
    session_token a = token /\
    document_access db' !! id
      = Some (set_remaining_prints (remaining_prints a - 1) a) /\
    pdf_load w input = Some pdfDoc /\
    b = pdf_save w (saved_pages stamped) /\
    (pdfDoc <> [] -> saved_pages stamped = stamped) /\
    (pdfDoc = [] -> saved_pages stamped = [default_page]) /\
    let stamp := toISOString (clock_watermark w) in
    let tracking :=
      (or_else (watermark_text a) "Licensed Print" ++ " - " ++ stamp ++ " - ID: "
        ++ token)%string in
    let footer :=
      ("Secure Print | Session: " ++ token ++ " | Remaining: "
        ++ toString (remaining_prints a - 1))%string in
    Forall2 (fun page page' =>
      ops page' = ops page ++
        [OpText tracking
           {| opt_x := times (width page) (double 0.15);
              opt_y := times (height page) 0.5;
              opt_size := 18; opt_rotate := -30; opt_opacity := 0.25;
              opt_color := (0.5, 0.5, 0.5) |};
         OpText footer
           {| opt_x := times (width page) (double 0.1); opt_y := 24;
              opt_size := 10; opt_rotate := 0; opt_opacity := double 0.7;
              opt_color := (double 0.4, double 0.4, double 0.4) |}]%Q)
      pdfDoc stamped /\
    (0.25 < double 0.7)%Q /\
    (iso_first <= clock_watermark w <= iso_last -> iso_format stamp = true) /\
    (forall t1 t2,
       iso_first <= t1 <= iso_last -> iso_first <= t2 <= iso_last ->
       String.compare (toISOString t1) (toISOString t2) = (t1 ?= t2)).
Proof.
  intros H Hdel Htok.
  destruct (secure_print_delivery _ _ _ _ _ _ _ H Hdel)
    as (l & fileData & ev & ev' & Hv & Hd & Hu & Hr & Hdb & Hlogs & Htr).
  destruct (render_delivery _ _ _ _ _ _ _ Hr Hdel)
    as (buf & ev1 & pdfDoc & stamped & Hn & Hload & Hw & _ & Hb & _).
  pose proof (validate_Validated _ _ _ _ _ Hv) as ((_ & Hj & _) & _).
  apply validate_lookup in Hv as (Hl & Ht & _).
  assert (l_session_token l = token) as Hlt by congruence.
  destruct (watermark_sizes _ _ _ _ _ Hw) as [Hlen _].
  exists (l_access_id l), (l_access l), (enhance w buf).1, pdfDoc, stamped.
  split; [done|]. split; [congruence|]. split.
  { rewrite Hdb, lookup_alter, decide_True by done. by rewrite Hl. }
  split; [done|]. split; [done|].
  split; [by destruct pdfDoc, stamped|]. split; [by intros ->; destruct stamped|].
  split; [|split; [by vm_compute|split; [apply toISOString_format|
                                         apply toISOString_sortable]]].
  apply watermark_Some in Hw.
  eapply Forall2_impl; [exact Hw|]. intros page page' [_ Hops].
  rewrite Hops. unfold watermarkText_of, footerText_of. rewrite Hlt. reflexivity.
Qed.

Lemma C9_witness :
  let res := secure_print Scenario.world (Scenario.request "tok-abc") (Scenario.db 3) in
  exists id a input pdfDoc stamped,
    document_access (Scenario.db 3) !! id = Some a /\
    session_token a = "tok-abc" /\
    document_access res.1.2 !! id
      = Some (set_remaining_prints (remaining_prints a - 1) a) /\
    pdf_load Scenario.world input = Some pdfDoc /\
    Scenario.stamped_bytes = pdf_save Scenario.world (saved_pages stamped) /\
    (pdfDoc <> [] -> saved_pages stamped = stamped) /\
    (pdfDoc = [] -> saved_pages stamped = [default_page]) /\
    let stamp := toISOString (clock_watermark Scenario.world) in
    let tracking :=
      (or_else (watermark_text a) "Licensed Print" ++ " - " ++ stamp ++ " - ID: "
        ++ "tok-abc")%string in
    let footer :=
      ("Secure Print | Session: " ++ "tok-abc" ++ " | Remaining: "
        ++ toString (remaining_prints a - 1))%string in
    Forall2 (fun page page' =>
      ops page' = ops page ++
        [OpText tracking
           {| opt_x := times (width page) (double 0.15);
              opt_y := times (height page) 0.5;
              opt_size := 18; opt_rotate := -30; opt_opacity := 0.25;
              opt_color := (0.5, 0.5, 0.5) |};
         OpText footer
           {| opt_x := times (width page) (double 0.1); opt_y := 24;
              opt_size := 10; opt_rotate := 0; opt_opacity := double 0.7;
              opt_color := (double 0.4, double 0.4, double 0.4) |}]%Q)
      pdfDoc stamped /\
    (0.25 < double 0.7)%Q /\
    (iso_first <= clock_watermark Scenario.world <= iso_last ->
     iso_format stamp = true) /\
    (forall t1 t2,
       iso_first <= t1 <= iso_last -> iso_first <= t2 <= iso_last ->
       String.compare (toISOString t1) (toISOString t2) = (t1 ?= t2)).
Proof.
  intros res.
  apply (C9_tracking_and_footer_on_every_loaded_page
           Scenario.world (Scenario.request "tok-abc") (Scenario.db 3)
           (pdf_response Scenario.stamped_bytes 2) res.1.2 res.2
           Scenario.stamped_bytes "tok-abc").
  - vm_compute. reflexivity.
  - split; reflexivity.
  - reflexivity.
Defined.

(** A stored document without pages is delivered as one empty page of size
    A4, on which neither the tracking line nor the footer is drawn; the
    print is consumed.  And in the year 10000 the timestamp has a sign and
    six year digits, not the shape of [iso_format]. *)
Lemma C9_default_page_is_not_stamped :
  let w := Cases.world_no_pages in
  let res := secure_print w (Scenario.request "tok-abc") (Scenario.db 3) in
  (exists input, EvLoad input ∈ res.2 /\ pdf_load w input = Some []) /\
  res.1.1 = Responded (pdf_response (pdf_save w [default_page]) 2) /\
  ops default_page = [] /\
  remaining_of res.1.2 "grant-1" = Some 2 /\
  toISOString (iso_last + 1) = "+010000-01-01T00:00:00.000Z"%string /\
  iso_format (toISOString (iso_last + 1)) = false.
Proof.
  intros w res. split.
  - exists Scenario.pdf_bytes. split; [|reflexivity].
    assert (E : exists before after, res.2 = before ++ EvLoad Scenario.pdf_bytes :: after).
    { eexists [_; _; _; _], _. vm_compute. reflexivity. }
    destruct E as (before & after & ->). apply elem_of_app. right. left.
  - by vm_compute.
Qed.

(** On a page of size A4 the tracking line starts at 595.28 * 0.15, which
    in doubles is 89.29199999999999 and not the rational 89.292. *)
Example tracking_line_on_a_page_of_size_A4 :
  opt_x (diagonal_options default_page) = double 89.29199999999999 /\
  ~ (opt_x (diagonal_options default_page) == 595.28 * 0.15)%Q.
Proof. split; by vm_compute. Qed.

(** C10, as the handler has it.  Stamping keeps the number of pages and
    the size of every page: the stamped document has the same length and
    the same page sizes in the same order, and what each page held is
    still there.  The pages of a delivery are the stamped pages of the
    document loaded from the normalized (and possibly enhanced) buffer
    when that document has a page: the same number, the same sizes.  A
    document without pages goes out with one page, empty and of size
    A4. *)
Theorem C10_page_count_and_sizes_kept_when_pages_exist w :
  (forall watermarkText footer pdfDoc stamped,
     watermark w watermarkText footer pdfDoc = Some stamped ->
     length stamped = length pdfDoc /\
     getSize <$> stamped = getSize <$> pdfDoc /\
     Forall2 (fun page page' => ops page `prefix_of` ops page') pdfDoc stamped) /\
  (forall req db r db' tr b,
     secure_print w req db = (Responded r, db', tr) ->
     delivers r b ->
     exists input pdfDoc out,
       EvLoad input ∈ tr /\
       pdf_load w input = Some pdfDoc /\
       b = pdf_save w out /\
       (pdfDoc <> [] ->
          length out = length pdfDoc /\
          getSize <$> out = getSize <$> pdfDoc /\
          Forall2 (fun page page' => ops page `prefix_of` ops page') pdfDoc out) /\
       (pdfDoc = [] -> out = [default_page])).
Proof.
  split.
  - intros watermarkText footer pdfDoc stamped H.
    destruct (watermark_sizes _ _ _ _ _ H) as [Hlen Hsz].
    split; [done|]. split; [done|].
    apply watermark_Some in H. eapply Forall2_impl; [exact H|].
    intros page page' [_ ->]. by eexists.
  - intros req db r db' tr b H Hdel.
    destruct (secure_print_delivery _ _ _ _ _ _ _ H Hdel)
      as (l & fileData & ev & ev' & Hv & Hd & Hu & Hr & Hdb & Hlogs & Htr).
    destruct (render_delivery _ _ _ _ _ _ _ Hr Hdel)
      as (buf & ev1 & pdfDoc & stamped & Hn & Hload & Hw & _ & Hb & Hev).
    destruct (watermark_sizes _ _ _ _ _ Hw) as [Hlen Hsz].
    exists (enhance w buf).1, pdfDoc, (saved_pages stamped).
    split; [subst tr ev'; rewrite !elem_of_app, !elem_of_cons; auto 15|].
    split; [done|]. split; [done|]. split.
    + intros Hne. replace (saved_pages stamped) with stamped
        by (by destruct pdfDoc, stamped).
      split; [done|]. split; [done|].
      apply watermark_Some in Hw. eapply Forall2_impl; [exact Hw|].
      intros page page' [_ ->]. by eexists.
    + intros ->. by destruct stamped.
Qed.

Lemma C10_witness :
  let res := secure_print Scenario.world (Scenario.request "tok-abc") (Scenario.db 3) in
  (exists stamped,
     watermark Scenario.world "ACME" "Secure Print" [Scenario.page0; Scenario.page0]
       = Some stamped /\
     length stamped = 2%nat /\
     getSize <$> stamped = [(595, 842); (595, 842)]%Q) /\
  (exists input pdfDoc out,
     EvLoad input ∈ res.2 /\
     pdf_load Scenario.world input = Some pdfDoc /\
     Scenario.stamped_bytes = pdf_save Scenario.world out /\
     (pdfDoc <> [] ->
        length out = length pdfDoc /\
        getSize <$> out = getSize <$> pdfDoc /\
        Forall2 (fun page page' => ops page `prefix_of` ops page') pdfDoc out) /\
     (pdfDoc = [] -> out = [default_page])).
Proof.
  intros res.
  destruct (C10_page_count_and_sizes_kept_when_pages_exist Scenario.world)
    as [Hstage Hrun].
  split.
  - destruct (watermark Scenario.world "ACME" "Secure Print"
                [Scenario.page0; Scenario.page0]) as [stamped|] eqn:E;
      [|by vm_compute in E].
    exists stamped. split; [done|].
    destruct (Hstage _ _ _ _ E) as (Hlen & Hsz & _). by rewrite Hlen, Hsz.
  - apply (Hrun (Scenario.request "tok-abc") (Scenario.db 3)
             (pdf_response Scenario.stamped_bytes 2) res.1.2 res.2).
    + vm_compute. reflexivity.
    + split; reflexivity.
Defined.

(** A stored document without pages: no page is loaded and one page is
    delivered, of the size of A4. *)
Lemma C10_document_without_pages_gains_a_page :
  let w := Cases.world_no_pages in
  let res := secure_print w (Scenario.request "tok-abc") (Scenario.db 3) in
  exists input pdfDoc out,
    EvLoad input ∈ res.2 /\
    pdf_load w input = Some pdfDoc /\
    res.1.1 = Responded (pdf_response (pdf_save w out) 2) /\
    length pdfDoc = 0%nat /\
    length out = 1%nat /\
    getSize <$> out = [(double 595.28, double 841.89)]%Q.
Proof.
  intros w res. exists Scenario.pdf_bytes, [], [default_page].
  split; [|by vm_compute].
  assert (E : exists before after, res.2 = before ++ EvLoad Scenario.pdf_bytes :: after).
  { eexists [_; _; _; _], _. vm_compute. reflexivity. }
  destruct E as (before & after & ->). apply elem_of_app. right. left.
Qed.

(** ** Page size of a converted SVG *)

Lemma literal_ci_extend lit s r :
  literal_ci lit s = None ->
  (String.length lit <= String.length s)%nat ->
  literal_ci lit (s ++ r) = None.
Proof.
  revert s. induction lit as [|a lit IH]; intros s; [done|].
  destruct s as [|b s]; simpl; [lia|].
  destruct (Ascii.eqb (lower_ascii a) (lower_ascii b)); [|done].
  intros H Hlen. apply IH; [done|lia].
Qed.

Lemma literal_ci_self lit r : literal_ci lit (lit ++ r) = Some r.
Proof.
  induction lit as [|a lit IH]; [done|].
  rewrite append_cons. simpl. by rewrite Ascii.eqb_refl.
Qed.

(** No occurrence of the word starts in [pre]: the search goes on behind
    it. *)
Lemma match_viewBox_skip pre t r :
  occurs_ci "viewBox" (pre ++ t) = false ->
  (6 <= String.length t)%nat ->
  match_viewBox (pre ++ t ++ r) = match_viewBox (t ++ r).
Proof.
  intros H Ht. induction pre as [|c pre IH]; [done|].
  rewrite append_cons in H. cbn [occurs_ci] in H.
  destruct (literal_ci "viewBox" (String c (pre ++ t))) eqn:Hl; [done|].
  rewrite append_cons. cbn [match_viewBox]. unfold match_viewBox_here.
  rewrite <- (append_cons c pre), <- append_assoc.
  rewrite literal_ci_extend; [by apply IH|by rewrite append_cons|].
  rewrite append_cons. cbn [String.length]. rewrite append_length. simpl. lia.
Qed.

Lemma skip_spaces_spaces sp s :
  is_spaces sp = true -> skip_spaces (sp ++ s) = skip_spaces s.
Proof.
  induction sp as [|c sp IH]; [done|]. rewrite append_cons. simpl.
  intros [Hc Hsp]%andb_true_iff. rewrite Hc. by apply IH.
Qed.

Lemma skip_spaces_stop c s :
  is_space c = false -> skip_spaces (String c s) = String c s.
Proof. simpl. by intros ->. Qed.

Lemma until_quote_run run rest :
  all_chars (fun c => negb (Ascii.eqb c dquote)) run = true ->
  until_quote (run ++ String dquote rest) = Some (run, rest).
Proof.
  induction run as [|c run IH].
  - intros _. reflexivity.
  - rewrite append_cons. simpl.
    intros [Hc Hrun]%andb_true_iff. apply negb_true_iff in Hc. rewrite Hc.
    by rewrite IH.
Qed.

(** The attribute itself, with spaces allowed around the equals sign. *)
Lemma match_viewBox_here_attribute sp1 sp2 group rest :
  is_spaces sp1 = true ->
  is_spaces sp2 = true ->
  group <> "" ->
  all_chars (fun c => negb (Ascii.eqb c dquote)) group = true ->
  match_viewBox_here
    ("viewBox" ++ sp1 ++ "=" ++ sp2 ++ String dquote (group ++ String dquote rest))
  = Some group.
Proof.
  intros H1 H2 Hne Hg. unfold match_viewBox_here.
  rewrite literal_ci_self, skip_spaces_spaces by done.
  rewrite append_cons, append_nil_l, skip_spaces_stop by done.
  rewrite skip_spaces_spaces by done.
  rewrite skip_spaces_stop by done.
  rewrite Ascii.eqb_refl, until_quote_run by done.
  by destruct group.
Qed.

Lemma match_viewBox_found s group :
  match_viewBox_here s = Some group -> match_viewBox s = Some group.
Proof. destruct s; cbn [match_viewBox]; by intros ->. Qed.

Lemma match_viewBox_absent s :
  occurs_ci "viewBox" s = false -> match_viewBox s = None.
Proof.
  induction s as [|c s IH]; cbn [occurs_ci match_viewBox]; unfold match_viewBox_here.
  - by destruct (literal_ci "viewBox" "").
  - destruct (literal_ci "viewBox" (String c s)); [done|]. exact IH.
Qed.

Lemma list_ascii_of_string_app a b :
  list_ascii_of_string (a ++ b) = list_ascii_of_string a ++ list_ascii_of_string b.
Proof. induction a as [|c a IH]; [done|]. simpl. by rewrite IH. Qed.

Lemma string_of_list_ascii_app (a b : list ascii) :
  string_of_list_ascii (a ++ b) = (string_of_list_ascii a ++ string_of_list_ascii b)%string.
Proof. induction a as [|c a IH]; [done|]. simpl. by rewrite IH. Qed.

Lemma string_rev_app a b : string_rev (a ++ b) = (string_rev b ++ string_rev a)%string.
Proof.
  unfold string_rev.
  by rewrite list_ascii_of_string_app, rev_app_distr, string_of_list_ascii_app.
Qed.

Lemma string_rev_involutive s : string_rev (string_rev s) = s.
Proof.
  unfold string_rev.
  by rewrite list_ascii_of_string_of_list_ascii, rev_involutive,
    string_of_list_ascii_of_string.
Qed.

Lemma all_chars_app P a b :
  all_chars P (a ++ b) = all_chars P a && all_chars P b.
Proof. induction a as [|c a IH]; [done|]. simpl. by rewrite IH, andb_assoc. Qed.

Lemma all_chars_rev P s : all_chars P (string_rev s) = all_chars P s.
Proof.
  induction s as [|c s IH]; [done|].
  change (String c s) with (String c "" ++ s)%string at 1.
  rewrite string_rev_app, all_chars_app, IH. simpl.
  by rewrite andb_true_r, andb_comm.
Qed.

Lemma string_rev_nonempty s : s <> "" -> string_rev s <> "".
Proof.
  intros Hs Hr. apply Hs. by rewrite <- (string_rev_involutive s), Hr.
Qed.

Lemma token_nonspace x :
  is_token x = true -> all_chars (fun c => negb (is_space c)) x = true.
Proof.
  unfold is_token. intros [_ H]%andb_true_iff. revert H.
  induction x as [|c x IH]; [done|]. simpl.
  intros [[Hc _]%andb_true_iff Hx]%andb_true_iff. rewrite Hc. by apply IH.
Qed.

Lemma token_no_quote x :
  is_token x = true -> all_chars (fun c => negb (Ascii.eqb c dquote)) x = true.
Proof.
  unfold is_token. intros [_ H]%andb_true_iff. revert H.
  induction x as [|c x IH]; [done|]. simpl.
  intros [[_ Hc]%andb_true_iff Hx]%andb_true_iff. rewrite Hc. by apply IH.
Qed.

Lemma spaces_no_quote sp :
  is_spaces sp = true -> all_chars (fun c => negb (Ascii.eqb c dquote)) sp = true.
Proof.
  induction sp as [|c sp IH]; [done|]. simpl.
  intros [Hc Hsp]%andb_true_iff. rewrite IH by done.
  destruct (Ascii.eqb_spec c dquote) as [->|]; [done|done].
Qed.

Lemma token_starts x r : is_token x = true -> starts_nonspace (x ++ r) = true.
Proof.
  intros H. pose proof (token_nonspace x H) as Hn.
  destruct x as [|c x]; [done|]. simpl in *. by apply andb_true_iff in Hn as [-> _].
Qed.

Lemma token_rev x : is_token x = true -> is_token (string_rev x) = true.
Proof.
  unfold is_token. intros [Hne H]%andb_true_iff.
  rewrite all_chars_rev, H, andb_true_r.
  apply negb_true_iff, String.eqb_neq, string_rev_nonempty.
  by apply String.eqb_neq, negb_true_iff.
Qed.

Lemma skip_spaces_starts s : starts_nonspace s = true -> skip_spaces s = s.
Proof. destruct s as [|c s]; [done|]. simpl. by intros ->%negb_true_iff. Qed.

Lemma trim_core sp0 core sp4 :
  is_spaces sp0 = true ->
  is_spaces sp4 = true ->
  starts_nonspace core = true ->
  starts_nonspace (string_rev core) = true ->
  trim (sp0 ++ core ++ sp4) = core.
Proof.
  intros H0 H4 Hs He. unfold trim.
  rewrite skip_spaces_spaces by done.
  rewrite (skip_spaces_starts (core ++ sp4)) by (destruct core; [done|exact Hs]).
  rewrite string_rev_app, skip_spaces_spaces
    by (unfold is_spaces; by rewrite all_chars_rev).
  rewrite skip_spaces_starts by done. apply string_rev_involutive.
Qed.

Lemma split_spaces_cons b s : exists p ps, split_spaces b s = p :: ps.
Proof.
  revert b. induction s as [|c s IH]; intros b; simpl; [by eauto|].
  destruct (is_space c).
  - destruct b; [apply IH|by eauto].
  - destruct (IH false) as (p & ps & ->). by eauto.
Qed.

(** Characters that are not spaces go to the front of the first piece. *)
Lemma split_spaces_token x r p ps :
  all_chars (fun c => negb (is_space c)) x = true ->
  split_spaces false r = p :: ps ->
  split_spaces false (x ++ r) = (x ++ p)%string :: ps.
Proof.
  intros Hx Hr. induction x as [|c x IH]; [done|]. simpl in *.
  apply andb_true_iff in Hx as [Hc Hx]. apply negb_true_iff in Hc.
  by rewrite Hc, IH.
Qed.

(** A run of spaces ends a piece. *)
Lemma split_spaces_separator sp r :
  is_spaces sp = true -> sp <> "" -> starts_nonspace r = true ->
  split_spaces false (sp ++ r) = "" :: split_spaces false r.
Proof.
  intros Hsp Hne Hr.
  assert (Htrue : forall sp', is_spaces sp' = true ->
            split_spaces true (sp' ++ r) = split_spaces false r).
  { induction sp' as [|c sp' IH]; simpl.
    - intros _. destruct r as [|c r]; [done|]. simpl in *.
      apply negb_true_iff in Hr. by rewrite Hr.
    - intros [Hc Hsp']%andb_true_iff. rewrite Hc. by apply IH. }
  destruct sp as [|c sp]; [done|]. simpl in *.
  apply andb_true_iff in Hsp as [Hc Hsp]. rewrite Hc. by rewrite Htrue.
Qed.

Lemma split_spaces_last h :
  all_chars (fun c => negb (is_space c)) h = true ->
  split_spaces false h = [h].
Proof.
  intros H. rewrite <- (append_nil_r h) at 1.
  rewrite (split_spaces_token h "" "" []) by done. by rewrite append_nil_r.
Qed.

(** Four values separated by runs of spaces. *)
Lemma split_spaces_four x sp1 y sp2 w sp3 h :
  is_token x = true -> is_token y = true -> is_token w = true -> is_token h = true ->
  is_spaces sp1 = true -> sp1 <> "" ->
  is_spaces sp2 = true -> sp2 <> "" ->
  is_spaces sp3 = true -> sp3 <> "" ->
  split_spaces false (x ++ sp1 ++ y ++ sp2 ++ w ++ sp3 ++ h) = [x; y; w; h].
Proof.
  intros Hx Hy Hw Hh H1 N1 H2 N2 H3 N3.
  rewrite (split_spaces_token x _ "" (split_spaces false (y ++ sp2 ++ w ++ sp3 ++ h)));
    [|by apply token_nonspace|by apply split_spaces_separator, token_starts].
  rewrite append_nil_r. f_equal.
  rewrite (split_spaces_token y _ "" (split_spaces false (w ++ sp3 ++ h)));
    [|by apply token_nonspace|by apply split_spaces_separator, token_starts].
  rewrite append_nil_r. f_equal.
  rewrite (split_spaces_token w _ "" (split_spaces false h));
    [|by apply token_nonspace|].
  - rewrite append_nil_r. f_equal. by apply split_spaces_last, token_nonspace.
  - apply split_spaces_separator; [done|done|].
    rewrite <- (append_nil_r h). by apply token_starts.
Qed.

Lemma separator_spaces sp : is_separator sp = true -> is_spaces sp = true /\ sp <> "".
Proof.
  unfold is_separator. intros [? Hne]%andb_true_iff. split; [done|].
  by apply String.eqb_neq, negb_true_iff.
Qed.

(** The group of an attribute with four values, after [trim] and [split]. *)
Lemma four_values_parts sp0 x sp1 y sp2 w sp3 h sp4 :
  is_spaces sp0 = true -> is_token x = true ->
  is_separator sp1 = true -> is_token y = true ->
  is_separator sp2 = true -> is_token w = true ->
  is_separator sp3 = true -> is_token h = true ->
  is_spaces sp4 = true ->
  split_spaces false
    (trim (sp0 ++ x ++ sp1 ++ y ++ sp2 ++ w ++ sp3 ++ h ++ sp4)) = [x; y; w; h].
Proof.
  intros H0 Hx [H1 N1]%separator_spaces Hy [H2 N2]%separator_spaces Hw
    [H3 N3]%separator_spaces Hh H4.
  replace (x ++ sp1 ++ y ++ sp2 ++ w ++ sp3 ++ h ++ sp4)%string
    with ((x ++ sp1 ++ y ++ sp2 ++ w ++ sp3 ++ h) ++ sp4)%string
    by (by rewrite !append_assoc).
  rewrite trim_core; [by apply split_spaces_four|done|done|by apply token_starts|].
  rewrite !string_rev_app, !append_assoc. by apply token_starts, token_rev.
Qed.

Lemma four_values_group sp0 x sp1 y sp2 w sp3 h sp4 :
  is_spaces sp0 = true -> is_token x = true ->
  is_separator sp1 = true -> is_token y = true ->
  is_separator sp2 = true -> is_token w = true ->
  is_separator sp3 = true -> is_token h = true ->
  is_spaces sp4 = true ->
  let group := (sp0 ++ x ++ sp1 ++ y ++ sp2 ++ w ++ sp3 ++ h ++ sp4)%string in
  group <> "" /\ all_chars (fun c => negb (Ascii.eqb c dquote)) group = true.
Proof.
  intros H0 Hx [H1 N1]%separator_spaces Hy [H2 N2]%separator_spaces Hw
    [H3 N3]%separator_spaces Hh H4 group. split.
  - intros E. apply (f_equal String.length) in E. unfold group in E.
    rewrite !append_length in E. destruct x; [done|]. simpl in E. lia.
  - unfold group. rewrite !all_chars_app.
    repeat (apply andb_true_iff; split);
      (by apply spaces_no_quote) || (by apply token_no_quote).
Qed.

(** The first viewBox attribute of a text is found. *)
Lemma match_viewBox_attribute_text pre sp_a sp_b group post :
  occurs_ci "viewBox" (pre ++ "viewBo") = false ->
  is_spaces sp_a = true ->
  is_spaces sp_b = true ->
  group <> "" ->
  all_chars (fun c => negb (Ascii.eqb c dquote)) group = true ->
  match_viewBox (pre ++ viewBox_attribute sp_a sp_b group ++ post) = Some group.
Proof.
  intros Hpre Ha Hb Hne Hq.
  assert (E : (viewBox_attribute sp_a sp_b group ++ post)%string =
              ("viewBo" ++ ("x" ++ sp_a ++ "=" ++ sp_b
                 ++ String dquote (group ++ String dquote post)))%string).
  { unfold viewBox_attribute.
    rewrite !append_assoc, (append_cons dquote), (append_assoc group),
      (append_cons dquote "" post), append_nil_l.
    reflexivity. }
  rewrite E, match_viewBox_skip by (done || simpl; lia).
  apply match_viewBox_found.
  by apply (match_viewBox_here_attribute sp_a sp_b group post).
Qed.

Section PageSizeProperties.

Context {number : Type}.
Variable Number : string -> number.
Variable isFinite : number -> bool.
Variable nonpositive : number -> bool.

Lemma pageSize_four_values svgText :
  pageSize Number isFinite nonpositive svgText =
  four_values_policy Number isFinite nonpositive svgText.
Proof.
  unfold pageSize, getPageSizeFromViewBox, four_values_policy.
  destruct (match_viewBox svgText) as [group|]; [|done].
  destruct (split_spaces false (trim group)) as [|x [|y [|w [|h [|z rest]]]]];
    try done.
  cbn -[Nat.eqb]. cbn [Nat.eqb length].
  destruct (isFinite (Number x)), (isFinite (Number y)),
    (isFinite (Number w)), (isFinite (Number h)); simpl; try done.
  by destruct (nonpositive (Number w)), (nonpositive (Number h)).
Qed.

(** C8, as the service has it.  The page size is the width and height
    of the viewBox when the text has a viewBox attribute in double
    quotes whose value is exactly four values separated by spaces, all
    four of them finite numbers, the last two positive; for every other
    text whose first viewBox attribute has four values, and for every
    text in which the word viewBox does not occur, it is A4. *)
Theorem C8_page_size_from_four_finite_values :
  (forall svgText,
     pageSize Number isFinite nonpositive svgText =
     four_values_policy Number isFinite nonpositive svgText) /\
  (forall pre sp_a sp_b sp0 x sp1 y sp2 w sp3 h sp4 post,
     occurs_ci "viewBox" (pre ++ "viewBo") = false ->
     is_spaces sp_a = true -> is_spaces sp_b = true ->
     is_spaces sp0 = true -> is_token x = true ->
     is_separator sp1 = true -> is_token y = true ->
     is_separator sp2 = true -> is_token w = true ->
     is_separator sp3 = true -> is_token h = true ->
     is_spaces sp4 = true ->
     pageSize Number isFinite nonpositive
       (pre ++ viewBox_attribute sp_a sp_b
                 (sp0 ++ x ++ sp1 ++ y ++ sp2 ++ w ++ sp3 ++ h ++ sp4) ++ post) =
     if isFinite (Number x) && isFinite (Number y)
        && isFinite (Number w) && isFinite (Number h)
        && negb (nonpositive (Number w)) && negb (nonpositive (Number h))
     then Custom (Number w) (Number h)
     else A4) /\
  (forall svgText,
     occurs_ci "viewBox" svgText = false ->
     pageSize Number isFinite nonpositive svgText = A4).
Proof.
  split; [exact pageSize_four_values|]. split.
  - intros pre sp_a sp_b sp0 x sp1 y sp2 w sp3 h sp4 post
      Hpre Ha Hb H0 Hx H1 Hy H2 Hw H3 Hh H4.
    rewrite pageSize_four_values. unfold four_values_policy.
    destruct (four_values_group sp0 x sp1 y sp2 w sp3 h sp4) as [Hne Hq]; try done.
    rewrite match_viewBox_attribute_text by done.
    rewrite four_values_parts by done. reflexivity.
  - intros svgText H. unfold pageSize, getPageSizeFromViewBox.
    by rewrite match_viewBox_absent.
Qed.

End PageSizeProperties.

(** The viewBox holds width 300 and height 200, both positive and finite,
    after a first value that is not finite: the declared size would be
    300 by 200, the page is A4. *)
Lemma C8_finite_dimensions_are_not_enough :
  let svgText := Scenario.svg (Scenario.attr "viewBox" "Infinity 0 300 200") in
  declared_size_policy integer_Number integer_isFinite integer_nonpositive svgText
    = Custom (Finite 300) (Finite 200) /\
  pageSize integer_Number integer_isFinite integer_nonpositive svgText = A4 /\
  pageSize integer_Number integer_isFinite integer_nonpositive svgText
    <> declared_size_policy integer_Number integer_isFinite integer_nonpositive svgText.
Proof. by vm_compute. Qed.

Lemma C8_witness :
  pageSize integer_Number integer_isFinite integer_nonpositive
    (Scenario.svg (Scenario.attr "viewBox" "0 0 300 200"))
  = Custom (Finite 300) (Finite 200) /\
  pageSize integer_Number integer_isFinite integer_nonpositive
    (Scenario.svg (Scenario.attr "width" "300"))
  = A4.
Proof.
  destruct (C8_page_size_from_four_finite_values
              integer_Number integer_isFinite integer_nonpositive)
    as (_ & Hattr & Habsent).
  split.
  - apply (Hattr "<svg " "" "" "" "0" " " "0" " " "300" " " "200" "" "></svg>");
      reflexivity.
  - apply Habsent. reflexivity.
Defined.

(** * The other paths of the handlers *)

(** ** Shape of the responses *)

Lemma cors_json st j : corsHeaders ⊆ headers (json_response st j).
Proof. unfold json_response. simpl. apply insert_subseteq. by vm_compute. Qed.

Lemma cors_view b : corsHeaders ⊆ headers (view_response b).
Proof.
  unfold view_response. simpl.
  do 7 (etrans; [|apply insert_subseteq; by vm_compute]). done.
Qed.

Lemma cors_pdf b n : corsHeaders ⊆ headers (pdf_response b n).
Proof.
  unfold pdf_response. simpl.
  do 8 (etrans; [|apply insert_subseteq; by vm_compute]). done.
Qed.

Lemma well_formed_json req st j msg :
  st = 400 \/ st = 403 \/ st = 404 \/ st = 500 ->
  j !! 0%nat = Some ("error", JString msg) ->
  well_formed req (json_response st j).
Proof.
  intros Hst Hj. split; [apply cors_json|]. split; [simpl; lia|].
  simpl. split; [lia|]. split; [by vm_compute|]. eauto.
Qed.

Lemma well_formed_error req st msg :
  st = 400 \/ st = 403 \/ st = 404 \/ st = 500 ->
  well_formed req (error_response st msg).
Proof. intros Hst. by eapply well_formed_json. Qed.

Lemma well_formed_pdf req b n : well_formed req (pdf_response b n).
Proof.
  split; [apply cors_pdf|]. split; [by left|]. simpl. split; [done|].
  rewrite lookup_insert_ne by done. by vm_compute.
Qed.

Lemma well_formed_view req b : well_formed req (view_response b).
Proof.
  split; [apply cors_view|]. split; [by left|]. simpl. split; [done|].
  by vm_compute.
Qed.

Lemma validate_well_formed w req db r ev :
  validate w req db = (Responded r, ev) -> well_formed req r.
Proof.
  unfold validate.
  destruct (String.eqb (method req) "OPTIONS") eqn:Hm.
  { intros [= <- <-]. apply String.eqb_eq in Hm.
    split; [done|]. split; [by left|]. done. }
  repeat case_match; intros [= <- <-];
    try (apply well_formed_error; lia);
    by (eapply well_formed_json; [lia|done]).
Qed.

Lemma render_well_formed w req l fileData n :
  well_formed req (render w l fileData n).1.
Proof.
  unfold render, normalize, stamp_and_deliver, internal_error.
  repeat case_match; simplify_eq; simpl;
    try (apply well_formed_error; lia); apply well_formed_pdf.
Qed.

(** Every response of [secure-print] carries the two CORS headers and has
    one of the statuses 200, 400, 403, 404 and 500.  Document bytes go out
    with status 200 and content type [application/pdf] only; every JSON
    body goes with another status, has the content type
    [application/json] and starts with the member [error]; the empty body
    is the answer to OPTIONS. *)
Theorem secure_print_response_well_formed w req db :
  exists r, (secure_print w req db).1.1 = Responded r /\ well_formed req r.
Proof.
  destruct (secure_print_outcome w req db)
    as [r ev Hv|l ev Hv Hd|l ev fileData Hv Hd Hu|l ev fileData r ev' Hv Hd Hu Hr];
    simpl; eexists; (split; [done|]).
  - by eapply validate_well_formed.
  - apply well_formed_error; lia.
  - apply well_formed_error; lia.
  - replace r with (render w l fileData (remaining_prints (l_access l) - 1)).1
      by (by rewrite Hr).
    apply render_well_formed.
Qed.

(** ** The select comes first *)

(** The handler after a successful validation. *)
Lemma secure_print_validated w req db l ev :
  validate w req db = (Validated l, ev) ->
  secure_print w req db =
    let path := storage_path (l_document l) in
    let n := remaining_prints (l_access l) - 1 in
    match download w path with
    | None =>
        (Responded (error_response 500 "Failed to retrieve document"), db,
         ev ++ [EvDownload path])
    | Some fileData =>
        if update_error w then
          (Responded (error_response 500 "Failed to process print request"), db,
           ev ++ [EvDownload path; EvUpdate (l_access_id l) n])
        else
          (Responded (render w l fileData n).1,
           (log_print w l (update_remaining_prints (l_access_id l) n db)).1,
           ev ++ [EvDownload path; EvUpdate (l_access_id l) n;
                  EvInsert (print_log_entry l)] ++ (render w l fileData n).2)
    end.
Proof.
  intros Hv. pose proof (secure_print_outcome w req db) as Ho. cbv zeta.
  inversion Ho as [r' ev' Hv' E|l' ev' Hv' Hd E|l' ev' fileData Hv' Hd Hu E
                  |l' ev' fileData r' ev'' Hv' Hd Hu Hr E];
    rewrite Hv in Hv'; simplify_eq; rewrite Hd; try rewrite Hu; try done.
  by rewrite Hr.
Qed.

Lemma validate_grants w req db token id a document :
  carries req token ->
  grants w db token id a ->
  0 < remaining_prints a ->
  documents a = Some document ->
  validate w req db =
    (Validated {| l_session_token := token;
                  l_userAgent := or_else (hdr_user_agent req) "unknown";
                  l_ipAddress :=
                    or_else (hdr_x_forwarded_for req)
                      (or_else (hdr_cf_connecting_ip req) "unknown");
                  l_access_id := id;
                  l_access := a;
                  l_document := document |},
     [EvSelect token (clock_validate w)]).
Proof.
  intros Hc (He & Hl & Ht & Hn & Hu) Hr Hd.
  rewrite (validate_carries _ _ _ _ Hc). simpl.
  rewrite He, (select_access_single db token _ id a); auto.
  simpl. rewrite Hd. by destruct (remaining_prints a <=? 0) eqn:E; [lia|].
Qed.

(** A request that is not a preflight and whose body holds a non-empty
    [session_token] starts with the select on that token at the time of
    the clock; for every other request (a preflight, a body that is not
    JSON, a token that is missing or empty) nothing leaves the process and
    the database stays as it was. *)
Theorem select_comes_first w req db :
  let res := secure_print w req db in
  (exists token rest,
     carries req token /\ res.2 = EvSelect token (clock_validate w) :: rest) \/
  ((forall token, ~ carries req token) /\ res.2 = [] /\ res.1.2 = db).
Proof.
  cbv zeta.
  destruct (String.eqb (method req) "OPTIONS") eqn:Hm.
  { right. split; [intros token (Hm' & _); congruence|].
    rewrite (secure_print_rejected w req db preflight_response []); [done|].
    unfold validate. by rewrite Hm. }
  destruct (json_session_token req) as [tok|] eqn:Hj.
  2: { right. split; [intros token (_ & Hj' & _); congruence|].
       rewrite (secure_print_rejected w req db internal_error []); [done|].
       unfold validate. by rewrite Hm, Hj. }
  destruct (falsy tok) eqn:Hf.
  { right. split.
    - intros token (_ & Hj' & Hne). rewrite Hj in Hj'. simplify_eq. by destruct token.
    - rewrite (secure_print_rejected w req db
                 (error_response 400 "Session token required") []); [done|].
      unfold validate. by rewrite Hm, Hj, Hf. }
  left. apply falsy_false in Hf as (token & -> & Hne). exists token.
  assert (Hc : carries req token) by done.
  assert (Hev : (validate w req db).2 = [EvSelect token (clock_validate w)]).
  { rewrite (validate_carries _ _ _ _ Hc). simpl. repeat case_match; done. }
  destruct (validate w req db) as [t ev] eqn:Hv. simpl in Hev. subst ev.
  destruct (validate_thread w req db) as [[r Hr]|[l Hl]];
    rewrite Hv in *; simpl in *; subst t.
  - rewrite (secure_print_rejected _ _ _ _ _ Hv). simpl. eauto.
  - rewrite (secure_print_validated _ _ _ _ _ Hv). cbv zeta.
    repeat case_match; simpl; eauto.
Qed.

(** ** Failures before the count is written *)

(** [grants] on a concrete world and database. *)
Ltac grants_by_computation :=
  split; [reflexivity|]; split; [vm_compute; reflexivity|];
  split; [reflexivity|]; split; [reflexivity|];
  refine (bool_decide_unpack _ _); vm_compute; exact I.

(** A grant with prints left whose row embeds no document is answered
    with status 404 and [{ error: 'Document not found' }]: the storage is
    not asked and the database is left as it was. *)
Theorem grant_without_document_not_found w req db token id a :
  carries req token ->
  grants w db token id a ->
  0 < remaining_prints a ->
  documents a = None ->
  secure_print w req db =
    (Responded (error_response 404 "Document not found"), db,
     [EvSelect token (clock_validate w)]).
Proof.
  intros Hc (He & Hl & Ht & Hn & Hu) Hr Hd.
  apply secure_print_rejected. rewrite (validate_carries _ _ _ _ Hc). simpl.
  rewrite He, (select_access_single db token _ id a); auto.
  simpl. rewrite Hd. by destruct (remaining_prints a <=? 0) eqn:E; [lia|].
Qed.

Lemma grant_without_document_witness :
  secure_print Scenario.world (Scenario.request "tok-gone") (Cases.db_no_document 3) =
    (Responded (error_response 404 "Document not found"), Cases.db_no_document 3,
     [EvSelect "tok-gone" 1000]).
Proof.
  apply (grant_without_document_not_found
           Scenario.world (Scenario.request "tok-gone") (Cases.db_no_document 3)
           "tok-gone" "grant-3" (Cases.grant_no_document 3)).
  - split; [reflexivity|split; [reflexivity|discriminate]].
  - grants_by_computation.
  - reflexivity.
  - reflexivity.
Defined.

(** The file cannot be retrieved from the bucket: the request is answered
    with status 500 and [{ error: 'Failed to retrieve document' }] before
    the update is issued, so the print is not consumed and nothing is
    logged. *)
Theorem download_failure_consumes_nothing w req db token id a document :
  carries req token ->
  grants w db token id a ->
  0 < remaining_prints a ->
  documents a = Some document ->
  download w (storage_path document) = None ->
  secure_print w req db =
    (Responded (error_response 500 "Failed to retrieve document"), db,
     [EvSelect token (clock_validate w); EvDownload (storage_path document)]).
Proof.
  intros Hc Hg Hr Hd Hf.
  rewrite (secure_print_validated _ _ _ _ _ (validate_grants _ _ _ _ _ _ _ Hc Hg Hr Hd)).
  simpl. by rewrite Hf.
Qed.

Lemma download_failure_witness :
  secure_print Cases.world_storage_down (Scenario.request "tok-abc") (Scenario.db 3) =
    (Responded (error_response 500 "Failed to retrieve document"), Scenario.db 3,
     [EvSelect "tok-abc" 1000; EvDownload "uploads/ticket.pdf"]).
Proof.
  apply (download_failure_consumes_nothing
           Cases.world_storage_down (Scenario.request "tok-abc") (Scenario.db 3)
           "tok-abc" "grant-1" (Scenario.grant 3) Scenario.doc0).
  - split; [reflexivity|split; [reflexivity|discriminate]].
  - grants_by_computation.
  - reflexivity.
  - reflexivity.
  - reflexivity.
Defined.

(** The update comes back with an error: the request is answered with
    status 500 and [{ error: 'Failed to process print request' }]; no
    document goes out, no entry is inserted into [print_logs] and the
    database is left as it was. *)
Theorem update_failure_delivers_nothing w req db token id a document fileData :
  carries req token ->
  grants w db token id a ->
  0 < remaining_prints a ->
  documents a = Some document ->
  download w (storage_path document) = Some fileData ->
  update_error w = true ->
  secure_print w req db =
    (Responded (error_response 500 "Failed to process print request"), db,
     [EvSelect token (clock_validate w); EvDownload (storage_path document);
      EvUpdate id (remaining_prints a - 1)]).
Proof.
  intros Hc Hg Hr Hd Hf Hu.
  rewrite (secure_print_validated _ _ _ _ _ (validate_grants _ _ _ _ _ _ _ Hc Hg Hr Hd)).
  simpl. by rewrite Hf, Hu.
Qed.

Lemma update_failure_witness :
  secure_print Cases.world_update_down (Scenario.request "tok-abc") (Scenario.db 3) =
    (Responded (error_response 500 "Failed to process print request"), Scenario.db 3,
     [EvSelect "tok-abc" 1000; EvDownload "uploads/ticket.pdf";
      EvUpdate "grant-1" 2]).
Proof.
  apply (update_failure_delivers_nothing
           Cases.world_update_down (Scenario.request "tok-abc") (Scenario.db 3)
           "tok-abc" "grant-1" (Scenario.grant 3) Scenario.doc0 Scenario.pdf_bytes).
  - split; [reflexivity|split; [reflexivity|discriminate]].
  - grants_by_computation.
  - reflexivity.
  - reflexivity.
  - reflexivity.
  - reflexivity.
Defined.

(** ** After the count is written *)

Lemma render_status w l fileData n :
  status (render w l fileData n).1 = 500 \/
  exists b, (render w l fileData n).1 = pdf_response b n.
Proof.
  unfold render, normalize, stamp_and_deliver, internal_error.
  repeat case_match; simplify_eq; simpl; eauto.
Qed.

(** Once the update has come back without error the print is consumed,
    whatever happens afterwards: the grant is stored with one print less
    and every other row is as it was, also when the conversion, the load
    or the stamping then fails and the request is answered with status
    500.  The response is that 500 or the document with the new count. *)
Theorem consumed_print_is_not_restored w req db token id a document fileData :
  carries req token ->
  grants w db token id a ->
  0 < remaining_prints a ->
  documents a = Some document ->
  download w (storage_path document) = Some fileData ->
  update_error w = false ->
  let res := secure_print w req db in
  document_access res.1.2 =
    <[id := set_remaining_prints (remaining_prints a - 1) a]> (document_access db) /\
  exists r, res.1.1 = Responded r /\
    (status r = 500 \/ exists b, r = pdf_response b (remaining_prints a - 1)).
Proof.
  intros Hc Hg Hr Hd Hf Hu res. subst res.
  rewrite (secure_print_validated _ _ _ _ _ (validate_grants _ _ _ _ _ _ _ Hc Hg Hr Hd)).
  cbn -[log_print render update_remaining_prints]. rewrite Hf, Hu.
  cbn -[log_print render update_remaining_prints]. split.
  - rewrite log_print_document_access. simpl.
    destruct Hg as (_ & Hl & _).
    apply map_eq. intros k. rewrite lookup_alter.
    destruct (decide (id = k)) as [<-|Hne].
    + by rewrite Hl, lookup_insert_eq.
    + by rewrite lookup_insert_ne.
  - eexists. split; [done|]. apply render_status.
Qed.

Lemma consumed_print_witness :
  let res := secure_print Cases.world_load_fails (Scenario.request "tok-abc")
               (Scenario.db 3) in
  document_access res.1.2 =
    <["grant-1" := set_remaining_prints (remaining_prints (Scenario.grant 3) - 1)
                     (Scenario.grant 3)]> (document_access (Scenario.db 3)) /\
  exists r, res.1.1 = Responded r /\
    (status r = 500 \/
     exists b, r = pdf_response b (remaining_prints (Scenario.grant 3) - 1)).
Proof.
  apply (consumed_print_is_not_restored
           Cases.world_load_fails (Scenario.request "tok-abc") (Scenario.db 3)
           "tok-abc" "grant-1" (Scenario.grant 3) Scenario.doc0 Scenario.pdf_bytes).
  - split; [reflexivity|split; [reflexivity|discriminate]].
  - grants_by_computation.
  - reflexivity.
  - reflexivity.
  - reflexivity.
  - reflexivity.
Defined.

Lemma validate_with_insert_error b w req db :
  validate (with_insert_error b w) req db = validate w req db.
Proof. reflexivity. Qed.

Lemma render_with_insert_error b w l fileData n :
  render (with_insert_error b w) l fileData n = render w l fileData n.
Proof. reflexivity. Qed.

(** A failed insert into [print_logs] does not show: with the insert
    failing and with the insert succeeding the request gets the same
    response, makes the same calls and leaves the same [document_access];
    the failed insert leaves [print_logs] as it was, the successful one
    appends at most the one entry it was called with. *)
Theorem audit_failure_is_inert w req db :
  let quiet := secure_print (with_insert_error true w) req db in
  let logged := secure_print (with_insert_error false w) req db in
  quiet.1.1 = logged.1.1 /\
  quiet.2 = logged.2 /\
  document_access quiet.1.2 = document_access logged.1.2 /\
  print_logs quiet.1.2 = print_logs db /\
  (print_logs logged.1.2 = print_logs db \/
   exists entry, print_logs logged.1.2 = print_logs db ++ [entry] /\
                 EvInsert entry ∈ logged.2).
Proof.
  cbv zeta.
  destruct (validate w req db) as [t ev] eqn:Hv.
  destruct (validate_thread w req db) as [[r Hr]|[l Hl]];
    rewrite Hv in *; simpl in *; subst t.
  - rewrite (secure_print_rejected (with_insert_error true w) req db r ev),
      (secure_print_rejected (with_insert_error false w) req db r ev)
      by (by rewrite validate_with_insert_error).
    simpl. repeat split; auto.
  - rewrite (secure_print_validated (with_insert_error true w) req db l ev),
      (secure_print_validated (with_insert_error false w) req db l ev)
      by (by rewrite validate_with_insert_error).
    cbv zeta.
    change (download (with_insert_error true w)) with (download w).
    change (download (with_insert_error false w)) with (download w).
    change (update_error (with_insert_error true w)) with (update_error w).
    change (update_error (with_insert_error false w)) with (update_error w).
    destruct (download w (storage_path (l_document l))) as [fileData|];
      [|simpl; repeat split; auto].
    destruct (update_error w); [simpl; repeat split; auto|].
    rewrite !render_with_insert_error.
    simpl. repeat split; auto. right. eexists. split; [done|]. set_solver.
Qed.

(** ** Refusals *)

(** One valid grant carries the token, whatever rows that have expired
    carry: the select is that row. *)
Lemma select_access_sole db token now id r :
  document_access db !! id = Some r ->
  session_token r = token ->
  now < expires_at r ->
  (forall id' r', document_access db !! id' = Some r' ->
                  session_token r' = token -> now < expires_at r' -> id' = id) ->
  select_access db token now = [(id, r)].
Proof.
  intros Hl Ht Hn Hu.
  assert (Hin : (id, r) ∈ select_access db token now)
    by (apply select_access_spec; auto).
  assert (Hall : forall p, p ∈ select_access db token now -> p = (id, r)).
  { intros [id' r'] Hp. apply select_access_spec in Hp as (Hl' & Ht' & Hn').
    assert (id' = id) by eauto. subst. congruence. }
  pose proof (select_access_NoDup db token now) as Hnd.
  destruct (select_access db token now) as [|p [|q rest]].
  - inversion Hin.
  - f_equal. apply Hall. left.
  - assert (p = (id, r)) by (apply Hall; left).
    assert (q = (id, r)) by (apply Hall; right; left).
    subst. inversion Hnd as [|? ? Hnot _]. exfalso. apply Hnot. left.
Qed.

(** The select does not come back with exactly one row. *)
Lemma maybeSingle_not_single db token now :
  (~ exists id a,
       document_access db !! id = Some a /\ session_token a = token /\
       now < expires_at a /\
       (forall id' a', document_access db !! id' = Some a' ->
          session_token a' = token -> now < expires_at a' -> id' = id)) ->
  match maybeSingle (select_access db token now) with
  | QueryData (Some _) => False
  | _ => True
  end.
Proof.
  intros Hn. destruct (select_access db token now) as [|[id a] [|? ?]] eqn:Hsel;
    simpl; try done.
  apply Hn. exists id, a.
  assert (Hin : (id, a) ∈ select_access db token now) by (rewrite Hsel; left).
  apply select_access_spec in Hin as (Hl & Ht & Hnow). repeat split; try done.
  intros id' a' Hl' Ht' Hn'.
  assert (Hin' : (id', a') ∈ select_access db token now)
    by (by apply select_access_spec).
  rewrite Hsel in Hin'. apply list_elem_of_singleton in Hin'. congruence.
Qed.

Lemma render_not_403 w l fileData n : status (render w l fileData n).1 <> 403.
Proof.
  destruct (render_status w l fileData n) as [Hs|[b ->]]; [by rewrite Hs|done].
Qed.

(** A request that carries a token is answered with status 403 and
    [{ error: 'Invalid or expired session' }] exactly when the select
    comes back with an error or does not find one single unexpired grant
    with the token: no such grant, or more than one.  A failure of the
    database and a token that two unexpired grants carry are refused like
    an unknown token. *)
Theorem invalid_session_iff_not_one_live_grant w req db token :
  carries req token ->
  ((secure_print w req db).1.1 = Responded invalid_session <->
   ~ (select_error w = false /\
      exists id a,
        document_access db !! id = Some a /\ session_token a = token /\
        clock_validate w < expires_at a /\
        (forall id' a', document_access db !! id' = Some a' ->
           session_token a' = token -> clock_validate w < expires_at a' ->
           id' = id))).
Proof.
  intros Hc. split.
  - intros Hr (He & id & a & Hl & Ht & Hn & Hu).
    pose proof (validate_carries w req db token Hc) as Hv. cbv zeta in Hv.
    rewrite He, (select_access_sole db token _ id a) in Hv by done. simpl in Hv.
    destruct (remaining_prints a <=? 0) eqn:Hrem.
    { rewrite (secure_print_rejected _ _ _ _ _ Hv) in Hr. simpl in Hr. done. }
    destruct (documents a) as [document|] eqn:Hdoc.
    + rewrite (secure_print_validated _ _ _ _ _ Hv) in Hr. cbv zeta in Hr.
      revert Hr. simpl.
      destruct (download w (storage_path document)) as [fileData|]; [|done].
      destruct (update_error w); [done|]. simpl. intros [= Hr].
      by eapply render_not_403; rewrite Hr.
    + rewrite (secure_print_rejected _ _ _ _ _ Hv) in Hr. simpl in Hr. done.
  - intros Hn. 
    assert (Hv : validate w req db =
                 (Responded invalid_session, [EvSelect token (clock_validate w)])).
    { rewrite (validate_carries w req db token Hc). cbv zeta.
      destruct (select_error w) eqn:He; [done|].
      assert (Hm := maybeSingle_not_single db token (clock_validate w)).
      destruct (maybeSingle _) as [|[[id a]|]]; try done.
      exfalso. apply Hm. intros Hex. apply Hn. by split. }
    by rewrite (secure_print_rejected _ _ _ _ _ Hv).
Qed.

Lemma invalid_session_witness :
  (secure_print Scenario.world (Scenario.request "tok-abc") Cases.db_twice).1.1
    = Responded invalid_session <->
  ~ (select_error Scenario.world = false /\
     exists id a,
       document_access Cases.db_twice !! id = Some a /\
       session_token a = "tok-abc"%string /\
       clock_validate Scenario.world < expires_at a /\
       (forall id' a', document_access Cases.db_twice !! id' = Some a' ->
          session_token a' = "tok-abc"%string ->
          clock_validate Scenario.world < expires_at a' -> id' = id)).
Proof.
  apply (invalid_session_iff_not_one_live_grant
           Scenario.world (Scenario.request "tok-abc") Cases.db_twice "tok-abc").
  split; [reflexivity|split; [reflexivity|discriminate]].
Defined.

(** A token that two unexpired grants carry is refused, and no print is
    taken from either. *)
Example token_on_two_grants_is_refused :
  let res := secure_print Scenario.world (Scenario.request "tok-abc") Cases.db_twice in
  res.1.1 = Responded invalid_session /\
  remaining_of res.1.2 "grant-1" = Some 3 /\
  remaining_of res.1.2 "grant-9" = Some 5.
Proof. by vm_compute. Qed.

(** The answer [{ error: 'Print limit exceeded', remaining_prints: 0 }]
    is given only to a request that carries the token of a grant that
    has not expired and has no print left, and it leaves the database as
    it was: unlike [Invalid or expired session], it tells that the token
    is a live one. *)
Theorem limit_exceeded_only_for_a_live_grant w req db :
  (secure_print w req db).1.1 = Responded print_limit_exceeded ->
  (secure_print w req db).1.2 = db /\
  exists token id a,
    carries req token /\
    select_error w = false /\
    document_access db !! id = Some a /\
    session_token a = token /\
    clock_validate w < expires_at a /\
    remaining_prints a <= 0.
Proof.
  destruct (secure_print_outcome w req db)
    as [r ev Hv|l ev Hv Hd|l ev fileData Hv Hd Hu|l ev fileData r ev' Hv Hd Hu Hr];
    simpl; try done.
  - intros [= ->]. split; [done|]. revert Hv. unfold validate.
    destruct (String.eqb (method req) "OPTIONS") eqn:Hm; [done|].
    destruct (json_session_token req) as [tok|] eqn:Hj; [|done].
    destruct (falsy tok) eqn:Hf; [done|].
    apply falsy_false in Hf as (token & -> & Hne). cbv zeta. simpl.
    destruct (select_error w) eqn:He; [done|].
    destruct (select_access db token (clock_validate w))
      as [|[id a] [|? ?]] eqn:Hsel; simpl; try done.
    destruct (remaining_prints a <=? 0) eqn:Hrem; [|by destruct (documents a)].
    intros _. exists token, id, a.
    assert (Hin : (id, a) ∈ select_access db token (clock_validate w))
      by (rewrite Hsel; left).
    apply select_access_spec in Hin as (Hl & Ht & Hnow).
    repeat split; try done. lia.
  - intros [= ->]. exfalso.
    eapply (render_not_403 w l fileData). by rewrite Hr.
Qed.

Lemma limit_exceeded_witness :
  let res := secure_print Scenario.world (Scenario.request "tok-abc") (Scenario.db 0) in
  res.1.2 = Scenario.db 0 /\
  exists token id a,
    carries (Scenario.request "tok-abc") token /\
    select_error Scenario.world = false /\
    document_access (Scenario.db 0) !! id = Some a /\
    session_token a = token /\
    clock_validate Scenario.world < expires_at a /\
    remaining_prints a <= 0.
Proof.
  intros res.
  apply (limit_exceeded_only_for_a_live_grant
           Scenario.world (Scenario.request "tok-abc") (Scenario.db 0)).
  vm_compute. reflexivity.
Defined.

(** ** What a delivery tells *)

(** A document goes out only for a request that carries a non-empty
    token, on a select without error, for a grant that carries the token,
    has not expired, has at least one print left and embeds a document
    that the bucket gave; and no other unexpired row carries the token. *)
Theorem delivery_only_on_a_valid_grant w req db r db' tr b :
  secure_print w req db = (Responded r, db', tr) ->
  delivers r b ->
  exists token id a document fileData,
    carries req token /\
    select_error w = false /\
    document_access db !! id = Some a /\
    session_token a = token /\
    clock_validate w < expires_at a /\
    0 < remaining_prints a /\
    (forall id' a', document_access db !! id' = Some a' ->
       session_token a' = token -> clock_validate w < expires_at a' -> id' = id) /\
    documents a = Some document /\
    download w (storage_path document) = Some fileData.
Proof.
  intros H Hdel.
  destruct (secure_print_delivery _ _ _ _ _ _ _ H Hdel)
    as (l & fileData & ev & ev' & Hv & Hd & _).
  pose proof (validate_lookup _ _ _ _ _ Hv) as (Hl & Ht & Hn).
  apply validate_Validated in Hv as (Hc & He & Hsel & Hr & Hdoc & _).
  exists (l_session_token l), (l_access_id l), (l_access l), (l_document l), fileData.
  repeat split; try done; try apply Hc.
  intros id' a' Hl' Ht' Hn'.
  assert (Hin : (id', a') ∈ select_access db (l_session_token l) (clock_validate w))
    by (by apply select_access_spec).
  rewrite Hsel in Hin. apply list_elem_of_singleton in Hin. congruence.
Qed.

Lemma delivery_grant_witness :
  exists token id a document fileData,
    carries (Scenario.request "tok-abc") token /\
    select_error Scenario.world = false /\
    document_access (Scenario.db 3) !! id = Some a /\
    session_token a = token /\
    clock_validate Scenario.world < expires_at a /\
    0 < remaining_prints a /\
    (forall id' a', document_access (Scenario.db 3) !! id' = Some a' ->
       session_token a' = token -> clock_validate Scenario.world < expires_at a' ->
       id' = id) /\
    documents a = Some document /\
    download Scenario.world (storage_path document) = Some fileData.
Proof.
  apply (delivery_only_on_a_valid_grant
           Scenario.world (Scenario.request "tok-abc") (Scenario.db 3)
           (pdf_response Scenario.stamped_bytes 2)
           (secure_print Scenario.world (Scenario.request "tok-abc") (Scenario.db 3)).1.2
           (secure_print Scenario.world (Scenario.request "tok-abc") (Scenario.db 3)).2
           Scenario.stamped_bytes).
  - vm_compute. reflexivity.
  - split; reflexivity.
Defined.

(** Every document that goes out is marked for display, not for storage:
    content type [application/pdf], disposition [inline], no caching
    ([no-store], [Pragma: no-cache], [Expires: 0]), [noopen] and
    [nosniff].  Its headers are those of [secure-render] and
    [X-Remaining-Prints] besides, whose count is never negative. *)
Theorem delivery_is_marked_private w req db r db' tr b :
  secure_print w req db = (Responded r, db', tr) ->
  delivers r b ->
  exists n,
    0 <= n /\
    headers r = <["X-Remaining-Prints" := toString n]> (headers (view_response b)) /\
    headers r !! "Content-Type" = Some "application/pdf" /\
    headers r !! "Content-Disposition" = Some "inline" /\
    headers r !! "Cache-Control" = Some "no-store, no-cache, must-revalidate, private" /\
    headers r !! "Pragma" = Some "no-cache" /\
    headers r !! "Expires" = Some "0" /\
    headers r !! "X-Download-Options" = Some "noopen" /\
    headers r !! "X-Content-Type-Options" = Some "nosniff".
Proof.
  intros H Hdel.
  destruct (secure_print_delivery _ _ _ _ _ _ _ H Hdel)
    as (l & fileData & ev & ev' & Hv & Hd & Hu & Hr & _).
  apply validate_Validated in Hv as (_ & _ & _ & Hpos & _).
  destruct (render_delivery _ _ _ _ _ _ _ Hr Hdel)
    as (buf & ev1 & pdfDoc & stamped & _ & _ & _ & -> & _).
  exists (remaining_prints (l_access l) - 1). split; [lia|]. split; [done|].
  unfold pdf_response. simpl.
  rewrite !(lookup_insert_ne _ "X-Remaining-Prints") by done.
  repeat split; by vm_compute.
Qed.

Lemma delivery_headers_witness :
  let r := pdf_response Scenario.stamped_bytes 2 in
  exists n,
    0 <= n /\
    headers r = <["X-Remaining-Prints" := toString n]>
                  (headers (view_response Scenario.stamped_bytes)) /\
    headers r !! "Content-Type" = Some "application/pdf" /\
    headers r !! "Content-Disposition" = Some "inline" /\
    headers r !! "Cache-Control" = Some "no-store, no-cache, must-revalidate, private" /\
    headers r !! "Pragma" = Some "no-cache" /\
    headers r !! "Expires" = Some "0" /\
    headers r !! "X-Download-Options" = Some "noopen" /\
    headers r !! "X-Content-Type-Options" = Some "nosniff".
Proof.
  intros r.
  apply (delivery_is_marked_private
           Scenario.world (Scenario.request "tok-abc") (Scenario.db 3)
           (pdf_response Scenario.stamped_bytes 2)
           (secure_print Scenario.world (Scenario.request "tok-abc") (Scenario.db 3)).1.2
           (secure_print Scenario.world (Scenario.request "tok-abc") (Scenario.db 3)).2
           Scenario.stamped_bytes).
  - vm_compute. reflexivity.
  - split; reflexivity.
Defined.

(** ** SVG originals, enhancement and stamping *)

Lemma substring_all s : substring 0 (String.length s) s = s.
Proof. induction s as [|c s IH]; simpl; by rewrite ?IH. Qed.

Lemma substring_suffix pre suf :
  substring (String.length pre) (String.length suf) (pre ++ suf)%string = suf.
Proof. induction pre as [|c pre IH]; simpl; [apply substring_all|done]. Qed.

Lemma substring_split s k :
  (k <= String.length s)%nat ->
  s = (substring 0 k s ++ substring k (String.length s - k) s)%string.
Proof.
  revert k. induction s as [|c s IH]; intros [|k] Hk; simpl in *; try lia.
  - done.
  - by rewrite substring_all.
  - rewrite append_cons. f_equal. apply IH. lia.
Qed.

Lemma endsWith_spec s suffix :
  endsWith s suffix = true <-> exists pre, s = (pre ++ suffix)%string.
Proof.
  unfold endsWith. rewrite andb_true_iff, Nat.leb_le, String.eqb_eq. split.
  - intros [Hle Hs]. exists (substring 0 (String.length s - String.length suffix) s).
    pose proof (substring_split s (String.length s - String.length suffix)
                  ltac:(lia)) as Hsp.
    replace (String.length s - (String.length s - String.length suffix))%nat
      with (String.length suffix) in Hsp by lia.
    by rewrite Hs in Hsp.
  - intros [pre ->]. rewrite append_length. split; [lia|].
    replace (String.length pre + String.length suffix - String.length suffix)%nat
      with (String.length pre) by lia.
    apply substring_suffix.
Qed.

Lemma toLowerCase_app a b :
  toLowerCase (a ++ b) = (toLowerCase a ++ toLowerCase b)%string.
Proof. induction a as [|c a IH]; simpl; by rewrite ?IH. Qed.

Lemma toLowerCase_split s x y :
  toLowerCase s = (x ++ y)%string ->
  exists a b, s = (a ++ b)%string /\ toLowerCase a = x /\ toLowerCase b = y.
Proof.
  revert x. induction s as [|c s IH]; intros x H.
  - destruct x; [|done]. rewrite append_nil_l in H.
    exists ""%string, ""%string. by rewrite <- H.
  - destruct x as [|d x].
    + rewrite append_nil_l in H. exists ""%string, (String c s). by rewrite <- H.
    + rewrite append_cons in H. simpl in H. injection H as Hc Hs. apply IH in Hs as (a & b & -> & Ha & Hb).
      exists (String c a), b. simpl. by rewrite Hc, Ha.
Qed.

(** A storage path names an SVG original exactly when it ends in
    [.svg] written in any letter case. *)
Theorem isSvg_iff_extension_in_any_case document :
  isSvg document = true <->
  exists stem ext,
    storage_path document = (stem ++ ext)%string /\ toLowerCase ext = ".svg"%string.
Proof.
  unfold isSvg. rewrite endsWith_spec. split.
  - intros [pre H]. apply toLowerCase_split in H as (a & b & ? & _ & ?). eauto.
  - intros (stem & ext & -> & H). exists (toLowerCase stem).
    by rewrite toLowerCase_app, H.
Qed.

(** What is loaded and stamped on a delivery.  For an SVG original it is
    the body with which the conversion delegate answered, with a status
    from 200 to 299, the one call to the URL of [SVG_TO_PDF_URL] or to
    the default URL with the text of the file; for every other original it
    is the stored file and the delegate is not called.  In both cases the
    enhancement step may still replace it. *)
Theorem converter_output_is_what_gets_stamped w req db r db' tr b :
  secure_print w req db = (Responded r, db', tr) ->
  delivers r b ->
  exists l ev fileData buf,
    validate w req db = (Validated l, ev) /\
    download w (storage_path (l_document l)) = Some fileData /\
    EvLoad (enhance w buf).1 ∈ tr /\
    if isSvg (l_document l) then
      let url := nullish (SVG_TO_PDF_URL w) default_svg_to_pdf_url in
      EvConvert url (text fileData) ∈ tr /\
      exists st, svg_fetch w url (text fileData) = FetchResponse st (Some buf) /\
                 200 <= st <= 299
    else
      buf = fileData /\ forall url svgText, EvConvert url svgText ∉ tr.
Proof.
  intros H Hdel.
  destruct (secure_print_delivery _ _ _ _ _ _ _ H Hdel)
    as (l & fileData & ev & ev' & Hv & Hd & Hu & Hr & _ & _ & ->).
  destruct (render_delivery _ _ _ _ _ _ _ Hr Hdel)
    as (buf & ev1 & pdfDoc & stamped & Hn & _ & _ & _ & _ & ->).
  exists l, ev, fileData, buf. split; [done|]. split; [done|].
  split; [rewrite !elem_of_app, !elem_of_cons; auto 15|].
  pose proof (validate_trace w req db) as Hev. rewrite Hv in Hev. simpl in Hev.
  assert (Hen : forall url svgText, EvConvert url svgText ∉ (enhance w buf).2).
  { intros url svgText. unfold enhance.
    repeat case_match; simpl;
      rewrite ?not_elem_of_cons; try split; try done; apply not_elem_of_nil. }
  revert Hn. unfold normalize. destruct (isSvg (l_document l)).
  - cbv zeta. destruct (svg_fetch w _ _) as [|st [converted|]] eqn:Hf;
      try (destruct (negb (ok st)) eqn:Hok); try done.
    intros [= -> <-].
    split; [rewrite !elem_of_app, !elem_of_cons; auto 15|]. exists st. split; [done|].
    unfold ok in Hok. apply negb_false_iff, andb_true_iff in Hok. lia.
  - intros [= -> <-]. split; [done|]. intros url svgText.
    specialize (Hen url svgText).
    destruct Hev as [->|(t & n & ->)];
      rewrite !not_elem_of_app, !not_elem_of_cons; repeat split; try done;
      apply not_elem_of_nil.
Qed.

Lemma converter_output_witness :
  let res := secure_print Cases.world_convert_up (Scenario.request "tok-svg")
               (Scenario.db_svg 3) in
  exists l ev fileData buf,
    validate Cases.world_convert_up (Scenario.request "tok-svg") (Scenario.db_svg 3)
      = (Validated l, ev) /\
    download Cases.world_convert_up (storage_path (l_document l)) = Some fileData /\
    EvLoad (enhance Cases.world_convert_up buf).1 ∈ res.2 /\
    if isSvg (l_document l) then
      let url := nullish (SVG_TO_PDF_URL Cases.world_convert_up)
                   default_svg_to_pdf_url in
      EvConvert url (text fileData) ∈ res.2 /\
      exists st, svg_fetch Cases.world_convert_up url (text fileData)
                   = FetchResponse st (Some buf) /\
                 200 <= st <= 299
    else
      buf = fileData /\ forall url svgText, EvConvert url svgText ∉ res.2.
Proof.
  intros res.
  apply (converter_output_is_what_gets_stamped
           Cases.world_convert_up (Scenario.request "tok-svg") (Scenario.db_svg 3)
           (pdf_response Scenario.stamped_bytes 2) res.1.2 res.2
           Scenario.stamped_bytes).
  - vm_compute. reflexivity.
  - split; reflexivity.
Defined.

(** The enhancement step replaces the buffer exactly on success.  With
    [PDF_ENHANCE_URL] set and not empty, an answer with a status from 200
    to 299 and a body that is not empty becomes the buffer, after the one
    call with the headers of the configuration and the buffer as body; and
    whenever the step gives back something else than the buffer it was
    given, it is such an answer. *)
Theorem enhancement_replaces_buffer_only_on_success w buf :
  (forall url st enhanced,
     PDF_ENHANCE_URL w = Some url -> url <> ""%string ->
     enhance_fetch w url (enhance_headers w) buf = FetchResponse st (Some enhanced) ->
     200 <= st <= 299 ->
     enhanced <> [] ->
     enhance w buf = (enhanced, [EvEnhance url (enhance_headers w) buf])) /\
  ((enhance w buf).1 = buf \/
   exists url st,
     PDF_ENHANCE_URL w = Some url /\ url <> ""%string /\
     enhance_fetch w url (enhance_headers w) buf
       = FetchResponse st (Some (enhance w buf).1) /\
     200 <= st <= 299 /\
     (enhance w buf).1 <> []).
Proof.
  split.
  - intros url st enhanced Hu Hne Hf Hst He. unfold enhance. rewrite Hu.
    destruct url as [|c url]; [done|]. simpl. rewrite Hf.
    replace (ok st) with true by (unfold ok; symmetry; apply andb_true_iff; lia).
    by destruct enhanced.
  - unfold enhance. destruct (PDF_ENHANCE_URL w) as [[|c url]|] eqn:Hu; simpl; auto.
    destruct (enhance_fetch w _ _ _) as [|st [[|x enhanced]|]] eqn:Hf; simpl; auto;
      destruct (ok st) eqn:Hok; simpl; auto.
    right. exists (String c url), st. unfold ok in Hok.
    apply andb_true_iff in Hok. repeat split; try done; lia.
Qed.

Lemma enhancement_success_witness :
  enhance Cases.world_enhance_up Scenario.pdf_bytes =
    (Cases.enhanced_bytes,
     [EvEnhance "https://enhance.example/v1"
        (enhance_headers Cases.world_enhance_up) Scenario.pdf_bytes]).
Proof.
  apply (proj1 (enhancement_replaces_buffer_only_on_success
                  Cases.world_enhance_up Scenario.pdf_bytes)
           "https://enhance.example/v1" 200 Cases.enhanced_bytes).
  - reflexivity.
  - discriminate.
  - reflexivity.
  - lia.
  - discriminate.
Defined.

Lemma enhance_call w buf e :
  e ∈ (enhance w buf).2 ->
  exists url,
    PDF_ENHANCE_URL w = Some url /\ url <> ""%string /\
    e = EvEnhance url (enhance_headers w) buf.
Proof.
  unfold enhance. destruct (PDF_ENHANCE_URL w) as [[|c url]|]; simpl;
    try by intros ?%elem_of_nil.
  intros ->%list_elem_of_singleton. by exists (String c url).
Qed.

Lemma enhance_headers_entries w h v :
  enhance_headers w !! h = Some v ->
  (h = "Content-Type"%string /\ v = "application/pdf"%string) \/
  (PDF_ENHANCE_API_KEY w = Some v /\ v <> ""%string /\
   h = or_else (PDF_ENHANCE_AUTH_HEADER_NAME w) "Authorization").
Proof.
  unfold enhance_headers. cbv zeta.
  destruct (PDF_ENHANCE_API_KEY w) as [[|c key]|]; simpl.
  - intros [-> <-]%lookup_singleton_Some. by left.
  - intros [[<- <-]|[_ [-> <-]%lookup_singleton_Some]]%lookup_insert_Some.
    + by right.
    + by left.
  - intros [-> <-]%lookup_singleton_Some. by left.
Qed.

Lemma normalize_no_enhance w document fileData url hdrs payload :
  EvEnhance url hdrs payload ∉ (normalize w document fileData).2.
Proof.
  unfold normalize. repeat case_match; simpl;
    rewrite ?not_elem_of_cons; repeat split; try done; apply not_elem_of_nil.
Qed.

Lemma stamp_no_enhance w l n buf url hdrs payload :
  EvEnhance url hdrs payload ∉ (stamp_and_deliver w l n buf).2.
Proof.
  unfold stamp_and_deliver. repeat case_match; simpl;
    rewrite ?not_elem_of_cons; repeat split; try done; apply not_elem_of_nil.
Qed.

(** The enhancement call goes nowhere but to the URL of [PDF_ENHANCE_URL],
    which is set and not empty, and carries nothing but the content type
    [application/pdf] and, when [PDF_ENHANCE_API_KEY] is set and not
    empty, that key under the name of [PDF_ENHANCE_AUTH_HEADER_NAME] or
    [Authorization]; such a key is always sent. *)
Theorem enhancement_call_carries_only_the_configured_key w req db url hdrs payload :
  EvEnhance url hdrs payload ∈ (secure_print w req db).2 ->
  PDF_ENHANCE_URL w = Some url /\ url <> ""%string /\
  hdrs = enhance_headers w /\
  (forall h v, hdrs !! h = Some v ->
     (h = "Content-Type"%string /\ v = "application/pdf"%string) \/
     (PDF_ENHANCE_API_KEY w = Some v /\ v <> ""%string /\
      h = or_else (PDF_ENHANCE_AUTH_HEADER_NAME w) "Authorization")) /\
  (forall key, PDF_ENHANCE_API_KEY w = Some key -> key <> ""%string ->
     hdrs !! or_else (PDF_ENHANCE_AUTH_HEADER_NAME w) "Authorization" = Some key).
Proof.
  intros Hin.
  assert (Henh : exists buf, EvEnhance url hdrs payload ∈ (enhance w buf).2).
  { destruct (secure_print_outcome w req db)
      as [r ev Hv|l ev Hv Hd|l ev fileData Hv Hd Hu|l ev fileData r ev' Hv Hd Hu Hr];
      cbn [snd] in Hin;
      pose proof (validate_trace w req db) as Hev; rewrite Hv in Hev; simpl in Hev.
    - destruct Hev as [->|(t & n & ->)];
        [by apply elem_of_nil in Hin|by apply list_elem_of_singleton in Hin].
    - rewrite elem_of_app, list_elem_of_singleton in Hin.
      destruct Hin as [Hin|Hin]; [|done].
      destruct Hev as [->|(t & n & ->)];
        [by apply elem_of_nil in Hin|by apply list_elem_of_singleton in Hin].
    - rewrite elem_of_app, !elem_of_cons, elem_of_nil in Hin.
      destruct Hin as [Hin|[Hin|[Hin|[]]]]; try done.
      destruct Hev as [->|(t & n & ->)];
        [by apply elem_of_nil in Hin|by apply list_elem_of_singleton in Hin].
    - rewrite !elem_of_app, !elem_of_cons, elem_of_nil in Hin.
      destruct Hin as [Hin|[[Hin|[Hin|[Hin|[]]]]|Hin]]; try done.
      { destruct Hev as [->|(t & n & ->)];
          [by apply elem_of_nil in Hin|by apply list_elem_of_singleton in Hin]. }
      revert Hr Hin. unfold render.
      pose proof (normalize_no_enhance w (l_document l) fileData url hdrs payload)
        as Hnn.
      destruct (normalize w (l_document l) fileData) as [[r0|buf] ev1] eqn:Hn.
      + by intros [= <- <-] Hin.
      + destruct (enhance w buf) as [enhanced ev2] eqn:He.
        pose proof (stamp_no_enhance w l (remaining_prints (l_access l) - 1)
                      enhanced url hdrs payload) as Hsn.
        destruct (stamp_and_deliver w l _ enhanced) as [r1 ev3] eqn:Hs.
        intros [= <- <-]. rewrite !elem_of_app. intros [Hin|[Hin|Hin]]; try done.
        exists buf. by rewrite He. }
  destruct Henh as [buf Henh].
  apply enhance_call in Henh as (url' & Hu & Hne & [= -> -> ->]).
  repeat split; try done.
  - apply enhance_headers_entries.
  - intros key Hk Hkne. unfold enhance_headers. cbv zeta. rewrite Hk.
    destruct key as [|c key]; [done|]. simpl. apply lookup_insert_eq.
Qed.

Lemma enhancement_call_witness :
  let w := Cases.world_enhance_up in
  PDF_ENHANCE_URL w = Some "https://enhance.example/v1"%string /\
  "https://enhance.example/v1"%string <> ""%string /\
  enhance_headers w = enhance_headers w /\
  (forall h v, enhance_headers w !! h = Some v ->
     (h = "Content-Type"%string /\ v = "application/pdf"%string) \/
     (PDF_ENHANCE_API_KEY w = Some v /\ v <> ""%string /\
      h = or_else (PDF_ENHANCE_AUTH_HEADER_NAME w) "Authorization")) /\
  (forall key, PDF_ENHANCE_API_KEY w = Some key -> key <> ""%string ->
     enhance_headers w !! or_else (PDF_ENHANCE_AUTH_HEADER_NAME w) "Authorization"
       = Some key).
Proof.
  intros w.
  apply (enhancement_call_carries_only_the_configured_key
           w (Scenario.request "tok-abc") (Scenario.db 3)
           "https://enhance.example/v1" (enhance_headers w) Scenario.pdf_bytes).
  assert (E : exists before after,
            (secure_print w (Scenario.request "tok-abc") (Scenario.db 3)).2 =
            before ++ EvEnhance "https://enhance.example/v1" (enhance_headers w)
                        Scenario.pdf_bytes :: after).
  { eexists [_; _; _; _], _. vm_compute. reflexivity. }
  destruct E as (before & after & ->). apply elem_of_app. right. left.
Defined.



(** * Requests one after the other *)

Lemma updates_app id tr1 tr2 : updates id (tr1 ++ tr2) = updates id tr1 || updates id tr2.
Proof. apply existsb_app. Qed.

Lemma render_no_update w l fileData n id : updates id (render w l fileData n).2 = false.
Proof.
  destruct (render_trace w l fileData n)
    as (c & e & s & -> & Hc & He & Hs).
  rewrite !updates_app.
  destruct Hc as [->|(? & ? & ->)], He as [->|(? & ? & ? & ->)],
    Hs as [->|[(? & ->)|[(? & ? & ? & ->)|(? & ? & ? & ->)]]]; reflexivity.
Qed.

Lemma validate_no_update w req db id : updates id (validate w req db).2 = false.
Proof.
  destruct (validate_trace w req db) as [->|(? & ? & ->)]; reflexivity.
Qed.

Lemma is_delivery_body r :
  is_delivery (Some r) = true -> exists b, body r = BodyBytes b.
Proof.
  destruct r as [st hs bd]. unfold is_delivery.
  repeat case_match; try done. eauto.
Qed.

Lemma is_delivery_error st msg : is_delivery (Some (error_response st msg)) = false.
Proof.
  destruct (is_delivery _) eqn:E; [|done]. by apply is_delivery_body in E as [b ?].
Qed.

(** One request takes at most one print from a grant, and takes one
    whenever it delivers on it. *)
Lemma secure_print_budget w req db id a :
  document_access db !! id = Some a ->
  0 <= remaining_prints a ->
  let res := secure_print w req db in
  exists a',
    document_access res.1.2 !! id = Some a' /\
    0 <= remaining_prints a' /\
    Z.of_nat (if is_delivery (response_of res.1.1) && updates id res.2
              then 1 else 0)
      + remaining_prints a' <= remaining_prints a.
Proof.
  intros Ha Hpos. cbv zeta.
  destruct (secure_print_outcome w req db)
    as [r ev Hv|l ev Hv Hd|l ev fileData Hv Hd Hu|l ev fileData r ev' Hv Hd Hu Hr];
    cbn [fst snd response_of].
  - exists a. repeat split; try done.
    replace (is_delivery (Some r)) with false; [simpl; lia|].
    symmetry. destruct (is_delivery (Some r)) eqn:E; [|done].
    apply is_delivery_body in E as [b Hb]. by eapply validate_Responded in Hv.
  - exists a. by rewrite is_delivery_error.
  - exists a. by rewrite is_delivery_error.
  - rewrite log_print_document_access.
    cbn [document_access update_remaining_prints]. rewrite lookup_alter.
    pose proof (validate_lookup _ _ _ _ _ Hv) as (Hl & _).
    pose proof (validate_Validated _ _ _ _ _ Hv) as (_ & _ & _ & Hr' & _).
    destruct (decide (l_access_id l = id)) as [<-|Hne].
    + rewrite Ha. simpl. eexists. split; [done|]. simpl.
      assert (a = l_access l) by congruence. subst a.
      split; [lia|]. destruct (_ && _); simpl; lia.
    + exists a. repeat split; try done.
      replace (updates id _) with false; [rewrite andb_false_r; simpl; lia|].
      symmetry. rewrite !updates_app.
      pose proof (validate_no_update w req db id) as Hvu. rewrite Hv in Hvu.
      simpl in Hvu. rewrite Hvu.
      pose proof (render_no_update w l fileData (remaining_prints (l_access l) - 1) id)
        as Hru. rewrite Hr in Hru. simpl in Hru. rewrite Hru.
      rewrite orb_false_r. simpl. rewrite orb_false_r.
      by apply String.eqb_neq.
Qed.

(** Requests that are served one after the other respect the quota:
    for a grant whose count is not negative, the documents delivered on it
    and the count left at the end make up at most the count at the start,
    and the count never goes below zero, whatever the requests are and
    whatever the collaborators answer. *)
Theorem requests_in_sequence_respect_the_quota calls db id a :
  document_access db !! id = Some a ->
  0 <= remaining_prints a ->
  let res := in_sequence calls db in
  exists a',
    document_access res.2 !! id = Some a' /\
    0 <= remaining_prints a' /\
    Z.of_nat (prints_of id res.1) + remaining_prints a' <= remaining_prints a.
Proof.
  cbv zeta. revert db a.
  induction calls as [|[w req] calls IH]; intros db a Ha Hpos.
  - by exists a.
  - simpl.
    destruct (secure_print_budget w req db id a Ha Hpos) as (a1 & Ha1 & Hpos1 & Hle1).
    destruct (secure_print w req db) as [[t db1] tr]. simpl in *.
    destruct (IH db1 a1 Ha1 Hpos1) as (a2 & Ha2 & Hpos2 & Hle2).
    destruct (in_sequence calls db1) as [rest db2]. simpl in *.
    exists a2. repeat split; try done. unfold prints_of in *. simpl.
    destruct (_ && _); simpl in *; lia.
Qed.

Lemma sequence_quota_witness :
  let call := (Scenario.world, Scenario.request "tok-abc") in
  let res := in_sequence [call; call; call] (Scenario.db 2) in
  exists a',
    document_access res.2 !! "grant-1" = Some a' /\
    0 <= remaining_prints a' /\
    Z.of_nat (prints_of "grant-1" res.1) + remaining_prints a'
      <= remaining_prints (Scenario.grant 2).
Proof.
  intros call.
  apply (requests_in_sequence_respect_the_quota
           [call; call; call] (Scenario.db 2) "grant-1" (Scenario.grant 2)).
  - vm_compute. reflexivity.
  - vm_compute. discriminate.
Defined.

(** Three requests on a grant with two prints: two documents, then 403. *)
Example three_requests_two_prints :
  let call := (Scenario.world, Scenario.request "tok-abc") in
  let res := in_sequence [call; call; call] (Scenario.db 2) in
  prints_of "grant-1" res.1 = 2%nat /\
  remaining_of res.2 "grant-1" = Some 0 /\
  (fun p => status <$> response_of p.1) <$> res.1 = [Some 200; Some 200; Some 403].
Proof. by vm_compute. Qed.

(** A request at place [k] of the pool that is scheduled [fuel] times in a
    row runs as it runs alone. *)
Lemma interleave_in_place fuel w t db pre post :
  interleave (replicate fuel (length pre)) (pre ++ (w, t) :: post) db =
  (pre ++ (w, (run fuel w t db).1.1) :: post, (run fuel w t db).1.2).
Proof.
  revert t db. induction fuel as [|fuel IH]; intros t db; [done|].
  cbn [replicate interleave run]. unfold advance.
  rewrite lookup_app_r, Nat.sub_diag by done. cbn [lookup list_lookup].
  destruct (step w t db) as [[t' db'] ev].
  rewrite insert_app_r_alt, Nat.sub_diag by done. cbn [insert list_insert].
  rewrite IH. by destruct (run fuel w t' db') as [[? ?] ?].
Qed.

Lemma one_by_one_from calls db pre :
  let pool := pre ++ ((fun c => (c.1, Received c.2)) <$> calls) in
  let res :=
    interleave (flat_map (replicate 5) (seq (length pre) (length calls))) pool db in
  snd <$> res.1 = (snd <$> pre) ++ (fst <$> (in_sequence calls db).1) /\
  res.2 = (in_sequence calls db).2.
Proof.
  cbv zeta. revert db pre. induction calls as [|[w req] calls IH]; intros db pre.
  - simpl. by rewrite !List.app_nil_r.
  - cbn [length seq flat_map fmap list_fmap in_sequence fst snd].
    rewrite interleave_app, interleave_in_place. cbn [fst snd].
    fold (secure_print w req db).
    destruct (secure_print w req db) as [[t db1] tr]. cbn [fst snd].
    specialize (IH db1 (pre ++ [(w, t)])).
    rewrite <- app_assoc, length_app, Nat.add_1_r in IH. cbn [app length] in IH.
    destruct IH as [IH1 IH2].
    destruct (in_sequence calls db1) as [rest db2]. cbn [fst snd] in *.
    split; [|done]. rewrite IH1, fmap_app, <- app_assoc. done.
Qed.

(** The schedule that runs the requests of a pool one by one, each to
    its response, gives what serving them in sequence gives: the same
    responses in the same order and the same database.  With such a
    schedule the quota is respected. *)
Theorem one_by_one_is_in_sequence calls db :
  let pool := (fun c => (c.1, Received c.2)) <$> calls in
  let res := interleave (one_by_one (length calls)) pool db in
  snd <$> res.1 = fst <$> (in_sequence calls db).1 /\
  res.2 = (in_sequence calls db).2.
Proof. exact (one_by_one_from calls db []). Qed.

(** * The handler of [secure-render] *)

(** Every response of [secure-render] carries the two CORS headers and has
    one of the statuses 200, 400, 403, 404 and 500, with the body that
    goes with the status: bytes with 200 and [application/pdf], JSON with
    an [error] member otherwise, nothing for OPTIONS. *)
Theorem secure_render_response_well_formed w req db :
  well_formed req (secure_render w req db).1.
Proof.
  unfold secure_render.
  destruct (String.eqb (method req) "OPTIONS") eqn:Hm.
  { apply String.eqb_eq in Hm. split; [done|]. split; [by left|]. done. }
  unfold internal_error.
  repeat case_match; simpl; try (apply well_formed_error; lia);
    apply well_formed_view.
Qed.

Lemma filter_fmap_commute {A B} (f : A -> B) (P : B -> Prop) (Q : A -> Prop)
    `{!forall y, Decision (P y)} `{!forall x, Decision (Q x)} (l : list A) :
  (forall x, P (f x) <-> Q x) ->
  filter P (f <$> l) = f <$> filter Q l.
Proof.
  intros Hiff. induction l as [|x l IH]; [done|].
  rewrite fmap_cons, !filter_cons, IH.
  destruct (decide (P (f x))) as [HP|HP], (decide (Q x)) as [HQ|HQ];
    try done; exfalso; by apply Hiff in HP || apply Hiff in HQ.
Qed.

Lemma select_access_erased db token now :
  select_access {| document_access := erase_counts db; print_logs := [] |} token now =
  prod_map id (set_remaining_prints 0) <$> select_access db token now.
Proof.
  unfold select_access, erase_counts. simpl. rewrite map_to_list_fmap.
  apply filter_fmap_commute. by intros [id a].
Qed.

Lemma secure_render_erased w req db :
  secure_render w req db =
  secure_render w req {| document_access := erase_counts db; print_logs := [] |}.
Proof.
  unfold secure_render.
  destruct (String.eqb (method req) "OPTIONS"); [done|].
  destruct (json_session_token req) as [tok|]; [|done].
  destruct (falsy tok); [done|]. cbv zeta.
  destruct (select_error w); [done|].
  rewrite select_access_erased.
  by destruct (select_access db _ _) as [|[id a] [|? ?]].
Qed.

(** [secure-render] does not look at the print counts: on two databases
    that hold the same grants and differ at most in their
    [remaining_prints] a request gets the same response and makes the
    same calls.  A grant with no print left is still shown. *)
Theorem view_does_not_depend_on_the_counts w req db1 db2 :
  erase_counts db1 = erase_counts db2 ->
  secure_render w req db1 = secure_render w req db2.
Proof.
  intros H. rewrite (secure_render_erased w req db1), (secure_render_erased w req db2).
  by rewrite H.
Qed.

Lemma view_counts_witness :
  secure_render Scenario.world (Scenario.request "tok-abc") (Scenario.db 0) =
  secure_render Scenario.world (Scenario.request "tok-abc") (Scenario.db 3).
Proof.
  apply (view_does_not_depend_on_the_counts
           Scenario.world (Scenario.request "tok-abc") (Scenario.db 0) (Scenario.db 3)).
  vm_compute. reflexivity.
Defined.

Lemma secure_render_carries w req db token :
  carries req token ->
  secure_render w req db =
    let now := clock_validate w in
    match (if select_error w then QueryError
           else maybeSingle (select_access db token now)) with
    | QueryData (Some (id, access)) =>
        match documents access with
        | None => (error_response 404 "Document not found", [EvSelect token now])
        | Some document =>
            match download w (storage_path document) with
            | None =>
                (error_response 500 "Failed to retrieve document",
                 [EvSelect token now; EvDownload (storage_path document)])
            | Some fileData =>
                (view_response fileData,
                 [EvSelect token now; EvDownload (storage_path document);
                  EvDeliver 200])
            end
        end
    | _ => (invalid_session, [EvSelect token now])
    end.
Proof.
  intros (Hm & Hj & Ht). unfold secure_render. rewrite Hm, Hj.
  destruct token as [|c s]; [done|]. reflexivity.
Qed.

(** [secure-render] answers with status 200 and the bytes [b] exactly when
    the request carries a non-empty token, the select comes back without
    error, one unexpired grant and no other carries the token, its row
    embeds a document, and the bucket gives [b] for the storage path of
    that document: the file goes out as it is stored, with no conversion
    and no stamp, whatever the count of the grant. *)
Theorem view_delivers_the_stored_file w req db b :
  delivers (secure_render w req db).1 b <->
  exists token id a document,
    carries req token /\
    select_error w = false /\
    document_access db !! id = Some a /\
    session_token a = token /\
    clock_validate w < expires_at a /\
    (forall id' a', document_access db !! id' = Some a' ->
       session_token a' = token -> clock_validate w < expires_at a' -> id' = id) /\
    documents a = Some document /\
    download w (storage_path document) = Some b.
Proof.
  split.
  - unfold secure_render.
    destruct (String.eqb (method req) "OPTIONS") eqn:Hm; [by intros [_ ?]|].
    destruct (json_session_token req) as [tok|] eqn:Hj; [|by intros [_ ?]].
    destruct (falsy tok) eqn:Hf; [by intros [_ ?]|].
    apply falsy_false in Hf as (token & -> & Hne). cbv zeta. simpl.
    destruct (select_error w) eqn:He; [by intros [_ ?]|].
    destruct (select_access db token (clock_validate w))
      as [|[id a] [|? ?]] eqn:Hsel; simpl; try by intros [_ ?].
    destruct (documents a) as [document|] eqn:Hdoc; [|by intros [_ ?]].
    destruct (download w (storage_path document)) as [fileData|] eqn:Hd;
      [|by intros [_ ?]].
    intros [_ [= ->]].
    assert (Hin : (id, a) ∈ select_access db token (clock_validate w))
      by (rewrite Hsel; left).
    apply select_access_spec in Hin as (Hl & Ht & Hn).
    exists token, id, a, document. repeat split; try done.
    intros id' a' Hl' Ht' Hn'.
    assert (Hin' : (id', a') ∈ select_access db token (clock_validate w))
      by (by apply select_access_spec).
    rewrite Hsel in Hin'. apply list_elem_of_singleton in Hin'. congruence.
  - intros (token & id & a & document & Hc & He & Hl & Ht & Hn & Hu & Hdoc & Hd).
    rewrite (secure_render_carries _ _ _ _ Hc). cbv zeta.
    rewrite He, (select_access_sole db token _ id a) by done.
    simpl. by rewrite Hdoc, Hd.
Qed.

(** [secure-print] is at least as strict as [secure-render].  Whenever
    [secure-print] delivers, [secure-render] on the same request and
    database answers 200 with the stored file.  Whenever [secure-render]
    does not deliver, [secure-print] leaves the database as it was and
    gives the same response, or [Print limit exceeded] when the grant has
    no print left. *)
Theorem print_refuses_what_view_refuses w req db :
  let printed := secure_print w req db in
  let viewed := secure_render w req db in
  (forall r b, printed.1.1 = Responded r -> delivers r b ->
     exists l ev fileData,
       validate w req db = (Validated l, ev) /\
       download w (storage_path (l_document l)) = Some fileData /\
       viewed.1 = view_response fileData) /\
  ((forall b, ~ delivers viewed.1 b) ->
     printed.1.2 = db /\
     (printed.1.1 = Responded viewed.1 \/
      printed.1.1 = Responded print_limit_exceeded)).
Proof.
  cbv zeta. split.
  - intros r b Hp Hdel.
    destruct (secure_print w req db) as [[t db'] tr] eqn:H. simpl in Hp. subst t.
    destruct (secure_print_delivery _ _ _ _ _ _ _ H Hdel)
      as (l & fileData & ev & ev' & Hv & Hd & _).
    exists l, ev, fileData. split; [done|]. split; [done|].
    pose proof (validate_Validated _ _ _ _ _ Hv) as (Hc & He & Hsel & _ & Hdoc & _).
    rewrite (secure_render_carries _ _ _ _ Hc). cbv zeta.
    rewrite He, Hsel. simpl. by rewrite Hdoc, Hd.
  - intros Hno.
    destruct (validate w req db) as [t ev] eqn:Hv.
    destruct (validate_thread w req db) as [[r Hr]|[l Hl]];
      rewrite Hv in *; simpl in *; subst t.
    + rewrite (secure_print_rejected _ _ _ _ _ Hv). simpl. split; [done|].
      revert Hv Hno. unfold validate, secure_render.
      destruct (String.eqb (method req) "OPTIONS"); [intros [= <- <-]; by left|].
      destruct (json_session_token req) as [tok|]; [|intros [= <- <-]; by left].
      destruct (falsy tok); [intros [= <- <-]; by left|]. cbv zeta.
      destruct (if select_error w then _ else _) as [|[[id a]|]];
        try (intros [= <- <-]; by left).
      destruct (remaining_prints a <=? 0); [intros [= <- <-]; by right|].
      destruct (documents a); [done|]. intros [= <- <-]. by left.
    + pose proof (validate_Validated _ _ _ _ _ Hv) as (Hc & He & Hsel & _ & Hdoc & _).
      rewrite (secure_print_validated _ _ _ _ _ Hv). cbv zeta.
      revert Hno. rewrite (secure_render_carries _ _ _ _ Hc). cbv zeta.
      rewrite He, Hsel. simpl. rewrite Hdoc.
      destruct (download w (storage_path (l_document l))) as [fileData|].
      * intros Hno. by destruct (Hno fileData).
      * intros _. simpl. auto.
Qed.

(** * More on the page size of a converted SVG *)

Lemma skip_spaces_shape s :
  skip_spaces s = ""%string \/ starts_nonspace (skip_spaces s) = true.
Proof.
  induction s as [|c s IH]; [by left|]. simpl.
  destruct (is_space c) eqn:Hc; [done|]. right. simpl. by rewrite Hc.
Qed.

Lemma skip_spaces_suffix s :
  exists sp, is_spaces sp = true /\ s = (sp ++ skip_spaces s)%string.
Proof.
  induction s as [|c s (sp & Hsp & IH)]; [by exists ""%string|]. simpl.
  destruct (is_space c) eqn:Hc.
  - exists (String c sp). split; [unfold is_spaces in *; simpl; by rewrite Hc|].
    by rewrite append_cons, <- IH.
  - by exists ""%string.
Qed.

Lemma string_rev_nil s : string_rev s = ""%string -> s = ""%string.
Proof. intros H. by rewrite <- (string_rev_involutive s), H. Qed.

Lemma starts_nonspace_app a b :
  a <> ""%string -> starts_nonspace (a ++ b) = starts_nonspace a.
Proof. by destruct a. Qed.

(** [trim] gives the empty string or a string with a character other
    than a space at both ends. *)
Lemma trim_shape s :
  trim s = ""%string \/
  (starts_nonspace (trim s) = true /\ starts_nonspace (string_rev (trim s)) = true).
Proof.
  unfold trim.
  destruct (skip_spaces_shape (string_rev (skip_spaces s))) as [E|E].
  { left. by rewrite E. }
  right. rewrite string_rev_involutive. split; [|done].
  destruct (skip_spaces_suffix (string_rev (skip_spaces s))) as (sp & Hsp & Hv).
  assert (Hu : skip_spaces s =
               (string_rev (skip_spaces (string_rev (skip_spaces s)))
                ++ string_rev sp)%string).
  { rewrite <- string_rev_app, <- Hv. by rewrite string_rev_involutive. }
  assert (Hne : string_rev (skip_spaces (string_rev (skip_spaces s))) <> ""%string).
  { intros Hnil. apply string_rev_nil in Hnil. by rewrite Hnil in E. }
  rewrite <- (starts_nonspace_app _ (string_rev sp)) by done.
  rewrite <- Hu. destruct (skip_spaces_shape s) as [E'|E']; [|done].
  rewrite E' in Hne. by vm_compute in Hne.
Qed.

Lemma string_rev_last s c r :
  string_rev s = String c r -> s = (string_rev r ++ String c "")%string.
Proof.
  intros H. rewrite <- (string_rev_involutive s), H.
  change (String c r) with (String c "" ++ r)%string.
  by rewrite string_rev_app.
Qed.

(** The pieces of a string that ends with a character other than a
    space. *)
Lemma split_spaces_values body c :
  is_space c = false ->
  (exists p ps,
     split_spaces false (body ++ String c "") = p :: ps /\
     all_chars (fun c => negb (is_space c)) p = true /\
     Forall (fun v => is_value v = true) ps /\
     (starts_nonspace (body ++ String c "") = true -> p <> ""%string)) /\
  Forall (fun v => is_value v = true) (split_spaces true (body ++ String c "")).
Proof.
  intros Hc. induction body as [|d body [(p & ps & Hs & Hp & Hps & Hne) IHt]].
  - simpl. rewrite Hc. split.
    + exists (String c ""), []. simpl. rewrite Hc. by repeat split.
    + repeat constructor. unfold is_value. simpl. by rewrite Hc.
  - rewrite append_cons. simpl. destruct (is_space d) eqn:Hd.
    + split; [|done]. exists ""%string, (split_spaces true (body ++ String c "")).
      by repeat split.
    + rewrite Hs.
      assert (Hv : is_value (String d p) = true).
      { unfold is_value. simpl. by rewrite Hd, Hp. }
      split.
      * exists (String d p), ps. by repeat split.
      * by constructor.
Qed.

(** What [split] hands to [Number]: the one empty string of a blank
    attribute value, or values that are not empty and hold no space. *)
Lemma split_trim_values group :
  split_spaces false (trim group) = [""%string] \/
  Forall (fun v => is_value v = true) (split_spaces false (trim group)).
Proof.
  destruct (trim_shape group) as [->|[Hs He]]; [by left|]. right.
  destruct (string_rev (trim group)) as [|c r] eqn:Hr; [done|].
  apply string_rev_last in Hr. simpl in He. apply negb_true_iff in He.
  destruct (split_spaces_values (string_rev r) c He)
    as [(p & ps & Hsplit & Hp & Hps & Hne) _].
  rewrite Hr in *. rewrite Hsplit. constructor; [|done].
  unfold is_value. rewrite Hp, andb_true_r.
  apply negb_true_iff, String.eqb_neq. auto.
Qed.

Lemma literal_ci_any_case lit name r :
  toLowerCase name = toLowerCase lit -> literal_ci lit (name ++ r) = Some r.
Proof.
  revert name. induction lit as [|a lit IH]; intros [|b name]; try done.
  simpl. intros [= Hb Hn]. rewrite Hb, Ascii.eqb_refl. by apply IH.
Qed.

Lemma toLowerCase_length s : String.length (toLowerCase s) = String.length s.
Proof. induction s as [|c s IH]; simpl; by rewrite ?IH. Qed.

Lemma match_viewBox_here_named name sp1 sp2 group rest :
  toLowerCase name = "viewbox"%string ->
  is_spaces sp1 = true ->
  is_spaces sp2 = true ->
  group <> ""%string ->
  all_chars (fun c => negb (Ascii.eqb c dquote)) group = true ->
  match_viewBox_here
    (name ++ sp1 ++ "=" ++ sp2 ++ String dquote (group ++ String dquote rest))
  = Some group.
Proof.
  intros Hn H1 H2 Hne Hg. unfold match_viewBox_here.
  rewrite literal_ci_any_case, skip_spaces_spaces by done.
  rewrite append_cons, append_nil_l, skip_spaces_stop by done.
  rewrite skip_spaces_spaces by done.
  rewrite skip_spaces_stop by done.
  rewrite Ascii.eqb_refl, until_quote_run by done.
  by destruct group.
Qed.

Lemma match_viewBox_named_text pre name sp_a sp_b group post :
  toLowerCase name = "viewbox"%string ->
  occurs_ci "viewBox" (pre ++ substring 0 6 name) = false ->
  is_spaces sp_a = true ->
  is_spaces sp_b = true ->
  group <> ""%string ->
  all_chars (fun c => negb (Ascii.eqb c dquote)) group = true ->
  match_viewBox (pre ++ named_attribute name sp_a sp_b group ++ post) = Some group.
Proof.
  intros Hn Hpre Ha Hb Hne Hq.
  assert (Hlen : String.length name = 7%nat)
    by (by rewrite <- toLowerCase_length, Hn).
  assert (Hname : name = (substring 0 6 name ++ substring 6 1 name)%string)
    by (rewrite (substring_split name 6) at 1; [by rewrite Hlen|lia]).
  assert (E : (named_attribute name sp_a sp_b group ++ post)%string =
              (substring 0 6 name ++ (substring 6 1 name ++ sp_a ++ "=" ++ sp_b
                 ++ String dquote (group ++ String dquote post)))%string).
  { unfold named_attribute. rewrite Hname at 1.
    rewrite !append_assoc, (append_cons dquote), (append_assoc group),
      (append_cons dquote "" post), append_nil_l.
    reflexivity. }
  rewrite E, match_viewBox_skip; [| done |].
  2: { do 7 (destruct name as [|? name]; try done). }
  apply match_viewBox_found.
  rewrite <- append_assoc, <- Hname.
  by apply (match_viewBox_here_named name sp_a sp_b group post).
Qed.

Section PageSizeEdges.

Context {number : Type}.
Variable Number : string -> number.
Variable isFinite : number -> bool.
Variable nonpositive : number -> bool.

(** [getPageSizeFromViewBox] gives a size only from a viewBox of exactly
    four values, none of them empty or with a space in it, all four read
    as finite numbers; the size is the third and the fourth, and both are
    positive.  No empty string reaches [Number]. *)
Theorem custom_page_size_is_finite_and_positive svgText width height :
  getPageSizeFromViewBox Number isFinite nonpositive svgText = Some (width, height) ->
  exists group x y w h,
    match_viewBox svgText = Some group /\
    split_spaces false (trim group) = [x; y; w; h] /\
    is_value x = true /\ is_value y = true /\
    is_value w = true /\ is_value h = true /\
    isFinite (Number x) = true /\ isFinite (Number y) = true /\
    width = Number w /\ height = Number h /\
    isFinite width = true /\ isFinite height = true /\
    nonpositive width = false /\ nonpositive height = false.
Proof.
  unfold getPageSizeFromViewBox.
  destruct (match_viewBox svgText) as [group|]; [|done].
  pose proof (split_trim_values group) as Hv.
  destruct (split_spaces false (trim group)) as [|x [|y [|w [|h [|z rest]]]]]
    eqn:Hsplit; try done.
  destruct Hv as [Hv|Hv]; [done|].
  cbn -[Nat.eqb]. cbn [Nat.eqb length].
  destruct (isFinite (Number x)) eqn:Fx, (isFinite (Number y)) eqn:Fy,
    (isFinite (Number w)) eqn:Fw, (isFinite (Number h)) eqn:Fh; simpl; try done.
  destruct (nonpositive (Number w)) eqn:Pw, (nonpositive (Number h)) eqn:Ph;
    simpl; try done.
  intros [= <- <-]. exists group, x, y, w, h.
  inversion Hv as [|? ? Hx Hv1]; subst. inversion Hv1 as [|? ? Hy Hv2]; subst.
  inversion Hv2 as [|? ? Hw Hv3]; subst. inversion Hv3 as [|? ? Hh _]; subst.
  by repeat split.
Qed.


(** The name of the attribute is found in any letter case: [VIEWBOX] or
    [viewbox] give the page size that [viewBox] gives. *)
Theorem viewBox_name_in_any_case pre name sp_a sp_b group post :
  toLowerCase name = "viewbox"%string ->
  occurs_ci "viewBox" (pre ++ substring 0 6 name) = false ->
  is_spaces sp_a = true ->
  is_spaces sp_b = true ->
  group <> ""%string ->
  all_chars (fun c => negb (Ascii.eqb c dquote)) group = true ->
  pageSize Number isFinite nonpositive
    (pre ++ named_attribute name sp_a sp_b group ++ post) =
  pageSize Number isFinite nonpositive (viewBox_attribute sp_a sp_b group).
Proof.
  intros Hn Hpre Ha Hb Hne Hq. unfold pageSize, getPageSizeFromViewBox.
  rewrite match_viewBox_named_text by done.
  rewrite <- (append_nil_r (viewBox_attribute sp_a sp_b group)).
  rewrite <- (append_nil_l (viewBox_attribute sp_a sp_b group ++ "")).
  by rewrite match_viewBox_attribute_text.
Qed.

End PageSizeEdges.

Lemma custom_page_size_witness :
  exists group x y w h,
    match_viewBox (Scenario.svg (Scenario.attr "viewBox" " 0 0  300 200 "))
      = Some group /\
    split_spaces false (trim group) = [x; y; w; h] /\
    is_value x = true /\ is_value y = true /\
    is_value w = true /\ is_value h = true /\
    integer_isFinite (integer_Number x) = true /\
    integer_isFinite (integer_Number y) = true /\
    Finite 300 = integer_Number w /\ Finite 200 = integer_Number h /\
    integer_isFinite (Finite 300) = true /\ integer_isFinite (Finite 200) = true /\
    integer_nonpositive (Finite 300) = false /\
    integer_nonpositive (Finite 200) = false.
Proof.
  apply (custom_page_size_is_finite_and_positive
           integer_Number integer_isFinite integer_nonpositive
           (Scenario.svg (Scenario.attr "viewBox" " 0 0  300 200 "))).
  reflexivity.
Defined.


Lemma viewBox_name_witness :
  pageSize integer_Number integer_isFinite integer_nonpositive
    ("<svg " ++ named_attribute "VIEWBOX" " " " " "0 0 300 200" ++ "></svg>") =
  pageSize integer_Number integer_isFinite integer_nonpositive
    (viewBox_attribute " " " " "0 0 300 200") /\
  pageSize integer_Number integer_isFinite integer_nonpositive
    (viewBox_attribute " " " " "0 0 300 200") = Custom (Finite 300) (Finite 200).
Proof.
  split; [|reflexivity].
  apply (viewBox_name_in_any_case
           integer_Number integer_isFinite integer_nonpositive
           "<svg " "VIEWBOX" " " " " "0 0 300 200" "></svg>"); try reflexivity.
  discriminate.
Defined.

(** ** The endpoint *)

Section ConversionServiceProperties.

Context {number : Type}.
Variable Number : string -> number.
Variable isFinite : number -> bool.
Variable nonpositive : number -> bool.
Variable SVGtoPDF_throws : string -> bool.

Lemma page_size_positive svgText width height :
  getPageSizeFromViewBox Number isFinite nonpositive svgText = Some (width, height) ->
  isFinite width = true /\ isFinite height = true /\
  nonpositive width = false /\ nonpositive height = false.
Proof.
  unfold getPageSizeFromViewBox.
  destruct (match_viewBox svgText) as [group|]; [|done].
  destruct (split_spaces false (trim group)) as [|x [|y [|w [|h [|z rest]]]]];
    try done.
  cbn -[Nat.eqb]. cbn [Nat.eqb length].
  destruct (isFinite (Number x)), (isFinite (Number y)),
    (isFinite (Number w)) eqn:Fw, (isFinite (Number h)) eqn:Fh; simpl; try done.
  destruct (nonpositive (Number w)) eqn:Pw, (nonpositive (Number h)) eqn:Ph;
    simpl; try done.
  by intros [= <- <-].
Qed.

(** The endpoint [/svg-to-pdf] answers 400 without an upload and 500 when
    drawing throws; every document it sends has exactly one page, with the
    text of the upload drawn on it, whose size is the width and height
    that [getPageSizeFromViewBox] gives, both finite and positive, or A4
    when it gives none. *)
Theorem service_sends_one_page_of_a_good_size file :
  match svg_to_pdf number Number isFinite nonpositive SVGtoPDF_throws file with
  | Sent st message =>
      (st = 400 /\ file = None /\ message = "Missing SVG file"%string) \/
      (st = 500 /\ message = "Conversion failed"%string /\
       exists buffer, file = Some buffer /\ SVGtoPDF_throws (text buffer) = true)
  | SentPdf pages =>
      exists buffer size,
        file = Some buffer /\
        SVGtoPDF_throws (text buffer) = false /\
        pages = [(size, text buffer)] /\
        match size with
        | A4 => getPageSizeFromViewBox Number isFinite nonpositive (text buffer) = None
        | Custom width height =>
            getPageSizeFromViewBox Number isFinite nonpositive (text buffer)
              = Some (width, height) /\
            isFinite width = true /\ isFinite height = true /\
            nonpositive width = false /\ nonpositive height = false
        end
  end.
Proof.
  unfold svg_to_pdf. destruct file as [buffer|]; [|by left]. cbv zeta.
  destruct (SVGtoPDF_throws (text buffer)) eqn:Ht; [right; eauto|].
  exists buffer, (pageSize Number isFinite nonpositive (text buffer)).
  repeat split; try done. unfold pageSize.
  destruct (getPageSizeFromViewBox _ _ _ _) as [[width height]|] eqn:Hs; [|done].
  split; [done|]. by apply (page_size_positive (text buffer)).
Qed.

End ConversionServiceProperties.
